(** * README generator service: webhook authentication and repository analysis

    A shallow embedding of the two request handlers of the service and of
    what they rely on:

    - [server.js], route [POST /webhook]: signature verification of an
      inbound event over the raw request body;
    - [lib/analyze.js], [analyzeRepo]: the heuristic analysis of a repository
      tree and of a bounded number of fetched files;
    - [lib/github.js], [getRepoTree] and [loadPrivateKey]: the requests for
      the tree of a branch and the private key of the App.

    JavaScript strings are sequences of UTF-16 code units, buffers are
    sequences of bytes.  The Node primitives the handlers call
    ([Buffer.from], [Buffer#toString], [crypto.createHmac],
    [crypto.timingSafeEqual], [JSON.parse], the regular expressions) are
    written out as functions so that every handler can be run on a concrete
    request. *)

From Stdlib Require Import ZArith NArith List Bool Lia Permutation Sorted.
From Stdlib.Strings Require Import String Ascii Byte.
Import ListNotations.

Set Implicit Arguments.

(* ================================================================== *)
(** * JavaScript strings *)
(* ================================================================== *)

Module JS.

(** A string value: its UTF-16 code units, each below [65536]. *)
Definition jsstring := list N.

(** The string denoted by an ASCII literal. *)
Definition js (s : string) : jsstring :=
  map N_of_ascii (list_ascii_of_string s).

(** Same, with every apostrophe of the literal standing for a double
    quote (code unit 34): convenient for JSON texts. *)
Definition jq (s : string) : jsstring :=
  map (fun c => if N.eqb c 39 then 34%N else c) (js s).

Definition jsstring_eq_dec (a b : jsstring) : {a = b} + {a <> b} :=
  list_eq_dec N.eq_dec a b.

Fixpoint str_eqb (a b : jsstring) : bool :=
  match a, b with
  | [], [] => true
  | x :: a', y :: b' => N.eqb x y && str_eqb a' b'
  | _, _ => false
  end.

(** [ToBoolean] on a string: the empty string is the only falsy one. *)
Definition truthy_str (s : jsstring) : bool :=
  match s with [] => false | _ :: _ => true end.

(** [ToBoolean] on a value that is a string or [undefined]. *)
Definition truthy_header (o : option jsstring) : bool :=
  match o with Some s => truthy_str s | None => false end.

(** The string a truthy value of that kind is. *)
Definition string_of (o : option jsstring) : jsstring :=
  match o with Some s => s | None => [] end.

(** [s.startsWith(p)]. *)
Fixpoint startsWith (p s : jsstring) : bool :=
  match p, s with
  | [], _ => true
  | x :: p', y :: s' => N.eqb x y && startsWith p' s'
  | _ :: _, [] => false
  end.

(** [s.includes(p)]. *)
Fixpoint includes (p s : jsstring) : bool :=
  startsWith p s ||
  match s with
  | [] => false
  | _ :: s' => includes p s'
  end.

(** [a.includes(x)] on an array of strings. *)
Fixpoint arr_includes (x : jsstring) (a : list jsstring) : bool :=
  match a with
  | [] => false
  | y :: a' => str_eqb y x || arr_includes x a'
  end.

(** [s.slice(0, n)] for [0 <= n]. *)
Definition slice0 (n : nat) (s : jsstring) : jsstring := firstn n s.

(** Lower-casing of one code unit of the ASCII range; the regular
    expressions of the service carry the [i] flag without the [u] flag, under
    which an ASCII letter of the pattern matches exactly its two cases. *)
Definition ascii_lower (c : N) : N :=
  if (N.leb 65 c && N.leb c 90)%bool then (c + 32)%N else c.

(** [\s] of a regular expression and the characters [trim] removes:
    white space and line terminators. *)
Definition is_space (c : N) : bool :=
  (N.eqb c 9 || N.eqb c 10 || N.eqb c 11 || N.eqb c 12 || N.eqb c 13 ||
   N.eqb c 32 || N.eqb c 160 || N.eqb c 5760 ||
   (N.leb 8192 c && N.leb c 8202) ||
   N.eqb c 8232 || N.eqb c 8233 || N.eqb c 8239 || N.eqb c 8287 ||
   N.eqb c 12288 || N.eqb c 65279)%bool.

(** Line terminators: what [.] of a regular expression does not match. *)
Definition is_line_terminator (c : N) : bool :=
  (N.eqb c 10 || N.eqb c 13 || N.eqb c 8232 || N.eqb c 8233)%bool.

Definition is_digit (c : N) : bool := (N.leb 48 c && N.leb c 57)%bool.

Fixpoint drop_while (f : N -> bool) (s : jsstring) : jsstring :=
  match s with
  | [] => []
  | c :: s' => if f c then drop_while f s' else s
  end.

Fixpoint take_while (f : N -> bool) (s : jsstring) : jsstring :=
  match s with
  | [] => []
  | c :: s' => if f c then c :: take_while f s' else []
  end.

(** [s.trim()]. *)
Definition trim (s : jsstring) : jsstring :=
  rev (drop_while is_space (rev (drop_while is_space s))).

End JS.
Export JS.

(* ================================================================== *)
(** * Buffers *)
(* ================================================================== *)

Module Buffer.

Definition buffer := list byte.

Definition byte_of_N (n : N) : byte :=
  match Byte.of_N (n mod 256) with
  | Some b => b
  | None => x00
  end.

Definition is_high_surrogate (c : N) : bool := (N.leb 55296 c && N.leb c 56319)%bool.
Definition is_low_surrogate (c : N) : bool := (N.leb 56320 c && N.leb c 57343)%bool.

(** UTF-8 bytes of one code point. *)
Definition utf8_of_code_point (cp : N) : buffer :=
  if N.ltb cp 128 then [byte_of_N cp]
  else if N.ltb cp 2048 then
    [byte_of_N (N.lor 192 (N.shiftr cp 6)); byte_of_N (N.lor 128 (N.land cp 63))]
  else if N.ltb cp 65536 then
    [byte_of_N (N.lor 224 (N.shiftr cp 12));
     byte_of_N (N.lor 128 (N.land (N.shiftr cp 6) 63));
     byte_of_N (N.lor 128 (N.land cp 63))]
  else
    [byte_of_N (N.lor 240 (N.shiftr cp 18));
     byte_of_N (N.lor 128 (N.land (N.shiftr cp 12) 63));
     byte_of_N (N.lor 128 (N.land (N.shiftr cp 6) 63));
     byte_of_N (N.lor 128 (N.land cp 63))].

(** [Buffer.from(s)]: the UTF-8 encoding of the string; a surrogate pair is
    one code point, a lone surrogate is written as U+FFFD. *)
Fixpoint from (s : jsstring) : buffer :=
  match s with
  | [] => []
  | c :: s' =>
      if is_high_surrogate c then
        match s' with
        | d :: s'' =>
            if is_low_surrogate d
            then utf8_of_code_point (65536 + (c - 55296) * 1024 + (d - 56320)) ++ from s''
            else utf8_of_code_point 65533 ++ from s'
        | [] => utf8_of_code_point 65533
        end
      else if is_low_surrogate c then utf8_of_code_point 65533 ++ from s'
      else utf8_of_code_point c ++ from s'
  end.

(** Code units of one decoded code point. *)
Definition code_units (cp : N) : jsstring :=
  if N.ltb cp 65536 then [cp]
  else [(55296 + N.shiftr (cp - 65536) 10)%N; (56320 + N.land (cp - 65536) 1023)%N].

(** State of the UTF-8 decoder between two bytes: the code point under
    construction, the continuation bytes still needed, and the range the
    next continuation byte has to lie in. *)
Record decoder := { cp : N; needed : nat; lower : N; upper : N }.

Definition idle : decoder := {| cp := 0; needed := 0; lower := 128; upper := 191 |}.

(** A byte read while no sequence is open. *)
Definition lead (b : N) : jsstring * decoder :=
  if N.ltb b 128 then ([b], idle)
  else if (N.leb 194 b && N.leb b 223)%bool then
    ([], {| cp := N.land b 31; needed := 1; lower := 128; upper := 191 |})
  else if (N.leb 224 b && N.leb b 239)%bool then
    ([], {| cp := N.land b 15; needed := 2;
            lower := if N.eqb b 224 then 160 else 128;
            upper := if N.eqb b 237 then 159 else 191 |})
  else if (N.leb 240 b && N.leb b 244)%bool then
    ([], {| cp := N.land b 7; needed := 3;
            lower := if N.eqb b 240 then 144 else 128;
            upper := if N.eqb b 244 then 143 else 191 |})
  else ([65533%N], idle).

Definition feed (d : decoder) (b : N) : jsstring * decoder :=
  match needed d with
  | O => lead b
  | S k =>
      if (N.leb (lower d) b && N.leb b (upper d))%bool then
        let cp' := N.lor (N.shiftl (cp d) 6) (N.land b 63) in
        match k with
        | O => (code_units cp', idle)
        | S _ => ([], {| cp := cp'; needed := k; lower := 128; upper := 191 |})
        end
      else
        (* the open sequence is ill-formed: U+FFFD, and the byte is read again *)
        let (out, d') := lead b in (65533%N :: out, d')
  end.

Fixpoint decode (d : decoder) (bs : buffer) : jsstring :=
  match bs with
  | [] => match needed d with O => [] | S _ => [65533%N] end
  | b :: bs' => let (out, d') := feed d (Byte.to_N b) in out ++ decode d' bs'
  end.

(** [buf.toString()] (UTF-8, ill-formed sequences replaced by U+FFFD). *)
Definition toString (bs : buffer) : jsstring := decode idle bs.

End Buffer.

(* ================================================================== *)
(** * SHA-1, SHA-256 and HMAC ([crypto.createHmac]) *)
(* ================================================================== *)

Module Crypto.

Import Buffer.
Local Open Scope Z_scope.

Definition w32 (x : Z) : Z := x mod 4294967296.
Definition add32 (a b : Z) : Z := w32 (a + b).
Definition rotr (n x : Z) : Z := w32 (Z.lor (Z.shiftr x n) (Z.shiftl x (32 - n))).
Definition rotl (n x : Z) : Z := rotr (32 - n) x.
Definition not32 (x : Z) : Z := 4294967295 - x.

Definition Z_of_byte (b : byte) : Z := Z.of_N (Byte.to_N b).
Definition byte_of_Z (z : Z) : byte := byte_of_N (Z.to_N (z mod 256)).

(** The four bytes of a 32-bit word, most significant first. *)
Definition bytes_of_word (w : Z) : buffer :=
  [byte_of_Z (Z.shiftr w 24); byte_of_Z (Z.shiftr w 16); byte_of_Z (Z.shiftr w 8); byte_of_Z w].

Definition word_of_bytes (a b c d : byte) : Z :=
  Z.lor (Z.shiftl (Z_of_byte a) 24)
    (Z.lor (Z.shiftl (Z_of_byte b) 16) (Z.lor (Z.shiftl (Z_of_byte c) 8) (Z_of_byte d))).

Fixpoint words_of_bytes (bs : buffer) : list Z :=
  match bs with
  | a :: b :: c :: d :: bs' => word_of_bytes a b c d :: words_of_bytes bs'
  | _ => []
  end.

(** Padding of both hash functions: a [1] bit, zeros up to 56 modulo 64, and
    the 64-bit length in bits. *)
Definition pad (msg : buffer) : buffer :=
  let n := Z.of_nat (List.length msg) in
  let zeros := Z.to_nat ((55 - n) mod 64) in
  msg ++ [x80] ++ repeat x00 zeros ++
  bytes_of_word (Z.shiftr (8 * n) 32) ++ bytes_of_word (w32 (8 * n)).

(** The 16-word blocks of a padded message. *)
Fixpoint blocks (fuel : nat) (ws : list Z) : list (list Z) :=
  match fuel with
  | O => []
  | S fuel' =>
      match ws with
      | [] => []
      | _ => firstn 16 ws :: blocks fuel' (skipn 16 ws)
      end
  end.

Definition blocks_of (msg : buffer) : list (list Z) :=
  let ws := words_of_bytes (pad msg) in blocks (List.length ws) ws.

(** The message schedule, most recent word first: [extend f n w] adds [n]
    words, each computed by [f] from the words before it. *)
Fixpoint extend (f : list Z -> Z) (n : nat) (w : list Z) : list Z :=
  match n with
  | O => w
  | S n' => extend f n' (f w :: w)
  end.

Definition back (w : list Z) (i : nat) : Z := nth (i - 1) w 0.

Module SHA256.

(** The round constants and the initial state are the first 32 bits of the
    fractional parts of the cube roots and of the square roots of the first
    primes. *)
Definition is_prime (n : nat) : bool :=
  forallb (fun d => negb (Nat.eqb (n mod d) 0)) (List.seq 2 (n - 2)).

Definition primes : list Z := map Z.of_nat (filter is_prime (List.seq 2 310)).

(** The integer cube root, bit by bit from bit [k - 1] down. *)
Fixpoint cube_root (k : nat) (n x : Z) : Z :=
  match k with
  | O => x
  | S k' =>
      let y := x + 2 ^ Z.of_nat k' in
      if y * y * y <=? n then cube_root k' n y else cube_root k' n x
  end.

Definition K : list Z :=
  Eval vm_compute in map (fun p => w32 (cube_root 40 (p * 2 ^ 96) 0)) primes.

Definition H0 : list Z :=
  Eval vm_compute in map (fun p => w32 (Z.sqrt (p * 2 ^ 64))) (firstn 8 primes).

Record state := { a : Z; b : Z; c : Z; d : Z; e : Z; f : Z; g : Z; h : Z }.

Definition init : state :=
  {| a := nth 0 H0 0; b := nth 1 H0 0; c := nth 2 H0 0; d := nth 3 H0 0;
     e := nth 4 H0 0; f := nth 5 H0 0; g := nth 6 H0 0; h := nth 7 H0 0 |}.

Definition sigma0 (x : Z) := Z.lxor (rotr 7 x) (Z.lxor (rotr 18 x) (Z.shiftr x 3)).
Definition sigma1 (x : Z) := Z.lxor (rotr 17 x) (Z.lxor (rotr 19 x) (Z.shiftr x 10)).
Definition Sigma0 (x : Z) := Z.lxor (rotr 2 x) (Z.lxor (rotr 13 x) (rotr 22 x)).
Definition Sigma1 (x : Z) := Z.lxor (rotr 6 x) (Z.lxor (rotr 11 x) (rotr 25 x)).
Definition Ch (x y z : Z) := Z.lxor (Z.land x y) (Z.land (not32 x) z).
Definition Maj (x y z : Z) := Z.lxor (Z.land x y) (Z.lxor (Z.land x z) (Z.land y z)).

Definition next_word (w : list Z) : Z :=
  add32 (add32 (sigma1 (back w 2)) (back w 7)) (add32 (sigma0 (back w 15)) (back w 16)).

Definition schedule (block : list Z) : list Z :=
  rev (extend next_word 48 (rev block)).

Definition round (s : state) (kw : Z * Z) : state :=
  let t1 := add32 (add32 (add32 (h s) (Sigma1 (e s))) (Ch (e s) (f s) (g s)))
                  (add32 (fst kw) (snd kw)) in
  let t2 := add32 (Sigma0 (a s)) (Maj (a s) (b s) (c s)) in
  {| a := add32 t1 t2; b := a s; c := b s; d := c s;
     e := add32 (d s) t1; f := e s; g := f s; h := g s |}.

Definition compress (s : state) (block : list Z) : state :=
  let s' := fold_left round (combine K (schedule block)) s in
  {| a := add32 (a s) (a s'); b := add32 (b s) (b s'); c := add32 (c s) (c s');
     d := add32 (d s) (d s'); e := add32 (e s) (e s'); f := add32 (f s) (f s');
     g := add32 (g s) (g s'); h := add32 (h s) (h s') |}.

Definition digest (msg : buffer) : buffer :=
  let s := fold_left compress (blocks_of msg) init in
  bytes_of_word (a s) ++ bytes_of_word (b s) ++ bytes_of_word (c s) ++ bytes_of_word (d s) ++
  bytes_of_word (e s) ++ bytes_of_word (f s) ++ bytes_of_word (g s) ++ bytes_of_word (h s).

End SHA256.

Module SHA1.

Record state := { a : Z; b : Z; c : Z; d : Z; e : Z }.

Definition init : state :=
  {| a := 0x67452301; b := 0xefcdab89; c := 0x98badcfe; d := 0x10325476; e := 0xc3d2e1f0 |}.

Definition next_word (w : list Z) : Z :=
  rotl 1 (Z.lxor (Z.lxor (back w 3) (back w 8)) (Z.lxor (back w 14) (back w 16))).

Definition schedule (block : list Z) : list Z :=
  rev (extend next_word 64 (rev block)).

(** Round function and constant of round [t]. *)
Definition f_k (t : nat) (x y z : Z) : Z * Z :=
  if Nat.ltb t 20 then (Z.lor (Z.land x y) (Z.land (not32 x) z), 0x5a827999)
  else if Nat.ltb t 40 then (Z.lxor x (Z.lxor y z), 0x6ed9eba1)
  else if Nat.ltb t 60 then (Z.lor (Z.land x y) (Z.lor (Z.land x z) (Z.land y z)), 0x8f1bbcdc)
  else (Z.lxor x (Z.lxor y z), 0xca62c1d6).

Definition round (s : state) (tw : nat * Z) : state :=
  let (fv, k) := f_k (fst tw) (b s) (c s) (d s) in
  let t := add32 (add32 (rotl 5 (a s)) fv) (add32 (add32 (e s) k) (snd tw)) in
  {| a := t; b := a s; c := rotl 30 (b s); d := c s; e := d s |}.

Definition compress (s : state) (block : list Z) : state :=
  let s' := fold_left round (combine (seq 0 80) (schedule block)) s in
  {| a := add32 (a s) (a s'); b := add32 (b s) (b s'); c := add32 (c s) (c s');
     d := add32 (d s) (d s'); e := add32 (e s) (e s') |}.

Definition digest (msg : buffer) : buffer :=
  let s := fold_left compress (blocks_of msg) init in
  bytes_of_word (a s) ++ bytes_of_word (b s) ++ bytes_of_word (c s) ++
  bytes_of_word (d s) ++ bytes_of_word (e s).

End SHA1.

(** The two algorithms the webhook route asks [createHmac] for. *)
Inductive algorithm := sha256 | sha1.

Definition hash (alg : algorithm) : buffer -> buffer :=
  match alg with
  | sha256 => SHA256.digest
  | sha1 => SHA1.digest
  end.

Definition xor_with (p : Z) (bs : buffer) : buffer :=
  map (fun x => byte_of_Z (Z.lxor (Z_of_byte x) p)) bs.

(** HMAC with the 64-byte block of both algorithms: a key longer than the
    block is hashed first, a shorter one is padded with zeros. *)
Definition hmac (alg : algorithm) (key msg : buffer) : buffer :=
  let key0 := if Nat.ltb 64 (List.length key) then hash alg key else key in
  let key1 := key0 ++ repeat x00 (64 - List.length key0) in
  hash alg (xor_with 0x5c key1 ++ hash alg (xor_with 0x36 key1 ++ msg)).

Definition hex_digit (n : N) : N :=
  if N.ltb n 10 then (48 + n)%N else (87 + n)%N.

(** [.digest('hex')]: two lower-case hexadecimal digits per byte. *)
Fixpoint hex (bs : buffer) : jsstring :=
  match bs with
  | [] => []
  | x :: bs' =>
      hex_digit (N.shiftr (Byte.to_N x) 4) :: hex_digit (N.land (Byte.to_N x) 15) :: hex bs'
  end.

(** [crypto.createHmac(alg, secret).update(body).digest('hex')]; a string
    key is taken by its UTF-8 bytes. *)
Definition createHmac_hex (alg : algorithm) (secret : jsstring) (body : buffer) : jsstring :=
  hex (hmac alg (Buffer.from secret) body).

End Crypto.

(** The digests of ["abc"], as the standards publish them. *)
Example sha256_abc :
  Crypto.hex (Crypto.SHA256.digest (Buffer.from (js "abc")))
  = js "ba7816bf8f01cfea414140de5dae2223b00361a396177a9cb410ff61f20015ad".
Proof. vm_compute. reflexivity. Qed.

Example sha1_abc :
  Crypto.hex (Crypto.SHA1.digest (Buffer.from (js "abc")))
  = js "a9993e364706816aba3e25717850c26c9cd0d89d".
Proof. vm_compute. reflexivity. Qed.

(** HMAC of the usual test sentence under the key ["key"]. *)
Example hmac_quick_brown_fox :
  Crypto.createHmac_hex Crypto.sha256 (js "key")
    (Buffer.from (js "The quick brown fox jumps over the lazy dog"))
  = js "f7bc83f430538424b13298e6aa6fb143ef4d59a14946175997479dbc2d1a3cd8" /\
  Crypto.createHmac_hex Crypto.sha1 (js "key")
    (Buffer.from (js "The quick brown fox jumps over the lazy dog"))
  = js "de7c9b85b8b78aa6bc8a7a36f70a90701c9db4d9".
Proof. split; vm_compute; reflexivity. Qed.

(* ================================================================== *)
(** * JSON values and [JSON.parse] *)
(* ================================================================== *)

Module Json.

(** A value returned by [JSON.parse].  A number keeps the text it was
    written with; an object keeps its properties in creation order. *)
#[local] Unset Elimination Schemes.
Inductive json :=
| JNull
| JBool (b : bool)
| JNum (lexeme : jsstring)
| JStr (s : jsstring)
| JArr (items : list json)
| JObj (props : list (jsstring * json)).
#[local] Set Elimination Schemes.

(** The empty object literal [{}]. *)
Definition empty_object : json := JObj [].

(** Own property [k] of an object's property list. *)
Fixpoint lookup (k : jsstring) (props : list (jsstring * json)) : option json :=
  match props with
  | [] => None
  | (k', v) :: props' => if str_eqb k' k then Some v else lookup k props'
  end.

(** Definition of property [k]: a key already present keeps its place and
    takes the new value. *)
Fixpoint define (k : jsstring) (v : json) (props : list (jsstring * json)) :
  list (jsstring * json) :=
  match props with
  | [] => [(k, v)]
  | (k', v') :: props' =>
      if str_eqb k' k then (k, v) :: props' else (k', v') :: define k v props'
  end.

(** [v.k] for one of the property names the service reads ([scripts],
    [start], [test], [main], [name], [repository], ...), on a value that is
    neither [null] nor [undefined]: the property of an object, [undefined]
    ([None]) on an array or a primitive, none of which carries such a name. *)
Definition get (v : json) (k : jsstring) : option json :=
  match v with
  | JObj props => lookup k props
  | _ => None
  end.

(** [o?.k] on a value that may be [undefined]. *)
Definition get_opt (o : option json) (k : jsstring) : option json :=
  match o with
  | None | Some JNull => None
  | Some v => get v k
  end.

Definition digit_val (c : N) : Z := Z.of_N (c - 48).

Definition digits_val (ds : jsstring) : Z :=
  fold_left (fun acc c => (10 * acc + digit_val c)%Z) ds 0%Z.

(** Whether the number written [lexeme] is the Number zero: its digits are
    all zero, or its value is at most half the least positive double,
    [2^-1075], and rounds to zero. *)
Definition number_is_zero (lexeme : jsstring) : bool :=
  let unsigned := match lexeme with 45%N :: r => r | _ => lexeme end in
  let int_part := take_while is_digit unsigned in
  let rest := drop_while is_digit unsigned in
  let frac_part := match rest with 46%N :: r => take_while is_digit r | _ => [] end in
  let rest' := match rest with 46%N :: r => drop_while is_digit r | _ => rest end in
  let exponent :=
    match rest' with
    | _ :: 45%N :: ds => (- digits_val ds)%Z
    | _ :: 43%N :: ds => digits_val ds
    | _ :: ds => digits_val ds
    | [] => 0%Z
    end in
  let mantissa := digits_val (int_part ++ frac_part) in
  let e10 := (exponent - Z.of_nat (List.length frac_part))%Z in
  (Z.eqb mantissa 0 ||
   (Z.ltb e10 0 && Z.leb (mantissa * 2 ^ 1075) (10 ^ (- e10))))%bool.

(** [ToBoolean]. *)
Definition truthy (v : json) : bool :=
  match v with
  | JNull => false
  | JBool b => b
  | JNum lexeme => negb (number_is_zero lexeme)
  | JStr s => truthy_str s
  | JArr _ | JObj _ => true
  end.

(** [ToBoolean] on a value that may be [undefined]. *)
Definition truthy_opt (o : option json) : bool :=
  match o with Some v => truthy v | None => false end.

(** The value a truthy [option json] is. *)
Definition get_json (o : option json) : json :=
  match o with Some v => v | None => JNull end.

(** [a || b]. *)
Definition or_else (a b : option json) : option json :=
  if truthy_opt a then a else b.

Definition has_own (k : jsstring) (props : list (jsstring * json)) : bool :=
  match lookup k props with
  | Some _ => true
  | None => false
  end.

(** Whether [ToString] returns on the value, as in a template literal.  It
    throws a [TypeError] on an object that has a property [toString] of its
    own: no value of a JSON text can be called, and the [valueOf] every
    object inherits returns no primitive.  An array is joined, so it asks
    the same of its elements. *)
Fixpoint renders (v : json) : bool :=
  match v with
  | JObj props => negb (has_own (js "toString") props)
  | JArr items => forallb renders items
  | _ => true
  end.

(** ** The parser *)

Definition is_ws (c : N) : bool :=
  (N.eqb c 32 || N.eqb c 9 || N.eqb c 10 || N.eqb c 13)%bool.

Definition skip_ws (s : jsstring) : jsstring := drop_while is_ws s.

Definition hex_val (c : N) : option N :=
  if is_digit c then Some (c - 48)%N
  else if (N.leb 97 c && N.leb c 102)%bool then Some (c - 87)%N
  else if (N.leb 65 c && N.leb c 70)%bool then Some (c - 55)%N
  else None.

Definition hex4 (a b c d : N) : option N :=
  match hex_val a, hex_val b, hex_val c, hex_val d with
  | Some x, Some y, Some z, Some w => Some (x * 4096 + y * 256 + z * 16 + w)%N
  | _, _, _, _ => None
  end.

(** The characters of a string after its opening quote, up to the closing
    one: the string denoted and the rest of the input. *)
Fixpoint string_body (acc : jsstring) (s : jsstring) : option (jsstring * jsstring) :=
  match s with
  | [] => None
  | c :: r =>
      if N.eqb c 34 then Some (rev acc, r)
      else if N.eqb c 92 then
        match r with
        | [] => None
        | e :: r' =>
            if N.eqb e 34 then string_body (34%N :: acc) r'
            else if N.eqb e 92 then string_body (92%N :: acc) r'
            else if N.eqb e 47 then string_body (47%N :: acc) r'
            else if N.eqb e 98 then string_body (8%N :: acc) r'
            else if N.eqb e 102 then string_body (12%N :: acc) r'
            else if N.eqb e 110 then string_body (10%N :: acc) r'
            else if N.eqb e 114 then string_body (13%N :: acc) r'
            else if N.eqb e 116 then string_body (9%N :: acc) r'
            else if N.eqb e 117 then
              match r' with
              | h1 :: h2 :: h3 :: h4 :: r'' =>
                  match hex4 h1 h2 h3 h4 with
                  | Some u => string_body (u :: acc) r''
                  | None => None
                  end
              | _ => None
              end
            else None
        end
      else if N.ltb c 32 then None
      else string_body (c :: acc) r
  end.

(** One or more digits. *)
Definition digits1 (s : jsstring) : option (jsstring * jsstring) :=
  match take_while is_digit s with
  | [] => None
  | ds => Some (ds, drop_while is_digit s)
  end.

(** A number: an optional minus sign, an integer part ([0], or digits that
    do not start with [0]), an optional fraction (a dot and digits) and an
    optional exponent ([e] or [E], an optional sign, digits). *)
Definition number (s : jsstring) : option (jsstring * jsstring) :=
  let (sign, s1) := match s with 45%N :: r => ([45%N], r) | _ => ([], s) end in
  match s1 with
  | [] => None
  | c :: r1 =>
      let int_part :=
        if N.eqb c 48 then Some ([c], r1)
        else if is_digit c then Some (c :: take_while is_digit r1, drop_while is_digit r1)
        else None in
      match int_part with
      | None => None
      | Some (ip, s2) =>
          let frac :=
            match s2 with
            | 46%N :: r2 =>
                match digits1 r2 with
                | Some (ds, s3) => Some (46%N :: ds, s3)
                | None => None
                end
            | _ => Some ([], s2)
            end in
          match frac with
          | None => None
          | Some (fp, s3) =>
              let expo :=
                match s3 with
                | e :: r3 =>
                    if (N.eqb e 101 || N.eqb e 69)%bool then
                      let (sg, r4) :=
                        match r3 with
                        | x :: r' => if (N.eqb x 43 || N.eqb x 45)%bool then ([x], r') else ([], r3)
                        | [] => ([], r3)
                        end in
                      match digits1 r4 with
                      | Some (ds, s4) => Some (e :: sg ++ ds, s4)
                      | None => None
                      end
                    else Some ([], s3)
                | [] => Some ([], s3)
                end in
              match expo with
              | None => None
              | Some (ep, s4) => Some (sign ++ ip ++ fp ++ ep, s4)
              end
          end
      end
  end.

Definition literal (word : jsstring) (v : json) (s : jsstring) : option (json * jsstring) :=
  if startsWith word s then Some (v, skipn (List.length word) s) else None.

(** A value, with the white space before it.  Every call consumes at least
    one character of the input before it calls itself again, so the length
    of the input is fuel enough. *)
Fixpoint value (fuel : nat) (s : jsstring) {struct fuel} : option (json * jsstring) :=
  match fuel with
  | O => None
  | S fuel' =>
      (* the elements of an array after [[] or after a comma *)
      let elements :=
        fix elements (n : nat) (acc : list json) (s : jsstring) {struct n} :=
          match n with
          | O => None
          | S n' =>
              match value fuel' s with
              | None => None
              | Some (v, r) =>
                  match skip_ws r with
                  | 44%N :: r' => elements n' (v :: acc) r'
                  | 93%N :: r' => Some (JArr (rev (v :: acc)), r')
                  | _ => None
                  end
              end
          end in
      (* the members of an object after [{] or after a comma *)
      let members :=
        fix members (n : nat) (acc : list (jsstring * json)) (s : jsstring) {struct n} :=
          match n with
          | O => None
          | S n' =>
              match skip_ws s with
              | 34%N :: r =>
                  match string_body [] r with
                  | None => None
                  | Some (k, r1) =>
                      match skip_ws r1 with
                      | 58%N :: r2 =>
                          match value fuel' r2 with
                          | None => None
                          | Some (v, r3) =>
                              match skip_ws r3 with
                              | 44%N :: r4 => members n' (define k v acc) r4
                              | 125%N :: r4 => Some (JObj (define k v acc), r4)
                              | _ => None
                              end
                          end
                      | _ => None
                      end
                  end
              | _ => None
              end
          end in
      match skip_ws s with
      | [] => None
      | c :: r =>
          if N.eqb c 123 then
            match skip_ws r with
            | 125%N :: r' => Some (JObj [], r')
            | _ => members (List.length r) [] r
            end
          else if N.eqb c 91 then
            match skip_ws r with
            | 93%N :: r' => Some (JArr [], r')
            | _ => elements (List.length r) [] r
            end
          else if N.eqb c 34 then
            match string_body [] r with
            | Some (str, r') => Some (JStr str, r')
            | None => None
            end
          else if N.eqb c 116 then literal (js "true") (JBool true) (c :: r)
          else if N.eqb c 102 then literal (js "false") (JBool false) (c :: r)
          else if N.eqb c 110 then literal (js "null") JNull (c :: r)
          else
            match number (c :: r) with
            | Some (lexeme, r') => Some (JNum lexeme, r')
            | None => None
            end
      end
  end.

(** [JSON.parse(text)]: [None] stands for the [SyntaxError] it throws. *)
Definition parse (text : jsstring) : option json :=
  match value (S (List.length text)) text with
  | Some (v, r) => match skip_ws r with [] => Some v | _ :: _ => None end
  | None => None
  end.

End Json.
Export Json.

(* ================================================================== *)
(** * [server.js]: the route [POST /webhook] *)
(* ================================================================== *)

Module Webhook.

Import Buffer Crypto.

(** [WEBHOOK_SECRET] and [SKIP_WEBHOOK_VERIFY], read once from the
    environment when the process starts. *)
Record config := {
  WEBHOOK_SECRET : jsstring;
  SKIP_WEBHOOK_VERIFY : bool
}.

(** What the handler reads of a request: four headers ([None] for a header
    the request does not carry, [req.headers[..]] being [undefined]) and
    [req.body] as [express.raw({ type: 'application/json' })] has left it:
    the raw body in a [Buffer], or no [Buffer] at all ([None]) when the
    request has no body or a [Content-Type] other than [application/json],
    which the middleware does not read. *)
Record request := {
  x_hub_signature_256 : option jsstring;
  x_hub_signature : option jsstring;
  x_github_event : option jsstring;
  x_github_delivery : option jsstring;
  body : option buffer
}.

(** [res.status(code).send(text)]. *)
Record response := { status : N; text : jsstring }.

(** What the handler does besides answering: its console lines, each named
    after its text with the values it interpolates, and its calls of
    [crypto.timingSafeEqual]. *)
Inductive effect :=
| Warn_secret_not_set
    (* 'WEBHOOK_SECRET is not set. Set WEBHOOK_SECRET in .env for verification.' *)
| Warn_rejecting_secret_missing
    (* 'Rejecting webhook because WEBHOOK_SECRET is missing.' *)
| Warn_invalid_signature (alg : algorithm) (header computed : jsstring)
    (* 'Invalid webhook signature (sha256).' or '(sha1).', { header, computed } *)
| Warn_no_signature_header
    (* 'No signature header present on webhook request' *)
| Warn_skipping_verification
    (* 'DEBUG_WEBHOOK_NO_VERIFY is true - skipping signature verification (dev only)' *)
| Warn_parse_failed
    (* 'Failed to parse webhook JSON payload' *)
| Log_received (event delivery : jsstring)
    (* 'Webhook received: event=.. delivery=..' *)
| Log_repository (full_name : json)
| Log_ping
| Log_push (ref pusher : option json)
| Log_pull_request (action number : option json)
| Error_handler
    (* 'Webhook handler error' *)
| TimingSafeEqual (a b : buffer).

(** A step of the handler: it goes on with a value, or it has sent the
    response and returned, or it has thrown. *)
Inductive outcome (A : Type) :=
| Next (a : A)
| Sent (r : response)
| Thrown.
Arguments Sent {A} r.
Arguments Thrown {A}.

Definition M (A : Type) := list effect -> outcome A * list effect.

Definition ret {A} (a : A) : M A := fun tr => (Next a, tr).

Definition bind {A B} (m : M A) (k : A -> M B) : M B :=
  fun tr =>
    match m tr with
    | (Next a, tr') => k a tr'
    | (Sent r, tr') => (Sent r, tr')
    | (Thrown, tr') => (Thrown, tr')
    end.

Notation "x <- m ;; k" := (bind m (fun x => k))
  (at level 61, m at next level, right associativity).
Notation "m ;; k" := (bind m (fun _ => k))
  (at level 61, right associativity).

Definition emit (e : effect) : M unit := fun tr => (Next tt, tr ++ [e]).

Definition send {A} (code : N) (t : jsstring) : M A :=
  fun tr => (Sent {| status := code; text := t |}, tr).

Definition throw {A} : M A := fun tr => (Thrown, tr).

Definition when (c : bool) (m : M unit) : M unit := if c then m else ret tt.

Fixpoint buffer_eqb (a b : buffer) : bool :=
  match a, b with
  | [], [] => true
  | x :: a', y :: b' => Byte.eqb x y && buffer_eqb a' b'
  | _, _ => false
  end.

(** [crypto.timingSafeEqual(a, b)]: throws on buffers of different
    lengths, and otherwise tells whether they hold the same bytes. *)
Definition timingSafeEqual (a b : buffer) : M bool :=
  fun tr =>
    if Nat.eqb (List.length a) (List.length b)
    then (Next (buffer_eqb a b), tr ++ [TimingSafeEqual a b])
    else (Thrown, tr ++ [TimingSafeEqual a b]).

Definition prefix (alg : algorithm) : jsstring :=
  match alg with
  | sha256 => js "sha256="
  | sha1 => js "sha1="
  end.

(** ['sha256=' + crypto.createHmac('sha256', WEBHOOK_SECRET).update(req.body).digest('hex')],
    and the same with [sha1]. *)
Definition computed_signature (alg : algorithm) (secret : jsstring) (raw : buffer) : jsstring :=
  prefix alg ++ createHmac_hex alg secret raw.

(** The same on [req.body]: [update] throws on what is no [Buffer]. *)
Definition compute_signature (alg : algorithm) (secret : jsstring) (b : option buffer) :
  M jsstring :=
  match b with
  | Some raw => ret (computed_signature alg secret raw)
  | None => throw
  end.

(** The body of either branch of the signature test (the two differ by the
    algorithm only). *)
Definition check_signature (alg : algorithm) (secret header : jsstring) (b : option buffer) :
  M unit :=
  computed <- compute_signature alg secret b ;;
  let headerBuf := Buffer.from header in
  let computedBuf := Buffer.from computed in
  mismatch <-
    (if negb (Nat.eqb (List.length headerBuf) (List.length computedBuf)) then ret true
     else (same <- timingSafeEqual headerBuf computedBuf ;; ret (negb same))) ;;
  if mismatch : bool then
    emit (Warn_invalid_signature alg header computed) ;;
    send 401 (js "Invalid signature")
  else ret tt.

(** The handler up to the end of the verification block: the warning about
    a missing secret and [if (!SKIP_WEBHOOK_VERIFY) { .. } else { .. }]. *)
Definition verify (cfg : config) (req : request) : M unit :=
  when (negb (truthy_str (WEBHOOK_SECRET cfg))) (emit Warn_secret_not_set) ;;
  let sig256 := x_hub_signature_256 req in
  let sig1 := x_hub_signature req in
  if negb (SKIP_WEBHOOK_VERIFY cfg) then
    if negb (truthy_str (WEBHOOK_SECRET cfg)) then
      emit Warn_rejecting_secret_missing ;;
      send 500 (js "Webhook secret not configured on server")
    else if truthy_header sig256 then
      check_signature sha256 (WEBHOOK_SECRET cfg) (string_of sig256) (body req)
    else if truthy_header sig1 then
      check_signature sha1 (WEBHOOK_SECRET cfg) (string_of sig1) (body req)
    else
      emit Warn_no_signature_header ;;
      send 401 (js "Missing signature header")
  else emit Warn_skipping_verification.

(** The three values the handler derives from an accepted request. *)
Record webhook_event := { kind : jsstring; deliveryId : jsstring; payload : json }.

(** [JSON.parse(req.body.toString())], [None] when it throws: on a body
    whose text is no JSON text, and on what is no [Buffer] ([toString] gives
    no JSON text of it, or throws itself). *)
Definition parse_body (b : option buffer) : option json :=
  match b with
  | Some raw => Json.parse (Buffer.toString raw)
  | None => None
  end.

(** [let payload = {}; try { payload = JSON.parse(req.body.toString()); }
    catch (e) { console.warn(..) }]. *)
Definition parse_payload (b : option buffer) : M json :=
  match parse_body b with
  | Some v => ret v
  | None => emit Warn_parse_failed ;; ret empty_object
  end.

Definition read_event (req : request) : M webhook_event :=
  let event := if truthy_header (x_github_event req)
               then string_of (x_github_event req) else js "unknown" in
  let delivery := if truthy_header (x_github_delivery req)
                  then string_of (x_github_delivery req) else [] in
  p <- parse_payload (body req) ;;
  ret {| kind := event; deliveryId := delivery; payload := p |}.

(** [payload && typeof payload === 'object']. *)
Definition is_object (v : json) : bool :=
  match v with
  | JObj _ | JArr _ => true
  | _ => false
  end.

(** A value interpolated in a template literal: [ToString] may throw. *)
Definition interpolate (v : option json) : M unit :=
  match v with
  | Some x => if renders x then ret tt else throw
  | None => ret tt
  end.

Definition log_event (ev : webhook_event) : M unit :=
  emit (Log_received (kind ev) (deliveryId ev)) ;;
  let p := payload ev in
  if is_object p then
    let repoFullName := get_opt (get p (js "repository")) (js "full_name") in
    when (truthy_opt repoFullName)
         (interpolate repoFullName ;; emit (Log_repository (get_json repoFullName))) ;;
    if str_eqb (kind ev) (js "ping") then emit Log_ping
    else if str_eqb (kind ev) (js "push") then
      let ref := get p (js "ref") in
      let pusher := or_else (get_opt (get p (js "pusher")) (js "name"))
                            (get_opt (get p (js "sender")) (js "login")) in
      interpolate ref ;; interpolate pusher ;; emit (Log_push ref pusher)
    else if str_eqb (kind ev) (js "pull_request") then
      let action := get p (js "action") in
      let number := get p (js "number") in
      interpolate action ;; interpolate number ;; emit (Log_pull_request action number)
    else ret tt
  else ret tt.

(** The [try] block of the handler. *)
Definition handler (cfg : config) (req : request) : M Empty_set :=
  verify cfg req ;;
  ev <- read_event req ;;
  log_event ev ;;
  send 200 (js "ok").

(** The handler with its [catch]: the response sent and what was done. *)
Definition webhook (cfg : config) (req : request) : response * list effect :=
  match handler cfg req [] with
  | (Sent r, tr) => (r, tr)
  | (Thrown, tr) => ({| status := 500; text := js "server error" |}, tr ++ [Error_handler])
  | (Next impossible, _) => match impossible with end
  end.

End Webhook.

(* ================================================================== *)
(** * [lib/analyze.js] *)
(* ================================================================== *)

Module Analyze.

Definition PATHS_OF_INTEREST : list jsstring :=
  map js ["package.json"; "requirements.txt"; "Pipfile"; "pyproject.toml"; "setup.py";
          "go.mod"; "Cargo.toml"; "Gemfile"; "composer.json";
          "Dockerfile"; "docker-compose.yml"; ".env.example"; ".env.sample";
          "Makefile"; "Procfile"]%string.

Definition CI_PATH_PREFIX : jsstring := js ".github/workflows/".

(** ** [detectPrimaryLanguages] *)

(** The own properties of the object literal [map]. *)
Definition language_map : list (jsstring * jsstring) :=
  map (fun kv => (js (fst kv), js (snd kv)))
    [("js", "JavaScript"); ("ts", "TypeScript"); ("py", "Python"); ("java", "Java");
     ("go", "Go"); ("rs", "Rust"); ("rb", "Ruby"); ("php", "PHP"); ("cpp", "C/C++");
     ("c", "C/C++"); ("cs", "C#"); ("swift", "Swift"); ("kt", "Kotlin"); ("sh", "Shell")]%string.

(** The names every object literal answers to besides its own properties:
    the members of [Object.prototype]. *)
Definition Object_prototype : list jsstring :=
  map js ["constructor"; "__defineGetter__"; "__defineSetter__"; "hasOwnProperty";
          "__lookupGetter__"; "__lookupSetter__"; "isPrototypeOf"; "propertyIsEnumerable";
          "toString"; "valueOf"; "__proto__"; "toLocaleString"]%string.

(** What [languages] can hold: a label of the table, or the member of
    [Object.prototype] that [map[ext]] found under an inherited name. *)
Inductive language :=
| Label (name : jsstring)
| Inherited (member : jsstring).

Fixpoint assoc {V : Type} (k : jsstring) (l : list (jsstring * V)) : option V :=
  match l with
  | [] => None
  | (k', v) :: l' => if str_eqb k' k then Some v else assoc k l'
  end.

(** [map[ext]]; every value it can give is truthy. *)
Definition map_get (ext : jsstring) : option language :=
  match assoc ext language_map with
  | Some l => Some (Label l)
  | None => if arr_includes ext Object_prototype then Some (Inherited ext) else None
  end.

(** An extension-count mapping, by its entries in the order [Object.entries]
    lists them. *)
Definition ext_counts := list (jsstring * N).

(** [.sort((a, b) => b[1] - a[1])]: the sort is stable, so an entry goes
    before the entries that are not counted more often than it is. *)
Fixpoint insert_desc (e : jsstring * N) (l : ext_counts) : ext_counts :=
  match l with
  | [] => [e]
  | x :: l' => if N.leb (snd x) (snd e) then e :: x :: l' else x :: insert_desc e l'
  end.

Definition sort_desc (l : ext_counts) : ext_counts := fold_right insert_desc [] l.

Fixpoint push_mapped (ranked : ext_counts) : list language :=
  match ranked with
  | [] => []
  | (ext, _) :: ranked' =>
      match map_get ext with
      | Some l => l :: push_mapped ranked'
      | None => push_mapped ranked'
      end
  end.

Definition detectPrimaryLanguages (extCounts : ext_counts) : list language :=
  let ranked := sort_desc extCounts in
  let languages := push_mapped ranked in
  firstn 3 languages.

(** ** [shortSnippet] *)

Definition truncated_marker : jsstring := 10%N :: js "...[truncated]".

Definition shortSnippet (text : jsstring) (max : nat) : jsstring :=
  if negb (truthy_str text) then []
  else if Nat.ltb max (List.length text) then slice0 max text ++ truncated_marker
  else text.

(** ** The remote API *)

Inductive entry_type := blob | tree | commit.

Record tree_entry := { path : jsstring; type : entry_type }.

Definition is_blob (t : tree_entry) : bool :=
  match type t with blob => true | _ => false end.

(** An answer of [octokit.rest.repos.getContent]: a directory listing
    ([content.data] is an array), a file with the text its base64 content
    decodes to, or no answer (the request is rejected, or decoding throws). *)
Inductive content :=
| Directory
| File (text : jsstring)
| Unavailable.

(** The client, by what it answers; [None] is a rejected request. *)
Record octokit := {
  getBranch : jsstring -> jsstring -> jsstring -> option jsstring;
  getCommit : jsstring -> jsstring -> jsstring -> option jsstring;
  getTree : jsstring -> jsstring -> jsstring -> option (list tree_entry);
  getContent : jsstring -> jsstring -> jsstring -> jsstring -> content
}.

(** The requests an analysis issues, in order. *)
Inductive api_call :=
| GetBranch (owner repo branch : jsstring)
| GetCommit (owner repo commit_sha : jsstring)
| GetTree (owner repo tree_sha : jsstring)
| GetContent (owner repo path ref : jsstring).

(** An asynchronous computation: the requests issued so far are threaded
    through; [None] is a rejected promise. *)
Definition IO (A : Type) := list api_call -> option A * list api_call.

Definition ret {A} (a : A) : IO A := fun log => (Some a, log).

Definition bind {A B} (m : IO A) (k : A -> IO B) : IO B :=
  fun log =>
    match m log with
    | (Some a, log') => k a log'
    | (None, log') => (None, log')
    end.

Notation "x <- m ;; k" := (bind m (fun x => k))
  (at level 61, m at next level, right associativity).

(** [await octokit...(..)]: the request is issued, then answered. *)
Definition request {A} (c : api_call) (answer : option A) : IO A :=
  fun log => (answer, log ++ [c]).

(** [safeGetFile]: the text of the file, or [null]. *)
Definition safeGetFile (oct : octokit) (owner repo path ref : jsstring) : IO (option jsstring) :=
  request (GetContent owner repo path ref)
    (Some match getContent oct owner repo path ref with
          | Directory => None
          | File text => Some text
          | Unavailable => None
          end).

(** ** Files of interest *)

(** Lower-casing of the ASCII letters.  [toLowerCase] also maps letters
    outside ASCII, none of them to a letter of ["readme"], so the test
    [path.toLowerCase().includes('readme')] is the same with either. *)
Definition toLowerCase (s : jsstring) : jsstring := map ascii_lower s.

Definition of_interest (p : jsstring) : bool :=
  arr_includes p PATHS_OF_INTEREST || startsWith CI_PATH_PREFIX p ||
  includes (js "readme") (toLowerCase p).

(** The first loop over the tree. *)
Fixpoint find_files (items : list tree_entry) (filesFound : list jsstring) : list jsstring :=
  match items with
  | [] => filesFound
  | item :: items' =>
      if negb (is_blob item) then find_files items' filesFound
      else if of_interest (path item)
      then find_files items' (filesFound ++ [path item])
      else find_files items' filesFound
  end.

(** The second loop: workflow files not found yet. *)
Fixpoint add_workflows (items : list tree_entry) (filesFound : list jsstring) : list jsstring :=
  match items with
  | [] => filesFound
  | p :: items' =>
      if is_blob p && startsWith CI_PATH_PREFIX (path p) then
        if negb (arr_includes (path p) filesFound)
        then add_workflows items' (filesFound ++ [path p])
        else add_workflows items' filesFound
      else add_workflows items' filesFound
  end.

Definition priority : list jsstring :=
  map js ["package.json"; "pyproject.toml"; "setup.py"; "requirements.txt"; "Pipfile";
          "Dockerfile"; "docker-compose.yml"; ".env.example"; ".env.sample"; "Makefile"]%string.

(** [a.filter((v, i, a) => a.indexOf(v) === i)]: first occurrences only. *)
Fixpoint first_occurrences (seen a : list jsstring) : list jsstring :=
  match a with
  | [] => []
  | v :: a' =>
      if arr_includes v seen then first_occurrences seen a'
      else v :: first_occurrences (seen ++ [v]) a'
  end.

Definition toFetch (filesFound : list jsstring) : list jsstring :=
  first_occurrences []
    (priority ++ filter (fun p => negb (arr_includes p priority)) filesFound).

(** [fileContents]: the snippets by path, in the order the paths were
    set.  (No path that is fetched is an integer index, which an object
    would list first.) *)
Definition file_contents := list (jsstring * jsstring).

Fixpoint set (k v : jsstring) (o : file_contents) : file_contents :=
  match o with
  | [] => [(k, v)]
  | (k', v') :: o' => if str_eqb k' k then (k, v) :: o' else (k', v') :: set k v o'
  end.

Definition keys (o : file_contents) : list jsstring := map fst o.
Definition values (o : file_contents) : list jsstring := map snd o.

(** [fileContents[k]] where the code tests it: [Some] for a snippet that
    is there and truthy. *)
Definition snippet (k : string) (o : file_contents) : option jsstring :=
  match assoc (js k) o with
  | Some text => if truthy_str text then Some text else None
  | None => None
  end.

(** The fetch loop over [toFetch.slice(0, 40)]. *)
Fixpoint fetch_files (oct : octokit) (owner repo ref : jsstring)
    (paths : list jsstring) (fileContents : file_contents) : IO file_contents :=
  match paths with
  | [] => ret fileContents
  | path :: paths' =>
      txt <- safeGetFile oct owner repo path ref ;;
      fetch_files oct owner repo ref paths'
        (if truthy_header txt
         then set path (shortSnippet (string_of txt) 2000) fileContents
         else fileContents)
  end.

(** ** The regular expressions *)

(** Whether [s] starts with the ASCII word [w], given in lower case, in
    either case of each letter: a literal under the flag [i]. *)
Fixpoint ci_startsWith (w s : jsstring) : bool :=
  match w, s with
  | [], _ => true
  | x :: w', y :: s' => N.eqb x (ascii_lower y) && ci_startsWith w' s'
  | _ :: _, [] => false
  end.

(** [/w/i.test(s)]. *)
Fixpoint ci_test (w s : jsstring) : bool :=
  ci_startsWith w s ||
  match s with
  | [] => false
  | _ :: s' => ci_test w s'
  end.

Definition not_line_terminator (c : N) : bool := negb (is_line_terminator c).

(** A match at the start of [s] of the pattern the code writes
    [/CMD\s+(REST)/i] and [/ENTRYPOINT\s+(REST)/i], [REST] being [.] starred,
    by its group: the keyword, white space (all there is, the [+] being
    greedy), and what is left of the line. *)
Definition keyword_at (kw s : jsstring) : option jsstring :=
  if ci_startsWith kw s then
    match skipn (List.length kw) s with
    | c :: r =>
        if is_space c
        then Some (take_while not_line_terminator (drop_while is_space (c :: r)))
        else None
    | [] => None
    end
  else None.

(** [s.match(..)] with that pattern, by group 1 of the match, which is
    the leftmost one. *)
Fixpoint match_keyword (kw s : jsstring) : option jsstring :=
  match keyword_at kw s with
  | Some g => Some g
  | None =>
      match s with
      | [] => None
      | _ :: s' => match_keyword kw s'
      end
  end.

(** A match of [/EXPOSE\s+([0-9]+)/i] at the start of [s]: its group and
    its length. *)
Definition expose_at (s : jsstring) : option (jsstring * nat) :=
  if ci_startsWith (js "expose") s then
    let r := skipn 6 s in
    let sp := take_while is_space r in
    let ds := take_while is_digit (drop_while is_space r) in
    match sp, ds with
    | _ :: _, _ :: _ => Some (ds, 6 + List.length sp + List.length ds)
    | _, _ => None
    end
  else None.

(** [[...s.matchAll(/EXPOSE\s+([0-9]+)/ig)].map(x => x[1])]: the matches
    from left to right, each search starting where the match before ended
    ([skip] characters further). *)
Fixpoint matchAll_expose (skip : nat) (s : jsstring) : list jsstring :=
  match s with
  | [] => []
  | _ :: s' =>
      match skip with
      | S k => matchAll_expose k s'
      | O =>
          match expose_at s with
          | Some (ds, len) => ds :: matchAll_expose (len - 1) s'
          | None => matchAll_expose 0 s'
          end
      end
  end.

(** [s.split('/')]. *)
Fixpoint split_slash (cur : jsstring) (s : jsstring) : list jsstring :=
  match s with
  | [] => [rev cur]
  | c :: s' => if N.eqb c 47 then rev cur :: split_slash [] s' else split_slash (c :: cur) s'
  end.

(** [/(^|\/)(__tests__|tests|test)($|\/)/i]: one of the three names is a
    whole component of the path. *)
Definition test_folder (p : jsstring) : bool :=
  existsb (fun c => str_eqb (toLowerCase c) (js "__tests__") ||
                    str_eqb (toLowerCase c) (js "tests") ||
                    str_eqb (toLowerCase c) (js "test"))
          (split_slash [] p).

(** ** The detected facts *)

Record docker_info := {
  cmd : option jsstring;
  dock_entrypoint : option jsstring;
  exposedPorts : list jsstring
}.

(** What [entrypoint] holds: [null], a value (a string, or whatever the
    manifest gives under [scripts.start]), or the template string
    [`node ${main}`] for a [main] that is not a string (it is kept as a
    template: the digits of a number are those of its floating-point
    value). *)
Inductive entry :=
| Unset
| Value (v : json)
| Node_template (main : json).

Definition truthy_entry (e : entry) : bool :=
  match e with
  | Unset => false
  | Value v => truthy v
  | Node_template _ => true
  end.

(** [`node ${main}`]. *)
Definition node_main (main : json) : entry :=
  match main with
  | JStr s => Value (JStr (js "node " ++ s))
  | _ => Node_template main
  end.

(** [analysis.detected], without [envVars] and [assumptions]. *)
Record DetectedFacts := {
  projectType : option jsstring;
  entrypoint : entry;
  runCommands : list json;
  testCommands : list json;
  packageManager : option jsstring;
  hasDocker : bool;
  dockerInfo : option docker_info;
  hasCI : bool;
  ciFiles : list jsstring;
  hasTests : bool;
  readme : option jsstring;
  license : option jsstring
}.

Definition initial : DetectedFacts :=
  {| projectType := None; entrypoint := Unset; runCommands := []; testCommands := [];
     packageManager := None; hasDocker := false; dockerInfo := None; hasCI := false;
     ciFiles := []; hasTests := false; readme := None; license := None |}.

Definition set_projectType v d :=
  {| projectType := v; entrypoint := entrypoint d; runCommands := runCommands d;
     testCommands := testCommands d; packageManager := packageManager d;
     hasDocker := hasDocker d; dockerInfo := dockerInfo d; hasCI := hasCI d;
     ciFiles := ciFiles d; hasTests := hasTests d; readme := readme d; license := license d |}.
Definition set_entrypoint v d :=
  {| projectType := projectType d; entrypoint := v; runCommands := runCommands d;
     testCommands := testCommands d; packageManager := packageManager d;
     hasDocker := hasDocker d; dockerInfo := dockerInfo d; hasCI := hasCI d;
     ciFiles := ciFiles d; hasTests := hasTests d; readme := readme d; license := license d |}.
Definition set_runCommands v d :=
  {| projectType := projectType d; entrypoint := entrypoint d; runCommands := v;
     testCommands := testCommands d; packageManager := packageManager d;
     hasDocker := hasDocker d; dockerInfo := dockerInfo d; hasCI := hasCI d;
     ciFiles := ciFiles d; hasTests := hasTests d; readme := readme d; license := license d |}.
Definition set_testCommands v d :=
  {| projectType := projectType d; entrypoint := entrypoint d; runCommands := runCommands d;
     testCommands := v; packageManager := packageManager d;
     hasDocker := hasDocker d; dockerInfo := dockerInfo d; hasCI := hasCI d;
     ciFiles := ciFiles d; hasTests := hasTests d; readme := readme d; license := license d |}.
Definition set_packageManager v d :=
  {| projectType := projectType d; entrypoint := entrypoint d; runCommands := runCommands d;
     testCommands := testCommands d; packageManager := v;
     hasDocker := hasDocker d; dockerInfo := dockerInfo d; hasCI := hasCI d;
     ciFiles := ciFiles d; hasTests := hasTests d; readme := readme d; license := license d |}.
Definition set_docker v d :=
  {| projectType := projectType d; entrypoint := entrypoint d; runCommands := runCommands d;
     testCommands := testCommands d; packageManager := packageManager d;
     hasDocker := true; dockerInfo := Some v; hasCI := hasCI d;
     ciFiles := ciFiles d; hasTests := hasTests d; readme := readme d; license := license d |}.
Definition set_ci v d :=
  {| projectType := projectType d; entrypoint := entrypoint d; runCommands := runCommands d;
     testCommands := testCommands d; packageManager := packageManager d;
     hasDocker := hasDocker d; dockerInfo := dockerInfo d; hasCI := true;
     ciFiles := v; hasTests := hasTests d; readme := readme d; license := license d |}.
Definition set_hasTests d :=
  {| projectType := projectType d; entrypoint := entrypoint d; runCommands := runCommands d;
     testCommands := testCommands d; packageManager := packageManager d;
     hasDocker := hasDocker d; dockerInfo := dockerInfo d; hasCI := hasCI d;
     ciFiles := ciFiles d; hasTests := true; readme := readme d; license := license d |}.
Definition set_readme v d :=
  {| projectType := projectType d; entrypoint := entrypoint d; runCommands := runCommands d;
     testCommands := testCommands d; packageManager := packageManager d;
     hasDocker := hasDocker d; dockerInfo := dockerInfo d; hasCI := hasCI d;
     ciFiles := ciFiles d; hasTests := hasTests d; readme := Some v; license := license d |}.
Definition set_license v d :=
  {| projectType := projectType d; entrypoint := entrypoint d; runCommands := runCommands d;
     testCommands := testCommands d; packageManager := packageManager d;
     hasDocker := hasDocker d; dockerInfo := dockerInfo d; hasCI := hasCI d;
     ciFiles := ciFiles d; hasTests := hasTests d; readme := readme d; license := Some v |}.

(** [x = x || v] on a field that is [null] or a string of the code. *)
Definition or_default (x : option jsstring) (v : string) : option jsstring :=
  if truthy_header x then x else Some (js v).

(** ** [Object.values] *)

(** The array index a property name is: digits without a leading zero,
    below [2^32 - 1]. *)
Definition array_index (k : jsstring) : option N :=
  match k with
  | [] => None
  | c :: r =>
      if forallb is_digit k && (negb (N.eqb c 48) || match r with [] => true | _ => false end)
      then let n := fold_left (fun acc d => (10 * acc + (d - 48))%N) k 0%N in
           if N.ltb n 4294967295 then Some n else None
      else None
  end.

Fixpoint insert_index (e : N * json) (l : list (N * json)) : list (N * json) :=
  match l with
  | [] => [e]
  | x :: l' => if N.leb (fst e) (fst x) then e :: x :: l' else x :: insert_index e l'
  end.

Fixpoint indexed (props : list (jsstring * json)) : list (N * json) :=
  match props with
  | [] => []
  | (k, v) :: props' =>
      match array_index k with
      | Some n => insert_index (n, v) (indexed props')
      | None => indexed props'
      end
  end.

Fixpoint named (props : list (jsstring * json)) : list json :=
  match props with
  | [] => []
  | (k, v) :: props' =>
      match array_index k with
      | Some _ => named props'
      | None => v :: named props'
      end
  end.

(** [Object.values(v)] for a truthy [v]: the properties that are array
    indices come first, in ascending order, then the others as created; a
    string gives its characters, a number or a boolean nothing. *)
Definition Object_values (v : json) : list json :=
  match v with
  | JObj props => map snd (indexed props) ++ named props
  | JArr items => items
  | JStr s => map (fun c => JStr [c]) s
  | _ => []
  end.

Definition get_value (o : option json) : entry := Value (get_json o).

Definition get_values (o : option json) : list json := Object_values (get_json o).

(** ** The heuristics, in the order the code applies them *)

(** [package.json]: the [try] block, whose [catch] ignores what is thrown.
    A text that does not parse leaves everything as it was; a manifest that
    is [null] throws at [pj.scripts], after [packageManager] was set; and
    the template [`node ${pj.main}`], evaluated when no entry point is set,
    throws on a [main] that [ToString] throws on, before [pj.name] is
    looked at. *)
Definition package_json (fileContents : file_contents) (d : DetectedFacts) : DetectedFacts :=
  match snippet "package.json" fileContents with
  | None => d
  | Some text =>
      match Json.parse text with
      | None => d
      | Some pj =>
          let d := set_packageManager (Some (js "npm|yarn")) d in
          match pj with
          | JNull => d
          | _ =>
              let scripts := get pj (js "scripts") in
              let d := set_runCommands
                         (runCommands d ++
                          if truthy_opt scripts then get_values scripts else []) d in
              let d := if truthy_opt scripts && truthy_opt (get_opt scripts (js "start"))
                       then set_entrypoint (get_value (get_opt scripts (js "start"))) d
                       else d in
              let d := if truthy_opt scripts && truthy_opt (get_opt scripts (js "test"))
                       then set_hasTests
                              (set_testCommands
                                 (testCommands d ++ [get_json (get_opt scripts (js "test"))]) d)
                       else d in
              let main := get pj (js "main") in
              if truthy_opt main && negb (truthy_entry (entrypoint d)) &&
                 negb (renders (get_json main))
              then d
              else
                let d := if truthy_opt main
                         then set_entrypoint
                                (if truthy_entry (entrypoint d) then entrypoint d
                                 else node_main (get_json main)) d
                         else d in
                if truthy_opt (get pj (js "name"))
                then set_projectType (or_default (projectType d) "node-project") d
                else d
          end
      end
  end.

(** Python: [requirements.txt], [pyproject.toml], [Pipfile], [setup.py]. *)
Definition python (fileContents : file_contents) (d : DetectedFacts) : DetectedFacts :=
  match snippet "requirements.txt" fileContents, snippet "pyproject.toml" fileContents,
        snippet "Pipfile" fileContents, snippet "setup.py" fileContents with
  | None, None, None, None => d
  | _, pyproject, _, _ =>
      let d := set_packageManager (or_default (packageManager d) "pip/poetry/pipenv") d in
      let d := match pyproject with
               | Some text =>
                   if includes (js "[tool.pytest]") text
                   then set_testCommands (testCommands d ++ [JStr (js "pytest")]) (set_hasTests d)
                   else d
               | None => d
               end in
      set_projectType (or_default (projectType d) "python-project") d
  end.

(** [dock], as the [Dockerfile] snippet fills it. *)
Definition docker_info_of (df : jsstring) : docker_info :=
  {| cmd := option_map trim (match_keyword (js "cmd") df);
     dock_entrypoint := option_map trim (match_keyword (js "entrypoint") df);
     exposedPorts := matchAll_expose 0 df |}.

Definition no_docker_info : docker_info :=
  {| cmd := None; dock_entrypoint := None; exposedPorts := [] |}.

(** [Dockerfile] and [docker-compose.yml]. *)
Definition docker (fileContents : file_contents) (d : DetectedFacts) : DetectedFacts :=
  match snippet "Dockerfile" fileContents, snippet "docker-compose.yml" fileContents with
  | None, None => d
  | dockerfile, _ =>
      let dock := match dockerfile with
                  | Some df => docker_info_of df
                  | None => no_docker_info
                  end in
      let d := set_docker dock d in
      let d := if negb (truthy_entry (entrypoint d)) && truthy_header (cmd dock)
               then set_entrypoint (Value (JStr (string_of (cmd dock)))) d
               else d in
      set_projectType (or_default (projectType d) "dockerized-app") d
  end.

(** The workflow files among the snippets. *)
Definition ci (fileContents : file_contents) (d : DetectedFacts) : DetectedFacts :=
  let ciFiles := filter (startsWith CI_PATH_PREFIX) (keys fileContents) in
  match ciFiles with
  | [] => d
  | _ :: _ => set_ci ciFiles d
  end.

(** README and LICENSE, looked for among the paths of the snippets. *)
Definition readme_license (fileContents : file_contents) (d : DetectedFacts) : DetectedFacts :=
  let readmePath := find (ci_test (js "readme")) (keys fileContents) in
  let d := if truthy_header readmePath
           then set_readme
                  (shortSnippet (string_of (assoc (string_of readmePath) fileContents)) 1500) d
           else d in
  let licensePath := find (ci_test (js "license")) (keys fileContents) in
  if truthy_header licensePath then set_license (string_of licensePath) d else d.

(** Test folders anywhere in the tree, when nothing has set [hasTests]. *)
Definition generic_tests (items : list tree_entry) (d : DetectedFacts) : DetectedFacts :=
  if negb (hasTests d) then
    let hasTestFolder := existsb (fun t => test_folder (path t)) items in
    if hasTestFolder then
      set_testCommands
        (testCommands d ++
         [JStr (if truthy_header (packageManager d) &&
                   includes (js "npm") (string_of (packageManager d))
                then js "npm test" else js "pytest")])
        (set_hasTests d)
    else d
  else d.

(** The fallback run command. *)
Definition fallback_run (d : DetectedFacts) : DetectedFacts :=
  match runCommands d with
  | _ :: _ => d
  | [] =>
      set_runCommands
        [JStr (if truthy_header (packageManager d) &&
                  includes (js "npm") (string_of (packageManager d))
               then js "npm install && npm start"
               else if truthy_header (packageManager d) &&
                       includes (js "pip") (string_of (packageManager d))
               then js "pip install -r requirements.txt && python main.py"
               else if hasDocker d
               then js "docker build -t myapp . && docker run -p 3000:3000 myapp"
               else js "Check project files for run instructions")] d
  end.

Definition detect (items : list tree_entry) (fileContents : file_contents) : DetectedFacts :=
  fallback_run
    (generic_tests items
       (readme_license fileContents
          (ci fileContents
             (docker fileContents
                (python fileContents
                   (package_json fileContents initial)))))).

(** ** [analyzeRepo] *)

(** The result, without the extension statistics ([extCounts],
    [primaryLanguages]), which are computed from the tree alone. *)
Record analysis := {
  repo : jsstring;
  ref : jsstring;
  filesFound : list jsstring;
  detected : DetectedFacts;
  snippets : file_contents
}.

Definition analyzeRepo (oct : octokit) (owner repo ref : jsstring) : IO analysis :=
  commitSha <- request (GetBranch owner repo ref) (getBranch oct owner repo ref) ;;
  treeSha <- request (GetCommit owner repo commitSha) (getCommit oct owner repo commitSha) ;;
  items <- request (GetTree owner repo treeSha) (getTree oct owner repo treeSha) ;;
  let filesFound := add_workflows items (find_files items []) in
  fileContents <- fetch_files oct owner repo ref (firstn 40 (toFetch filesFound)) [] ;;
  ret {| repo := owner ++ js "/" ++ repo;
         ref := ref;
         filesFound := filesFound;
         detected := detect items fileContents;
         snippets := fileContents |}.

End Analyze.

(* ================================================================== *)
(** * [server.js]: the configuration read when the process starts *)
(* ================================================================== *)

Module Startup.

(** The two variables of [process.env] the webhook route depends on
    ([undefined] is [None]). *)
Record environment := {
  env_WEBHOOK_SECRET : option jsstring;
  env_DEBUG_WEBHOOK_NO_VERIFY : option jsstring
}.

(** [const WEBHOOK_SECRET = process.env.WEBHOOK_SECRET || ''] and
    [const SKIP_WEBHOOK_VERIFY = process.env.DEBUG_WEBHOOK_NO_VERIFY === 'true']. *)
Definition configuration (e : environment) : Webhook.config :=
  {| Webhook.WEBHOOK_SECRET :=
       if truthy_header (env_WEBHOOK_SECRET e) then string_of (env_WEBHOOK_SECRET e) else [];
     Webhook.SKIP_WEBHOOK_VERIFY :=
       match env_DEBUG_WEBHOOK_NO_VERIFY e with
       | Some v => str_eqb v (js "true")
       | None => false
       end |}.

End Startup.

(* ================================================================== *)
(** * [lib/github.js] *)
(* ================================================================== *)

Module Github.

Import Analyze.

(** [getRepoTree]: the branch, its commit, and the tree of the commit,
    listed recursively. *)
Definition getRepoTree (oct : octokit) (owner repo ref : jsstring) : IO (list tree_entry) :=
  commitSha <- request (GetBranch owner repo ref) (getBranch oct owner repo ref) ;;
  treeSha <- request (GetCommit owner repo commitSha) (getCommit oct owner repo commitSha) ;;
  request (GetTree owner repo treeSha) (getTree oct owner repo treeSha).

End Github.

(* ================================================================== *)
(** * [lib/analyze.js]: the extension counts *)
(* ================================================================== *)

Module Extensions.

Import Analyze.

(** [p.split('.')]. *)
Fixpoint split_dot (cur : jsstring) (p : jsstring) : list jsstring :=
  match p with
  | [] => [rev cur]
  | c :: p' => if N.eqb c 46 then rev cur :: split_dot [] p' else split_dot (c :: cur) p'
  end.

(** [p.includes('.') ? p.split('.').pop().toLowerCase() : '']: what
    follows the last dot of the path, in lower case.  (Lower case is that of
    the ASCII letters: the facts below are about paths in ASCII.) *)
Definition extension (p : jsstring) : jsstring :=
  if includes (js ".") p then toLowerCase (last (split_dot [] p) []) else [].

(** A value of the object [counts]: a number, or the string that [+ 1]
    makes of a value that is not a number. *)
Inductive count :=
| Number (n : N)
| Text (s : jsstring).

(** The own properties of [counts], in the order they were created in. *)
Definition counts := list (jsstring * count).

(** The text of a function of the platform, as [String] gives it. *)
Definition native_function (name : jsstring) : jsstring :=
  js "function " ++ name ++ js "() { [native code] }".

(** What [counts[ext] + 1] starts from when [counts] has no property [ext]
    of its own but inherits one: the text of the member of
    [Object.prototype] of that name. *)
Definition inherited (ext : jsstring) : option jsstring :=
  if str_eqb ext (js "__proto__") then Some (js "[object Object]")
  else if str_eqb ext (js "constructor") then Some (native_function (js "Object"))
  else if arr_includes ext Object_prototype then Some (native_function ext)
  else None.

(** [counts[k] = v]. *)
Fixpoint put (k : jsstring) (v : count) (o : counts) : counts :=
  match o with
  | [] => [(k, v)]
  | (k', v') :: o' => if str_eqb k' k then (k, v) :: o' else (k', v') :: put k v o'
  end.

(** [counts[ext] = (counts[ext] || 0) + 1].  A number is counted up (no
    tree is large enough for the sum to be inexact).  A name that
    [counts] inherits gives a string, which becomes a property of
    [counts], except under [__proto__], whose setter ignores a string. *)
Definition bump (ext : jsstring) (o : counts) : counts :=
  match assoc ext o with
  | Some (Number n) => put ext (Number (n + 1)) o
  | Some (Text s) =>
      put ext (if truthy_str s then Text (s ++ js "1") else Number 1) o
  | None =>
      match inherited ext with
      | Some text =>
          if str_eqb ext (js "__proto__") then o else put ext (Text (text ++ js "1")) o
      | None => put ext (Number 1) o
      end
  end.

(** The loop of [extCountsFromTree]. *)
Fixpoint count_extensions (tree : list tree_entry) (o : counts) : counts :=
  match tree with
  | [] => o
  | item :: tree' =>
      if negb (is_blob item) then count_extensions tree' o
      else
        let ext := extension (path item) in
        if negb (truthy_str ext) then count_extensions tree' o
        else count_extensions tree' (bump ext o)
  end.

Definition extCountsFromTree (tree : list tree_entry) : counts :=
  count_extensions tree [].

(** [Object.entries(extCounts)]: the properties whose names are array
    indices come first, in ascending order, then the others as created. *)
Fixpoint insert_entry (e : N * (jsstring * count)) (l : list (N * (jsstring * count))) :
  list (N * (jsstring * count)) :=
  match l with
  | [] => [e]
  | x :: l' => if N.leb (fst e) (fst x) then e :: x :: l' else x :: insert_entry e l'
  end.

Fixpoint index_entries (o : counts) : list (N * (jsstring * count)) :=
  match o with
  | [] => []
  | (k, v) :: o' =>
      match array_index k with
      | Some n => insert_entry (n, (k, v)) (index_entries o')
      | None => index_entries o'
      end
  end.

Definition is_name (kv : jsstring * count) : bool :=
  match array_index (fst kv) with
  | Some _ => false
  | None => true
  end.

Definition Object_entries (o : counts) : list (jsstring * count) :=
  map snd (index_entries o) ++ filter is_name o.

(** The entries as [detectPrimaryLanguages] can rank them: all of them
    numbers.  With a string among the values the comparison function of the
    sort returns [NaN] and the order of the result is left to the
    platform. *)
Fixpoint numbers (entries : list (jsstring * count)) : option ext_counts :=
  match entries with
  | [] => Some []
  | (k, Number n) :: entries' => option_map (cons (k, n)) (numbers entries')
  | (_, Text _) :: _ => None
  end.

(** [primaryLanguages], where the ranking is determined. *)
Definition primaryLanguages (tree : list tree_entry) : option (list language) :=
  option_map detectPrimaryLanguages (numbers (Object_entries (extCountsFromTree tree))).

End Extensions.

(* ================================================================== *)
(** * [lib/analyze.js]: the environment variables *)
(* ================================================================== *)

Module EnvVars.

Import Analyze.

(** [[A-Za-z0-9_]]. *)
Definition is_word (c : N) : bool :=
  ((N.leb 65 c && N.leb c 90) || (N.leb 97 c && N.leb c 122) || is_digit c || N.eqb c 95)%bool.

(** The class of the two quote characters, the single and the double. *)
Definition is_quote (c : N) : bool := (N.eqb c 39 || N.eqb c 34)%bool.

(** The six regular expressions have one shape: a literal, white space or
    not ([\s*]), then the name, a run of word characters as long as it can
    be, alone or between two quotes, and after the second quote another
    literal.  (Nothing the name is followed by is a word character, and no
    white space is a quote, so that a match takes the longest run of white
    space and the longest name, or there is none.) *)
Record pattern := {
  literal : jsstring;
  spaces : bool;
  quoted : bool;
  closing : jsstring
}.

(** [re1]: [process.env.NAME]. *)
Definition re1 : pattern :=
  {| literal := js "process.env."; spaces := false; quoted := false; closing := [] |}.
(** [re2]: [process.env[qNAMEq]], [q] a quote. *)
Definition re2 : pattern :=
  {| literal := js "process.env["; spaces := false; quoted := true; closing := js "]" |}.
(** [re3]: [os.getenv(], white space or none, [qNAMEq]. *)
Definition re3 : pattern :=
  {| literal := js "os.getenv("; spaces := true; quoted := true; closing := [] |}.
(** [re4]: [os.environ.get(], white space or none, [qNAMEq]. *)
Definition re4 : pattern :=
  {| literal := js "os.environ.get("; spaces := true; quoted := true; closing := [] |}.
(** [re5]: [ENV[qNAMEq]]. *)
Definition re5 : pattern :=
  {| literal := js "ENV["; spaces := false; quoted := true; closing := js "]" |}.
(** [re6]: [$NAME]. *)
Definition re6 : pattern :=
  {| literal := js "$"; spaces := false; quoted := false; closing := [] |}.

(** A match of the pattern at the start of [s]: its group and its
    length. *)
Definition match_at (pat : pattern) (s : jsstring) : option (jsstring * nat) :=
  if startsWith (literal pat) s then
    let r0 := skipn (List.length (literal pat)) s in
    let sp := if spaces pat then take_while is_space r0 else [] in
    let r1 := skipn (List.length sp) r0 in
    if quoted pat then
      match r1 with
      | q :: r2 =>
          if is_quote q then
            let name := take_while is_word r2 in
            match name, skipn (List.length name) r2 with
            | _ :: _, q' :: r3 =>
                if is_quote q' && startsWith (closing pat) r3
                then Some (name,
                           List.length (literal pat) + List.length sp + 1 +
                           List.length name + 1 + List.length (closing pat))
                else None
            | _, _ => None
            end
          else None
      | [] => None
      end
    else
      match take_while is_word r1 with
      | [] => None
      | name => Some (name, List.length (literal pat) + List.length sp + List.length name)
      end
  else None.

(** [while ((m = re.exec(text))) names.add(m[1])], by the groups of the
    matches: each search starts where the match before ended ([skip]
    characters further). *)
Fixpoint exec_all (pat : pattern) (skip : nat) (s : jsstring) : list jsstring :=
  match s with
  | [] => []
  | _ :: s' =>
      match skip with
      | S k => exec_all pat k s'
      | O =>
          match match_at pat s with
          | Some (name, len) => name :: exec_all pat (len - 1) s'
          | None => exec_all pat 0 s'
          end
      end
  end.

(** [names.add(x)] on a [Set], which keeps the order of insertion. *)
Definition add (names : list jsstring) (x : jsstring) : list jsstring :=
  if arr_includes x names then names else names ++ [x].

(** [Array.from(new Set(a))]. *)
Definition distinct (a : list jsstring) : list jsstring := fold_left add a [].

Definition extractEnvVarsFromText (text : jsstring) : list jsstring :=
  if negb (truthy_str text) then []
  else distinct (flat_map (fun pat => exec_all pat 0 text) [re1; re2; re3; re4; re5; re6]).

(** [a.join(sep)]. *)
Fixpoint join (sep : jsstring) (a : list jsstring) : jsstring :=
  match a with
  | [] => []
  | [x] => x
  | x :: a' => x ++ sep ++ join sep a'
  end.

(** [analysis.detected.envVars]: the names found in the snippets, joined
    by two line feeds. *)
Definition envVars (fileContents : file_contents) : list jsstring :=
  let allText := join [10%N; 10%N] (values fileContents) in
  let envs := extractEnvVarsFromText allText in
  distinct ([] ++ envs).

(** The two assumptions an analysis can state, named after their text:
    'Entry point not obvious ...' and 'No ENV vars detected by static
    scan ...'. *)
Inductive assumption :=
| Entry_point_not_obvious
| No_ENV_vars_detected.

(** [analysis.detected.assumptions]. *)
Definition assumptions (d : DetectedFacts) (envs : list jsstring) : list assumption :=
  (if negb (truthy_entry (entrypoint d)) then [Entry_point_not_obvious] else []) ++
  (match envs with [] => [No_ENV_vars_detected] | _ :: _ => [] end).

End EnvVars.

(* ================================================================== *)
(** * The private key of the App ([lib/github.js]) *)
(* ================================================================== *)

Module Credentials.

(** The variables of [process.env] that [loadPrivateKey] reads; [None] is a
    variable that is not set. *)
Record key_settings := {
  env_PRIVATE_KEY_PATH : option jsstring;
  env_PRIVATE_KEY : option jsstring
}.

(** How a call ends: with a value, with an [Error] of the code's own, or
    with the error of [fs.readFileSync]. *)
Inductive key_outcome :=
| Returns (key : jsstring)
| Throws (message : jsstring)
| ReadFails.

(** [s.replace(/\\n/g, '\n')]: from left to right, every backslash that an
    [n] follows is replaced, with that [n], by one line feed; the search
    goes on after the match. *)
Fixpoint unescape (s : jsstring) : jsstring :=
  match s with
  | [] => []
  | x :: r =>
      match r with
      | y :: r' => if N.eqb x 92 && N.eqb y 110 then 10%N :: unescape r' else x :: unescape r
      | [] => [x]
      end
  end.

(** [loadPrivateKey()], over [readFile], the text that
    [fs.readFileSync(path.resolve(p), 'utf-8')] returns ([None] when it
    throws). *)
Definition loadPrivateKey (readFile : jsstring -> option jsstring) (e : key_settings) : key_outcome :=
  if truthy_header (env_PRIVATE_KEY_PATH e) then
    match readFile (string_of (env_PRIVATE_KEY_PATH e)) with
    | Some text => Returns text
    | None => ReadFails
    end
  else if truthy_header (env_PRIVATE_KEY e) then
    Returns (unescape (string_of (env_PRIVATE_KEY e)))
  else Throws (js "Missing PRIVATE_KEY or PRIVATE_KEY_PATH in env").

End Credentials.

(* ================================================================== *)
(** * Facts about buffers and digests *)
(* ================================================================== *)

Module BufferFacts.

Import Buffer Crypto.

Definition ascii_string (s : jsstring) : Prop := Forall (fun c => (c < 128)%N) s.

Lemma to_N_byte_of_N (n : N) : (n < 256)%N -> Byte.to_N (byte_of_N n) = n.
Proof.
  intros H. unfold byte_of_N. rewrite N.mod_small by exact H.
  destruct (Byte.of_N n) as [b|] eqn:E.
  - apply Byte.to_of_N. exact E.
  - apply Byte.of_N_None_iff in E. lia.
Qed.

Lemma to_N_byte_of_N_mod (n : N) : Byte.to_N (byte_of_N n) = (n mod 256)%N.
Proof.
  unfold byte_of_N.
  assert (H : (n mod 256 < 256)%N) by (apply N.mod_upper_bound; lia).
  destruct (Byte.of_N (n mod 256)) as [b|] eqn:E.
  - apply Byte.to_of_N. exact E.
  - apply Byte.of_N_None_iff in E. lia.
Qed.

(** The top bit of a byte written [N.lor m _] with [m] at least 128. *)
Lemma high_bit_lor (m x : N) :
  N.testbit m 7 = true -> N.testbit (Byte.to_N (byte_of_N (N.lor m x))) 7 = true.
Proof.
  intros H. rewrite to_N_byte_of_N_mod.
  change 256%N with (2 ^ 8)%N. rewrite N.mod_pow2_bits_low by lia.
  rewrite N.lor_spec, H. reflexivity.
Qed.

Lemma low_bit_ascii (c : N) : (c < 128)%N -> N.testbit c 7 = false.
Proof.
  intros H. destruct (N.eq_dec c 0) as [->|Hc]; [reflexivity|].
  apply N.bits_above_log2. apply N.log2_lt_pow2; [lia|]. exact H.
Qed.

(** The first byte of a code point that is not ASCII has its top bit set. *)
Lemma utf8_head_high (cp : N) :
  (128 <= cp)%N ->
  exists b bs, utf8_of_code_point cp = b :: bs /\ N.testbit (Byte.to_N b) 7 = true.
Proof.
  intros H. unfold utf8_of_code_point.
  destruct (N.ltb_spec cp 128) as [Hlt|_]; [lia|].
  destruct (cp <? 2048)%N; [|destruct (cp <? 65536)%N];
    eexists; eexists; (split; [reflexivity|]); apply high_bit_lor; reflexivity.
Qed.

Lemma utf8_ascii (c : N) : (c < 128)%N -> utf8_of_code_point c = [byte_of_N c].
Proof.
  intros H. unfold utf8_of_code_point.
  destruct (N.ltb_spec c 128); [reflexivity|lia].
Qed.

Lemma ascii_not_surrogate (c : N) :
  (c < 128)%N -> is_high_surrogate c = false /\ is_low_surrogate c = false.
Proof.
  intros H. unfold is_high_surrogate, is_low_surrogate.
  split; apply andb_false_iff; left; apply N.leb_gt; lia.
Qed.

Lemma from_cons_ascii (c : N) (s : jsstring) :
  (c < 128)%N -> from (c :: s) = byte_of_N c :: from s.
Proof.
  intros H. cbn [from]. destruct (ascii_not_surrogate H) as [-> ->].
  now rewrite utf8_ascii by exact H.
Qed.

(** [Buffer.from] writes an ASCII string byte for character. *)
Lemma from_ascii (s : jsstring) : ascii_string s -> from s = map byte_of_N s.
Proof.
  induction 1 as [|c s Hc _ IH]; [reflexivity|].
  rewrite from_cons_ascii by exact Hc. cbn [map]. now rewrite IH.
Qed.

Lemma from_ascii_length (s : jsstring) :
  ascii_string s -> List.length (from s) = List.length s.
Proof. intros H. rewrite from_ascii by exact H. apply length_map. Qed.

(** The first byte [Buffer.from] writes for a string that starts with a
    character outside ASCII has its top bit set. *)
Lemma from_head_high (c : N) (s : jsstring) :
  (128 <= c)%N ->
  exists b bs, from (c :: s) = b :: bs /\ N.testbit (Byte.to_N b) 7 = true.
Proof.
  intros H.
  assert (R : forall cp rest, (128 <= cp)%N ->
            exists b bs, utf8_of_code_point cp ++ rest = b :: bs /\
                         N.testbit (Byte.to_N b) 7 = true).
  { intros cp rest Hcp. destruct (utf8_head_high Hcp) as (b & bs & -> & Hb).
    exists b, (bs ++ rest). split; [reflexivity|exact Hb]. }
  cbn [from].
  destruct (is_high_surrogate c) eqn:Hh.
  - destruct s as [|d s'].
    + rewrite <- (app_nil_r (utf8_of_code_point 65533)). apply R. lia.
    + destruct (is_low_surrogate d); apply R; lia.
  - destruct (is_low_surrogate c); apply R; lia.
Qed.

(** A string whose bytes are those of an ASCII string is that string. *)
Lemma from_ascii_inj (c : jsstring) :
  ascii_string c -> forall h, from h = from c -> h = c.
Proof.
  induction 1 as [|x c Hx Hc IH]; intros h E.
  - destruct h as [|y h]; [reflexivity|]. exfalso.
    destruct (N.lt_ge_cases y 128) as [Hy|Hy].
    + rewrite from_cons_ascii in E by exact Hy. discriminate.
    + destruct (from_head_high h Hy) as (b & bs & E' & _). rewrite E' in E. discriminate.
  - rewrite (from_cons_ascii c Hx) in E. destruct h as [|y h]; [discriminate|].
    destruct (N.lt_ge_cases y 128) as [Hy|Hy].
    + rewrite from_cons_ascii in E by exact Hy.
      injection E as Eb Er.
      assert (y = x).
      { rewrite <- (to_N_byte_of_N (n := y)), <- (to_N_byte_of_N (n := x)) by lia.
        now rewrite Eb. }
      subst y. f_equal. apply IH. exact Er.
    + exfalso. destruct (from_head_high h Hy) as (b & bs & E' & Hb).
      rewrite E' in E. injection E as Eb _. subst b.
      rewrite to_N_byte_of_N in Hb by lia.
      rewrite low_bit_ascii in Hb by exact Hx. discriminate.
Qed.

Lemma hex_length (bs : buffer) : List.length (hex bs) = 2 * List.length bs.
Proof. induction bs as [|b bs IH]; cbn [hex List.length]; [reflexivity|]. rewrite IH. lia. Qed.

Lemma hex_digit_ascii (n : N) : (n < 16)%N -> (hex_digit n < 128)%N.
Proof. intros H. unfold hex_digit. destruct (n <? 10)%N; lia. Qed.

Lemma hex_ascii (bs : buffer) : ascii_string (hex bs).
Proof.
  induction bs as [|b bs IH]; cbn [hex]; [constructor|].
  pose proof (Byte.to_N_bounded b) as Hb.
  constructor; [|constructor; [|exact IH]]; apply hex_digit_ascii.
  - rewrite N.shiftr_div_pow2. apply N.Div0.div_lt_upper_bound.
    change (2 ^ 4)%N with 16%N. lia.
  - change 15%N with (N.ones 4). rewrite N.land_ones.
    change 16%N with (2 ^ 4)%N. apply N.mod_upper_bound. discriminate.
Qed.

Lemma hash_length (alg : algorithm) (msg : buffer) :
  List.length (hash alg msg) = match alg with sha256 => 32 | sha1 => 20 end.
Proof.
  destruct alg; simpl.
  - unfold SHA256.digest. repeat rewrite length_app. reflexivity.
  - unfold SHA1.digest. repeat rewrite length_app. reflexivity.
Qed.

Lemma createHmac_hex_length (alg : algorithm) (secret : jsstring) (raw : buffer) :
  List.length (createHmac_hex alg secret raw) = match alg with sha256 => 64 | sha1 => 40 end.
Proof.
  unfold createHmac_hex, hmac. rewrite hex_length, hash_length. now destruct alg.
Qed.

End BufferFacts.

(* ================================================================== *)
(** * The webhook route *)
(* ================================================================== *)

Module WebhookFacts.

Import Buffer Crypto Webhook BufferFacts.

(** The four answers of the route. *)
Definition ok : response := {| status := 200; text := js "ok" |}.
Definition invalid_signature : response := {| status := 401; text := js "Invalid signature" |}.
Definition missing_signature : response :=
  {| status := 401; text := js "Missing signature header" |}.
Definition not_configured : response :=
  {| status := 500; text := js "Webhook secret not configured on server" |}.

(** The calls of [crypto.timingSafeEqual] among the effects, in order. *)
Fixpoint comparisons (tr : list effect) : list (buffer * buffer) :=
  match tr with
  | [] => []
  | TimingSafeEqual a b :: tr' => (a, b) :: comparisons tr'
  | _ :: tr' => comparisons tr'
  end.

(** The signature header the handler verifies: the sha256 one when it is
    there and not empty, and otherwise the sha1 one when that is there and
    not empty. *)
Inductive inspects (req : request) : algorithm -> jsstring -> Prop :=
| inspects_sha256 (h : jsstring) :
    x_hub_signature_256 req = Some h -> h <> [] -> inspects req sha256 h
| inspects_sha1 (h : jsstring) :
    truthy_header (x_hub_signature_256 req) = false ->
    x_hub_signature req = Some h -> h <> [] -> inspects req sha1 h.

(** The request with another sha1 header (or none). *)
Definition with_x_hub_signature (v : option jsstring) (req : request) : request :=
  {| x_hub_signature_256 := x_hub_signature_256 req;
     x_hub_signature := v;
     x_github_event := x_github_event req;
     x_github_delivery := x_github_delivery req;
     body := body req |}.

Lemma comparisons_app (a b : list effect) :
  comparisons (a ++ b) = comparisons a ++ comparisons b.
Proof.
  induction a as [|e a IH]; [reflexivity|].
  destruct e; cbn [comparisons app]; rewrite IH; reflexivity.
Qed.

Lemma prefix_ascii (alg : algorithm) : ascii_string (prefix alg).
Proof. destruct alg; repeat constructor. Qed.

Lemma computed_signature_ascii alg secret raw :
  ascii_string (computed_signature alg secret raw).
Proof. apply Forall_app. split; [apply prefix_ascii|apply hex_ascii]. Qed.

Lemma computed_signature_length alg secret raw :
  List.length (computed_signature alg secret raw) =
  match alg with sha256 => 71 | sha1 => 45 end.
Proof.
  unfold computed_signature. rewrite length_app, createHmac_hex_length.
  now destruct alg.
Qed.

Lemma buffer_eqb_eq (a b : buffer) : buffer_eqb a b = true <-> a = b.
Proof.
  revert b. induction a as [|x a IH]; intros [|y b]; cbn [buffer_eqb];
    try (split; [discriminate|discriminate]); [tauto|].
  rewrite andb_true_iff, IH. split.
  - intros [E ->]. apply Byte.byte_dec_bl in E. now subst.
  - intros E. injection E as -> ->. split; [apply Byte.byte_dec_lb|]; reflexivity.
Qed.

#[local] Opaque computed_signature Buffer.from Json.parse Buffer.toString.

(** What the signature test does, case by case. *)
Lemma check_signature_run alg secret header b tr :
  check_signature alg secret header b tr =
  match b with
  | None => (Thrown, tr)
  | Some raw =>
      let computed := computed_signature alg secret raw in
      let headerBuf := Buffer.from header in
      let computedBuf := Buffer.from computed in
      if negb (Nat.eqb (List.length headerBuf) (List.length computedBuf)) then
        (Sent invalid_signature, tr ++ [Warn_invalid_signature alg header computed])
      else if buffer_eqb headerBuf computedBuf then
        (Next tt, tr ++ [TimingSafeEqual headerBuf computedBuf])
      else
        (Sent invalid_signature,
         tr ++ [TimingSafeEqual headerBuf computedBuf;
                Warn_invalid_signature alg header computed])
  end.
Proof.
  destruct b as [raw|]; [|reflexivity].
  unfold check_signature, compute_signature, bind, ret, emit, send, timingSafeEqual. cbv zeta.
  destruct (Nat.eqb _ _); cbn [negb]; [|reflexivity].
  destruct (buffer_eqb _ _); cbn [negb]; [reflexivity|].
  now rewrite <- app_assoc.
Qed.

(** With verification on and a secret configured, the handler tests the
    header it inspects. *)
Lemma verify_inspects cfg req alg header tr :
  SKIP_WEBHOOK_VERIFY cfg = false -> WEBHOOK_SECRET cfg <> [] ->
  inspects req alg header ->
  verify cfg req tr = check_signature alg (WEBHOOK_SECRET cfg) header (body req) tr.
Proof.
  intros Hskip Hsecret Hi. unfold verify. rewrite Hskip.
  destruct (WEBHOOK_SECRET cfg) as [|c secret] eqn:Es; [congruence|].
  cbn [truthy_str negb when bind ret].
  destruct Hi as [h E Hh|h E256 E1 Hh].
  - rewrite E. destruct h; [congruence|]. reflexivity.
  - rewrite E256, E1. destruct h; [congruence|]. reflexivity.
Qed.

Definition server_error : response := {| status := 500; text := js "server error" |}.

(** After the verification block the handler compares nothing more.  It
    answers [200 ok], unless a value of the payload that a log line
    interpolates makes [ToString] throw; a body that does not parse leaves
    nothing of the kind. *)
Lemma dispatch_run req tr :
  exists l,
    comparisons l = [] /\
    ((ev <- read_event req ;; log_event ev ;; send (A := Empty_set) 200 (js "ok")) tr
     = (Sent ok, tr ++ l) \/
     (ev <- read_event req ;; log_event ev ;; send (A := Empty_set) 200 (js "ok")) tr
     = (Thrown, tr ++ l)) /\
    (parse_body (body req) = None ->
     (ev <- read_event req ;; log_event ev ;; send (A := Empty_set) 200 (js "ok")) tr
     = (Sent ok, tr ++ l) /\
     exists l', l = Warn_parse_failed :: l').
Proof.
  cbv [read_event parse_payload].
  destruct (parse_body (body req)) as [v|].
  - cbv [log_event bind ret emit send when throw interpolate kind deliveryId payload].
    repeat match goal with
           | |- context [if ?b then _ else _] => destruct b
           | |- context [match ?x with Some _ => _ | None => _ end] => destruct x
           end;
      repeat rewrite <- app_assoc; cbn [app];
      (eexists; split; [|split]; cycle 1;
       [first [left; reflexivity | right; reflexivity] | discriminate | reflexivity]).
  - cbv [log_event bind ret emit send when throw interpolate kind deliveryId payload
         empty_object is_object get get_opt lookup or_else truthy_opt].
    repeat match goal with
           | |- context [if ?b then _ else _] => destruct b
           end;
      repeat rewrite <- app_assoc; cbn [app];
      (eexists; split; [|split]; cycle 1;
       [left; reflexivity
       | intros _; split; [reflexivity|eexists; reflexivity]
       | reflexivity]).
Qed.

Lemma webhook_after_verify cfg req :
  match verify cfg req [] with
  | (Next _, tr) =>
      exists l,
        comparisons l = [] /\
        (webhook cfg req = (ok, tr ++ l) \/
         webhook cfg req = (server_error, (tr ++ l) ++ [Error_handler])) /\
        (parse_body (body req) = None ->
         webhook cfg req = (ok, tr ++ l) /\ exists l', l = Warn_parse_failed :: l')
  | (Sent r, tr) => webhook cfg req = (r, tr)
  | (Thrown, tr) => webhook cfg req = (server_error, tr ++ [Error_handler])
  end.
Proof.
  assert (H : handler cfg req [] =
              match verify cfg req [] with
              | (Next _, tr) =>
                  (ev <- read_event req ;; log_event ev ;; send 200 (js "ok")) tr
              | (Sent r, tr) => (Sent r, tr)
              | (Thrown, tr) => (Thrown, tr)
              end) by reflexivity.
  unfold webhook. rewrite H. clear H.
  destruct (verify cfg req []) as [[[]|r|] tr].
  - destruct (dispatch_run req tr) as (l & Hl & E & Hp).
    exists l. split; [exact Hl|]. split.
    + destruct E as [-> | ->]; [left|right]; reflexivity.
    + intros Hnone. destruct (Hp Hnone) as [-> Hl']. split; [reflexivity|exact Hl'].
  - reflexivity.
  - reflexivity.
Qed.

(** Verification passes: the handler gets past the verification block. *)
Definition verified (cfg : config) (req : request) : Prop :=
  exists tr, verify cfg req [] = (Next tt, tr).

(** ** Requests used as examples *)

Definition example_config : config :=
  {| WEBHOOK_SECRET := js "s3cret"; SKIP_WEBHOOK_VERIFY := false |}.

Definition debug_config : config :=
  {| WEBHOOK_SECRET := js "s3cret"; SKIP_WEBHOOK_VERIFY := true |}.

Definition example_body : buffer := Buffer.from (jq "{'zen':'ok'}").

(** The two signatures of [example_body] under the secret [s3cret]. *)
Definition example_sha256 : jsstring :=
  js "sha256=e783d601aedcf89273a3ee81436eb2a40ed376765bd34c7a7e40d0cecba9a6c3".
Definition example_sha1 : jsstring :=
  js "sha1=16899a759df45a6a22a322b76b7f63db0c337400".

Definition signed_request (sig256 sig1 : option jsstring) : request :=
  {| x_hub_signature_256 := sig256; x_hub_signature := sig1;
     x_github_event := Some (js "ping"); x_github_delivery := Some (js "d-1");
     body := Some example_body |}.

(** A request that [express.raw] has not read, for want of a body or of the
    [Content-Type] it reads: [req.body] is no [Buffer]. *)
Definition unread_request (sig256 sig1 : option jsstring) : request :=
  {| x_hub_signature_256 := sig256; x_hub_signature := sig1;
     x_github_event := Some (js "ping"); x_github_delivery := Some (js "d-1");
     body := None |}.

(** A request whose body is not JSON. *)
Definition unparsable_request : request :=
  {| x_hub_signature_256 := None; x_hub_signature := None;
     x_github_event := Some (js "push"); x_github_delivery := None;
     body := Some (Buffer.from (js "not json")) |}.

(** A header of 70 characters that takes 71 bytes: the first one is
    [U+00E9]. *)
Definition header_of_71_bytes : jsstring :=
  233%N :: js "ha256=e783d601aedcf89273a3ee81436eb2a40ed376765bd34c7a7e40d0cecba9a6c".

Example example_signatures :
  computed_signature sha256 (js "s3cret") example_body = example_sha256 /\
  computed_signature sha1 (js "s3cret") example_body = example_sha1.
Proof. split; vm_compute; reflexivity. Qed.

Example signed_request_accepted :
  fst (webhook example_config (signed_request (Some example_sha256) None)) = ok /\
  fst (webhook example_config (signed_request None (Some example_sha1))) = ok /\
  fst (webhook example_config (signed_request None None)) = missing_signature /\
  fst (webhook example_config (signed_request (Some example_sha1) None)) = invalid_signature.
Proof. repeat split; vm_compute; reflexivity. Qed.

(** A push whose [ref] is an object with a property [toString] of its own:
    the log line that interpolates it throws, and the request, although
    its signature is right, is answered [500 server error]. *)
Definition unprintable_push : request :=
  {| x_hub_signature_256 := None; x_hub_signature := None;
     x_github_event := Some (js "push"); x_github_delivery := None;
     body := Some (Buffer.from (jq "{'ref':{'toString':1}}")) |}.

Example unprintable_push_is_an_error :
  webhook debug_config unprintable_push
  = (server_error,
     [Warn_skipping_verification; Log_received (js "push") []; Error_handler]).
Proof. vm_compute. reflexivity. Qed.

(** A request that was not read gets through when verification is
    switched off, with the empty payload; when a signature is to be
    verified, [update] throws and the answer is [500 server error]. *)
Example unread_request_answers :
  webhook debug_config (unread_request None None)
  = (ok, [Warn_skipping_verification; Warn_parse_failed;
          Log_received (js "ping") (js "d-1"); Log_ping]) /\
  webhook example_config (unread_request (Some example_sha256) None)
  = (server_error, [Error_handler]) /\
  webhook example_config (unread_request None None)
  = (missing_signature, [Warn_no_signature_header]).
Proof. repeat split; vm_compute; reflexivity. Qed.

(** ** C1 *)

(** C1. With verification on and an empty secret, every request is answered
    [500 Webhook secret not configured on server], whatever its body and
    its headers; no signature is compared and the request is never
    accepted. *)
Theorem missing_secret_is_rejected (cfg : config) (req : request) :
  SKIP_WEBHOOK_VERIFY cfg = false ->
  WEBHOOK_SECRET cfg = [] ->
  webhook cfg req = (not_configured, [Warn_secret_not_set; Warn_rejecting_secret_missing]) /\
  fst (webhook cfg req) <> ok /\
  comparisons (snd (webhook cfg req)) = [].
Proof.
  intros Hskip Hsecret.
  assert (E : webhook cfg req =
              (not_configured, [Warn_secret_not_set; Warn_rejecting_secret_missing])).
  { unfold webhook, handler, verify. rewrite Hskip, Hsecret. reflexivity. }
  rewrite E. repeat split. discriminate.
Qed.

Lemma missing_secret_is_rejected_witness :
  webhook {| WEBHOOK_SECRET := []; SKIP_WEBHOOK_VERIFY := false |}
          (signed_request (Some example_sha256) (Some example_sha1))
  = (not_configured, [Warn_secret_not_set; Warn_rejecting_secret_missing]).
Proof.
  exact (proj1 (@missing_secret_is_rejected
                  {| WEBHOOK_SECRET := []; SKIP_WEBHOOK_VERIFY := false |}
                  (signed_request (Some example_sha256) (Some example_sha1))
                  eq_refl eq_refl)).
Defined.

(** ** C2 *)

(** C2, as the claim states it, fails three times.  A sha256 header that is
    there but empty has a length other than that of the computed signature,
    and the request is accepted all the same on its sha1 header.  A header
    of 70 characters, one of them outside ASCII, is compared byte for byte
    with the 71 bytes of the computed signature, the lengths the code
    compares being those of the buffers.  And a request that was not read
    is answered [500 server error], not [401 Invalid signature], whatever
    the length of its header, no signature being computed for it. *)
Lemma length_check_counterexample :
  (List.length (@nil N) <>
     List.length (computed_signature sha256 (WEBHOOK_SECRET example_config) example_body) /\
   fst (webhook example_config (signed_request (Some []) (Some example_sha1))) = ok) /\
  (List.length header_of_71_bytes <>
     List.length (computed_signature sha256 (WEBHOOK_SECRET example_config) example_body) /\
   comparisons (snd (webhook example_config (signed_request (Some header_of_71_bytes) None)))
   = [(Buffer.from header_of_71_bytes, Buffer.from example_sha256)]) /\
  ((forall raw,
      List.length (js "sha256=e783") <>
      List.length (computed_signature sha256 (WEBHOOK_SECRET example_config) raw)) /\
   fst (webhook example_config (unread_request (Some (js "sha256=e783")) None)) = server_error /\
   server_error <> invalid_signature).
Proof.
  split; [|split].
  - split; [vm_compute; discriminate|vm_compute; reflexivity].
  - split; [vm_compute; discriminate|vm_compute; reflexivity].
  - split; [|split; [vm_compute; reflexivity|discriminate]].
    intros raw. rewrite computed_signature_length. cbn. discriminate.
Qed.

(** C2, amended.  With verification on and a secret configured, take a
    request whose raw body is there, in a [Buffer], and let the header the
    handler inspects be the sha256 header when it is not empty and else the
    sha1 header when that is not empty.  If its length in bytes differs from
    that of the computed signature, the answer is [401 Invalid signature]
    and [crypto.timingSafeEqual] is not called.  If the lengths in bytes are
    equal, the only comparison of contents is one call of
    [crypto.timingSafeEqual] on the two buffers, and its result alone
    decides between [401 Invalid signature] and a verification that passes,
    after which the answer is [200 ok], or [500 server error] when a log
    line throws. *)
Theorem length_check_before_comparison (cfg : config) (req : request)
    (alg : algorithm) (header : jsstring) (raw : buffer) :
  SKIP_WEBHOOK_VERIFY cfg = false ->
  WEBHOOK_SECRET cfg <> [] ->
  body req = Some raw ->
  inspects req alg header ->
  (List.length (Buffer.from header) <>
     List.length (Buffer.from (computed_signature alg (WEBHOOK_SECRET cfg) raw)) ->
   fst (webhook cfg req) = invalid_signature /\
   comparisons (snd (webhook cfg req)) = []) /\
  (List.length (Buffer.from header) =
     List.length (Buffer.from (computed_signature alg (WEBHOOK_SECRET cfg) raw)) ->
   comparisons (snd (webhook cfg req)) =
     [(Buffer.from header,
       Buffer.from (computed_signature alg (WEBHOOK_SECRET cfg) raw))] /\
   (buffer_eqb (Buffer.from header)
      (Buffer.from (computed_signature alg (WEBHOOK_SECRET cfg) raw)) = false ->
    fst (webhook cfg req) = invalid_signature) /\
   (buffer_eqb (Buffer.from header)
      (Buffer.from (computed_signature alg (WEBHOOK_SECRET cfg) raw)) = true ->
    verified cfg req /\
    (fst (webhook cfg req) = ok \/ fst (webhook cfg req) = server_error))).
Proof.
  intros Hskip Hsecret Hbody Hi.
  pose proof (webhook_after_verify cfg req) as H. unfold verified.
  rewrite (@verify_inspects cfg req alg header [] Hskip Hsecret Hi), check_signature_run,
    Hbody in *.
  cbv zeta in *. cbn [app] in *.
  split; intros Hlen.
  - apply Nat.eqb_neq in Hlen. rewrite Hlen in H. cbn [negb] in H.
    rewrite H. split; reflexivity.
  - apply Nat.eqb_eq in Hlen. rewrite Hlen in *. cbn [negb] in *.
    destruct (buffer_eqb _ _).
    + destruct H as (l & Hl & E & _). split; [|split; [discriminate|]].
      * destruct E as [-> | ->]; cbn [snd]; rewrite ?comparisons_app, Hl; reflexivity.
      * intros _. split; [eexists; reflexivity|].
        destruct E as [-> | ->]; [left|right]; reflexivity.
    + rewrite H. split; [reflexivity|]. split; [reflexivity|discriminate].
Qed.

Lemma length_check_before_comparison_witness :
  fst (webhook example_config (signed_request (Some (js "sha256=e783")) (Some example_sha1)))
  = invalid_signature /\
  comparisons
    (snd (webhook example_config (signed_request (Some (js "sha256=e783")) (Some example_sha1))))
  = [].
Proof.
  refine (proj1 (@length_check_before_comparison
                   example_config
                   (signed_request (Some (js "sha256=e783")) (Some example_sha1))
                   sha256 (js "sha256=e783") example_body
                   eq_refl _ eq_refl _) _).
  - discriminate.
  - apply inspects_sha256; [reflexivity|discriminate].
  - vm_compute. discriminate.
Defined.

(** ** C3 *)

Lemma ok_not_invalid : ok <> invalid_signature.
Proof. discriminate. Qed.

(** Whether verification passes on a request whose inspected header is
    [header], and what is answered. *)
Lemma inspected_header_decides cfg req alg header raw :
  SKIP_WEBHOOK_VERIFY cfg = false ->
  WEBHOOK_SECRET cfg <> [] ->
  body req = Some raw ->
  inspects req alg header ->
  (verified cfg req <->
   header = computed_signature alg (WEBHOOK_SECRET cfg) raw) /\
  (header <> computed_signature alg (WEBHOOK_SECRET cfg) raw ->
   fst (webhook cfg req) = invalid_signature) /\
  (header = computed_signature alg (WEBHOOK_SECRET cfg) raw ->
   fst (webhook cfg req) = ok \/ fst (webhook cfg req) = server_error).
Proof.
  intros Hskip Hsecret Hbody Hi.
  set (computed := computed_signature alg (WEBHOOK_SECRET cfg) raw).
  assert (Heq : buffer_eqb (Buffer.from header) (Buffer.from computed) = true <->
                header = computed).
  { rewrite buffer_eqb_eq. split; [|now intros ->].
    apply from_ascii_inj, computed_signature_ascii. }
  pose proof (webhook_after_verify cfg req) as H. unfold verified.
  rewrite (@verify_inspects cfg req alg header [] Hskip Hsecret Hi), check_signature_run,
    Hbody in *.
  cbv zeta in *. cbn [app] in *. fold computed in H |- *.
  destruct (Nat.eqb _ _) eqn:Hlen; cbn [negb] in *.
  - destruct (buffer_eqb _ _) eqn:Hb.
    + assert (header = computed) by (apply Heq; reflexivity).
      destruct H as (l & _ & E & _).
      split; [split; [tauto|intros _; eexists; reflexivity]|]. split; [tauto|].
      intros _. destruct E as [-> | ->]; [left|right]; reflexivity.
    + assert (header <> computed) by (intros E; apply Heq in E; discriminate).
      rewrite H. cbn [fst].
      split; [split; [intros (tr & E); discriminate|tauto]|]. split; [reflexivity|tauto].
  - assert (header <> computed).
    { intros E. apply Nat.eqb_neq in Hlen. apply Hlen. now rewrite E. }
    rewrite H. cbn [fst].
    split; [split; [intros (tr & E); discriminate|tauto]|]. split; [reflexivity|tauto].
Qed.

(** C3, as the claim states it, fails on a sha256 header that is there but
    empty: the sha1 header is then the one verified, and a request whose
    sha256 header is not the computed signature is accepted. *)
Lemma sha256_preferred_counterexample :
  x_hub_signature_256 (signed_request (Some []) (Some example_sha1)) = Some [] /\
  x_hub_signature (signed_request (Some []) (Some example_sha1)) = Some example_sha1 /\
  [] <> computed_signature sha256 (WEBHOOK_SECRET example_config) example_body /\
  fst (webhook example_config (signed_request (Some []) (Some example_sha1))) = ok.
Proof.
  repeat split; try (vm_compute; reflexivity). vm_compute. discriminate.
Qed.

(** C3, amended.  With verification on and a secret configured, a request
    whose raw body is there, in a [Buffer], and whose sha256 header is there
    and not empty passes verification exactly when that header is
    ["sha256=" + hex(HMAC-SHA256(secret, rawBody))], the answer being then
    [200 ok], or [500 server error] when a log line throws, and is answered
    [401 Invalid signature] otherwise; the sha1 header has no part in it:
    with any other sha1 header, or none, the handler answers and acts the
    same.  The sha1 header decides, against
    ["sha1=" + hex(HMAC-SHA1(secret, rawBody))], when it is not empty and
    the sha256 header is absent or empty. *)
Theorem sha256_header_decides (cfg : config) (req : request) (h256 : jsstring)
    (raw : buffer) :
  SKIP_WEBHOOK_VERIFY cfg = false ->
  WEBHOOK_SECRET cfg <> [] ->
  body req = Some raw ->
  x_hub_signature_256 req = Some h256 ->
  h256 <> [] ->
  (verified cfg req <->
   h256 = prefix sha256 ++ createHmac_hex sha256 (WEBHOOK_SECRET cfg) raw) /\
  (h256 <> prefix sha256 ++ createHmac_hex sha256 (WEBHOOK_SECRET cfg) raw ->
   fst (webhook cfg req) = invalid_signature) /\
  (h256 = prefix sha256 ++ createHmac_hex sha256 (WEBHOOK_SECRET cfg) raw ->
   fst (webhook cfg req) = ok \/ fst (webhook cfg req) = server_error) /\
  (forall sig1, webhook cfg (with_x_hub_signature sig1 req) = webhook cfg req) /\
  (forall h1, h1 <> [] ->
     forall empty256, truthy_header empty256 = false ->
     verified cfg {| x_hub_signature_256 := empty256; x_hub_signature := Some h1;
                     x_github_event := x_github_event req;
                     x_github_delivery := x_github_delivery req;
                     body := body req |} <->
     h1 = prefix sha1 ++ createHmac_hex sha1 (WEBHOOK_SECRET cfg) raw).
Proof.
  intros Hskip Hsecret Hbody E256 Hh.
  destruct (@inspected_header_decides cfg req sha256 h256 raw Hskip Hsecret Hbody
              (inspects_sha256 req E256 Hh)) as (Hiff & Hne & Hok).
  split; [exact Hiff|]. split; [exact Hne|]. split; [exact Hok|]. split.
  - intros sig1. unfold webhook, handler, verify, read_event.
    cbn [with_x_hub_signature x_hub_signature_256 x_hub_signature x_github_event
         x_github_delivery body].
    rewrite E256. destruct h256; [congruence|]. reflexivity.
  - intros h1 Hh1 empty256 Hempty.
    refine (proj1 (@inspected_header_decides cfg
                     {| x_hub_signature_256 := empty256; x_hub_signature := Some h1;
                        x_github_event := x_github_event req;
                        x_github_delivery := x_github_delivery req;
                        body := body req |}
                     sha1 h1 raw Hskip Hsecret Hbody _)).
    apply inspects_sha1; [exact Hempty|reflexivity|exact Hh1].
Qed.

Lemma sha256_header_decides_witness :
  verified example_config (signed_request (Some example_sha256) (Some (js "sha1=bogus"))) <->
  example_sha256 = prefix sha256 ++ createHmac_hex sha256 (js "s3cret") example_body.
Proof.
  refine (proj1 (@sha256_header_decides example_config
                   (signed_request (Some example_sha256) (Some (js "sha1=bogus")))
                   example_sha256 example_body eq_refl _ eq_refl eq_refl _)); discriminate.
Defined.

(** ** C4 *)

(** C4, as the claim states it, fails on the payload: when the body does
    not parse, [payload] keeps the value it was declared with, the empty
    object [{}], which is not [null].  The request is answered [200 ok]. *)
Lemma parse_failure_counterexample :
  parse_body (body unparsable_request) = None /\
  read_event unparsable_request []
  = (Next {| kind := js "push"; deliveryId := []; payload := JObj [] |}, [Warn_parse_failed]) /\
  JObj [] <> JNull /\
  webhook debug_config unparsable_request
  = (ok, [Warn_skipping_verification; Warn_parse_failed;
          Log_received (js "push") []; Log_push None None]).
Proof.
  repeat split; try (vm_compute; reflexivity). discriminate.
Qed.

(** C4, amended.  For every request that passes the verification block and
    whose raw body fails JSON parsing, the payload of the event is the empty
    object [{}], the failure is logged, and the request is answered
    [200 ok]. *)
Theorem parse_failure_is_not_a_rejection (cfg : config) (req : request)
    (tr : list effect) :
  verify cfg req [] = (Next tt, tr) ->
  parse_body (body req) = None ->
  (exists ev, read_event req tr = (Next ev, tr ++ [Warn_parse_failed]) /\
              payload ev = empty_object) /\
  fst (webhook cfg req) = ok /\
  exists l, snd (webhook cfg req) = tr ++ Warn_parse_failed :: l.
Proof.
  intros Hv Hp. split; [|].
  - unfold read_event, parse_payload. rewrite Hp.
    eexists. split; reflexivity.
  - pose proof (webhook_after_verify cfg req) as H. rewrite Hv in H.
    destruct H as (l & _ & _ & Hl). destruct (Hl Hp) as (-> & l' & ->).
    split; [reflexivity|]. exists l'. reflexivity.
Qed.

Lemma parse_failure_is_not_a_rejection_witness :
  fst (webhook debug_config unparsable_request) = ok.
Proof.
  exact (proj1 (proj2 (@parse_failure_is_not_a_rejection debug_config unparsable_request
                         [Warn_skipping_verification] eq_refl eq_refl))).
Defined.

End WebhookFacts.

(* ================================================================== *)
(** * The primary languages *)
(* ================================================================== *)

Module LanguageFacts.

Import Analyze.

(** An entry whose extension the table maps to a label. *)
Definition mapped (e : jsstring * N) : bool :=
  match assoc (fst e) language_map with
  | Some _ => true
  | None => false
  end.

(** [lang] is the label the table gives the extension of the entry [e]. *)
Definition labelled (e : jsstring * N) (lang : language) : Prop :=
  exists name, assoc (fst e) language_map = Some name /\ lang = Label name.

(** No entry is counted more often than one before it. *)
Definition descending : ext_counts -> Prop :=
  StronglySorted (fun a b : jsstring * N => (snd b <= snd a)%N).

(** No extension of the mapping is the name of a member of
    [Object.prototype]. *)
Definition own_names_only (counts : ext_counts) : Prop :=
  Forall (fun e => arr_includes (fst e) Object_prototype = false) counts.

Lemma insert_desc_perm e l : Permutation (insert_desc e l) (e :: l).
Proof.
  induction l as [|x l IH]; cbn [insert_desc]; [reflexivity|].
  destruct (N.leb (snd x) (snd e)); [reflexivity|].
  rewrite IH. apply perm_swap.
Qed.

Lemma sort_desc_perm l : Permutation (sort_desc l) l.
Proof.
  induction l as [|e l IH]; cbn [sort_desc fold_right]; [reflexivity|].
  fold (sort_desc l). rewrite insert_desc_perm. now constructor.
Qed.

Lemma insert_desc_sorted e l : descending l -> descending (insert_desc e l).
Proof.
  induction 1 as [|x l Hl IH Hx]; cbn [insert_desc].
  - constructor; constructor.
  - destruct (N.leb_spec (snd x) (snd e)) as [Hle|Hgt].
    + constructor; [constructor; assumption|].
      constructor; [exact Hle|].
      eapply Forall_impl; [|exact Hx]. cbn. intros y Hy. lia.
    + constructor; [exact IH|].
      eapply Permutation_Forall; [symmetry; apply insert_desc_perm|].
      constructor; [lia|exact Hx].
Qed.

Lemma sort_desc_sorted l : descending (sort_desc l).
Proof.
  induction l as [|e l IH]; cbn [sort_desc fold_right]; [constructor|].
  now apply insert_desc_sorted.
Qed.

Lemma filter_perm {A} (f : A -> bool) (l l' : list A) :
  Permutation l l' -> Permutation (filter f l) (filter f l').
Proof.
  induction 1 as [|x l l' _ IH|x y l|l l' l'' _ IH1 _ IH2]; cbn [filter].
  - reflexivity.
  - destruct (f x); [now constructor|exact IH].
  - destruct (f x), (f y); try reflexivity. apply perm_swap.
  - now rewrite IH1.
Qed.

Lemma filter_sorted (f : jsstring * N -> bool) l : descending l -> descending (filter f l).
Proof.
  induction 1 as [|x l Hl IH Hx]; cbn [filter]; [constructor|].
  destruct (f x); [|exact IH].
  constructor; [exact IH|].
  apply Forall_forall. intros y Hy. apply filter_In in Hy.
  rewrite Forall_forall in Hx. now apply Hx.
Qed.

Lemma sorted_app l1 l2 :
  descending (l1 ++ l2) ->
  descending l1 /\ forall a b, In a l1 -> In b l2 -> (snd b <= snd a)%N.
Proof.
  induction l1 as [|x l1 IH]; cbn [app]; intros H.
  - split; [constructor|]. intros a b [].
  - apply StronglySorted_inv in H. destruct H as [H Hx].
    destruct (IH H) as [H1 H2]. apply Forall_app in Hx. destruct Hx as [Hx1 Hx2].
    split; [now constructor|].
    intros a b [<-|Ha] Hb; [|now apply H2].
    rewrite Forall_forall in Hx2. now apply Hx2.
Qed.

(** Without inherited names, [languages] holds the labels of the mapped
    entries of [ranked], in order, and nothing else. *)
Lemma push_mapped_labels ranked :
  own_names_only ranked -> Forall2 labelled (filter mapped ranked) (push_mapped ranked).
Proof.
  induction 1 as [|[ext n] ranked Hext _ IH]; cbn [filter push_mapped]; [constructor|].
  unfold mapped, map_get. cbn [fst] in *.
  destruct (assoc ext language_map) as [name|] eqn:E.
  - constructor; [|exact IH]. exists name. cbn [fst]. now split.
  - rewrite Hext. exact IH.
Qed.

Lemma Forall2_firstn {A B} (R : A -> B -> Prop) n l l' :
  Forall2 R l l' -> Forall2 R (firstn n l) (firstn n l').
Proof.
  intros H. revert n. induction H as [|x y l l' Hxy _ IH]; intros [|n]; cbn [firstn];
    constructor; auto.
Qed.

(** C6, as the claim states it, fails twice.  The labels returned need not
    be distinct: [c] and [cpp] carry the same label.  And an extension that
    is not in the table can take a slot: [map] is an object literal, and
    [map[ext]] also finds what every object inherits, as [constructor]. *)
Lemma primary_languages_counterexample :
  detectPrimaryLanguages [(js "c", 2%N); (js "cpp", 1%N)]
  = [Label (js "C/C++"); Label (js "C/C++")] /\
  detectPrimaryLanguages
    [(js "constructor", 10%N); (js "js", 5%N); (js "ts", 3%N); (js "py", 1%N)]
  = [Inherited (js "constructor"); Label (js "JavaScript"); Label (js "TypeScript")].
Proof. split; vm_compute; reflexivity. Qed.

(** C6, amended.  For every extension-count mapping none of whose
    extensions is the name of a member of [Object.prototype],
    [detectPrimaryLanguages] returns at most 3 labels, not necessarily
    distinct: the labels of the mapped entries that are counted most often,
    in descending order of count (all of them when they are fewer than 3);
    an extension outside the table gives no label and takes no slot.  On
    [{js: 5, ts: 3, unknownext: 10}] the result is
    [["JavaScript", "TypeScript"]]. *)
Theorem primary_languages_ranked (counts : ext_counts) :
  own_names_only counts ->
  (exists chosen rest : ext_counts,
     Permutation (chosen ++ rest) (filter mapped counts) /\
     Forall2 labelled chosen (detectPrimaryLanguages counts) /\
     List.length (detectPrimaryLanguages counts) <= 3 /\
     (rest <> [] -> List.length chosen = 3) /\
     descending chosen /\
     (forall a b, In a chosen -> In b rest -> (snd b <= snd a)%N)) /\
  detectPrimaryLanguages [(js "js", 5%N); (js "ts", 3%N); (js "unknownext", 10%N)]
  = [Label (js "JavaScript"); Label (js "TypeScript")].
Proof.
  intros Hown. split; [|vm_compute; reflexivity].
  set (ranked := filter mapped (sort_desc counts)).
  exists (firstn 3 ranked), (skipn 3 ranked).
  assert (Hs : descending (firstn 3 ranked ++ skipn 3 ranked)).
  { rewrite firstn_skipn. apply filter_sorted, sort_desc_sorted. }
  apply sorted_app in Hs. destruct Hs as [Hs1 Hs2].
  repeat split.
  - rewrite firstn_skipn. apply filter_perm, sort_desc_perm.
  - unfold detectPrimaryLanguages. apply Forall2_firstn, push_mapped_labels.
    eapply Permutation_Forall; [symmetry; apply sort_desc_perm|exact Hown].
  - unfold detectPrimaryLanguages. rewrite length_firstn. lia.
  - intros Hrest. rewrite length_firstn.
    destruct (Nat.le_gt_cases 3 (List.length ranked)) as [Hl|Hl]; [lia|].
    exfalso. apply Hrest. apply skipn_all2. lia.
  - exact Hs1.
  - exact Hs2.
Qed.

Lemma primary_languages_ranked_witness :
  detectPrimaryLanguages [(js "js", 5%N); (js "ts", 3%N); (js "unknownext", 10%N)]
  = [Label (js "JavaScript"); Label (js "TypeScript")].
Proof.
  refine (proj2 (@primary_languages_ranked
                   [(js "js", 5%N); (js "ts", 3%N); (js "unknownext", 10%N)] _)).
  repeat constructor.
Defined.

End LanguageFacts.

(* ================================================================== *)
(** * The regular expressions of the analysis *)
(* ================================================================== *)

Module RegexFacts.

Import Analyze.

(** The keyword [kw], in either case, stands at offset [n] of [s] and is
    followed by white space: a match of the keyword pattern starts there. *)
Definition keyword_occurs (kw s : jsstring) (n : nat) : Prop :=
  ci_startsWith kw (skipn n s) = true /\
  exists c r, skipn (List.length kw) (skipn n s) = c :: r /\ is_space c = true.

(** What the group of the match at offset [n] holds: the rest of the line
    after the white space that follows the keyword. *)
Definition line_after (kw s : jsstring) (n : nat) : jsstring :=
  take_while not_line_terminator (drop_while is_space (skipn (List.length kw) (skipn n s))).

Lemma keyword_at_spec kw s g :
  keyword_at kw s = Some g <-> keyword_occurs kw s 0 /\ g = line_after kw s 0.
Proof.
  unfold keyword_at, keyword_occurs, line_after. cbn [skipn].
  destruct (ci_startsWith kw s).
  - destruct (skipn (List.length kw) s) as [|c r].
    + split; [discriminate|]. intros [[_ (c & r & E & _)] _]. discriminate.
    + destruct (is_space c) eqn:Hc.
      * split.
        -- intros E. injection E as <-. split; [|reflexivity].
           split; [reflexivity|]. now exists c, r.
        -- intros [_ ->]. reflexivity.
      * split; [discriminate|]. intros [[_ (c' & r' & E & Hc')] _].
        injection E as <- <-. congruence.
  - split; [discriminate|]. intros [[E _] _]. discriminate.
Qed.

Lemma keyword_at_none kw s : keyword_at kw s = None <-> ~ keyword_occurs kw s 0.
Proof.
  split.
  - intros E H. rewrite (proj2 (keyword_at_spec kw s _) (conj H eq_refl)) in E. discriminate.
  - intros H. destruct (keyword_at kw s) as [g|] eqn:E; [|reflexivity].
    apply keyword_at_spec in E. tauto.
Qed.

(** [match] finds the leftmost occurrence. *)
Lemma match_keyword_leftmost kw s g :
  match_keyword kw s = Some g <->
  exists n, keyword_occurs kw s n /\
            (forall m, m < n -> ~ keyword_occurs kw s m) /\
            g = line_after kw s n.
Proof.
  revert g. induction s as [|c s IH]; intros g; cbn [match_keyword].
  - destruct (keyword_at kw []) as [g0|] eqn:E.
    + apply keyword_at_spec in E. destruct E as [Ho ->]. split.
      * intros Eg. injection Eg as <-. exists 0. split; [exact Ho|]. split; [lia|reflexivity].
      * intros (n & Hn & _ & ->). f_equal. unfold line_after.
        now rewrite !skipn_nil.
    + apply keyword_at_none in E. split; [discriminate|].
      intros (n & Hn & _). exfalso. apply E.
      unfold keyword_occurs in *. now rewrite skipn_nil in Hn.
  - destruct (keyword_at kw (c :: s)) as [g0|] eqn:E.
    + apply keyword_at_spec in E. destruct E as [Ho ->]. split.
      * intros Eg. injection Eg as <-. exists 0. split; [exact Ho|]. split; [lia|reflexivity].
      * intros (n & Hn & Hfirst & ->). destruct n as [|n]; [reflexivity|].
        exfalso. apply (Hfirst 0); [lia|exact Ho].
    + apply keyword_at_none in E. rewrite IH. split.
      * intros (n & Hn & Hfirst & ->). exists (S n). split; [exact Hn|]. split; [|reflexivity].
        intros [|m] Hm; [exact E|]. apply Hfirst. lia.
      * intros (n & Hn & Hfirst & ->). destruct n as [|n]; [tauto|].
        exists n. split; [exact Hn|]. split; [|reflexivity].
        intros m Hm. apply (Hfirst (S m)). lia.
Qed.

Lemma match_keyword_none kw s :
  match_keyword kw s = None <-> forall n, ~ keyword_occurs kw s n.
Proof.
  split.
  - induction s as [|c s IH]; cbn [match_keyword]; intros E n Hn.
    + destruct (keyword_at kw []) eqn:E0; [discriminate|].
      apply keyword_at_none in E0. apply E0. unfold keyword_occurs in *.
      now rewrite skipn_nil in Hn.
    + destruct (keyword_at kw (c :: s)) eqn:E0; [discriminate|].
      apply keyword_at_none in E0. destruct n as [|n]; [tauto|].
      now apply (IH E n).
  - intros H. destruct (match_keyword kw s) as [g|] eqn:E; [|reflexivity].
    apply match_keyword_leftmost in E. destruct E as (n & Hn & _). now apply H in Hn.
Qed.

(** The ports of all the places of [s] where a match of the [EXPOSE]
    pattern starts, from left to right. *)
Fixpoint expose_occurrences (s : jsstring) : list jsstring :=
  match expose_at s with
  | Some (ds, _) => [ds]
  | None => []
  end ++
  match s with
  | [] => []
  | _ :: s' => expose_occurrences s'
  end.

Lemma ascii_lower_inv (c x : N) :
  ascii_lower c = x -> c = x \/ (c + 32 = x /\ 65 <= c <= 90)%N.
Proof.
  unfold ascii_lower. destruct (N.leb_spec 65 c); destruct (N.leb_spec c 90); cbn [andb]; lia.
Qed.

Lemma space_lower (c : N) :
  is_space c = true -> ascii_lower c <> 101%N /\ ascii_lower c <> 120%N.
Proof.
  intros Hs.
  split; intros E; apply ascii_lower_inv in E;
    destruct E as [->|[E _]]; try discriminate;
    [replace c with 69%N in Hs by lia|replace c with 88%N in Hs by lia]; discriminate.
Qed.

Lemma digit_lower (c : N) : is_digit c = true -> ascii_lower c <> 101%N.
Proof.
  intros Hd E. apply ascii_lower_inv in E.
  destruct E as [->|[E _]]; [discriminate|].
  replace c with 69%N in Hd by lia. discriminate.
Qed.

Lemma expose_at_head (c : N) (t : jsstring) :
  ascii_lower c <> 101%N -> expose_at (c :: t) = None.
Proof.
  intros H. unfold expose_at. change (js "expose") with [101; 120; 112; 111; 115; 101]%N.
  cbn [ci_startsWith]. apply N.eqb_neq in H. rewrite N.eqb_sym, H. reflexivity.
Qed.

Lemma take_drop_while (f : N -> bool) (s : jsstring) :
  s = take_while f s ++ drop_while f s.
Proof.
  induction s as [|c s IH]; cbn [take_while drop_while]; [reflexivity|].
  destruct (f c); [|reflexivity]. cbn [app]. now rewrite <- IH.
Qed.

Lemma take_while_all (f : N -> bool) (s : jsstring) :
  Forall (fun c => f c = true) (take_while f s).
Proof.
  induction s as [|c s IH]; cbn [take_while]; [constructor|].
  destruct (f c) eqn:E; constructor; assumption.
Qed.

Lemma skipn_in_prefix {A} (P : A -> Prop) (l1 l2 : list A) (k : nat) :
  Forall P l1 -> k < List.length l1 ->
  exists h t, skipn k (l1 ++ l2) = h :: t /\ P h.
Proof.
  intros H. revert k. induction H as [|x l1 Hx _ IH]; intros k Hk; cbn [List.length] in Hk.
  - lia.
  - destruct k as [|k]; cbn [skipn app].
    + now exists x, (l1 ++ l2).
    + apply IH. lia.
Qed.

(** No match starts inside a match. *)
Lemma no_occurrence_inside (s ds : jsstring) (len : nat) :
  expose_at s = Some (ds, len) ->
  forall j, 0 < j < len -> expose_at (skipn j s) = None.
Proof.
  unfold expose_at at 1. change (js "expose") with [101; 120; 112; 111; 115; 101]%N.
  destruct s as [|c0 [|c1 [|c2 [|c3 [|c4 [|c5 r]]]]]]; cbn [ci_startsWith];
    rewrite ?andb_false_r; try discriminate.
  destruct (101 =? ascii_lower c0)%N; [|discriminate].
  destruct (N.eqb_spec 120 (ascii_lower c1)) as [E1|]; [|discriminate].
  destruct (N.eqb_spec 112 (ascii_lower c2)) as [E2|]; [|discriminate].
  destruct (N.eqb_spec 111 (ascii_lower c3)) as [E3|]; [|discriminate].
  destruct (N.eqb_spec 115 (ascii_lower c4)) as [E4|]; [|discriminate].
  destruct (101 =? ascii_lower c5)%N; [|discriminate].
  cbn [andb skipn].
  pose proof (take_while_all is_space r) as Hsp.
  pose proof (take_while_all is_digit (drop_while is_space r)) as Hds.
  pose proof (take_drop_while is_space r) as Er.
  pose proof (take_drop_while is_digit (drop_while is_space r)) as Er'.
  destruct (take_while is_space r) as [|h sp] eqn:Esp; [discriminate|].
  destruct (take_while is_digit (drop_while is_space r)) as [|d ds'] eqn:Eds; [discriminate|].
  intros E. injection E as <- <-. intros j Hj.
  destruct j as [|[|[|[|[|[|j]]]]]]; cbn [skipn]; try lia;
    try (apply expose_at_head; lia).
  - (* the last letter of the keyword, followed by white space *)
    unfold expose_at. change (js "expose") with [101; 120; 112; 111; 115; 101]%N.
    rewrite Er. cbn [app ci_startsWith].
    apply Forall_inv in Hsp. apply space_lower in Hsp. destruct Hsp as [_ Hx].
    apply N.eqb_neq in Hx. rewrite (N.eqb_sym 120), Hx, andb_false_r. reflexivity.
  - (* inside the white space or the digits *)
    assert (Hall : Forall (fun c => ascii_lower c <> 101%N) ((h :: sp) ++ d :: ds')).
    { apply Forall_app. split.
      - eapply Forall_impl; [|exact Hsp]. intros c Hc. now apply space_lower in Hc.
      - eapply Forall_impl; [|exact Hds]. intros c Hc. now apply digit_lower in Hc. }
    rewrite Er, Er', app_assoc.
    destruct (@skipn_in_prefix N _ _ (drop_while is_digit (drop_while is_space r)) j Hall)
      as (x & t & -> & Hx).
    + rewrite length_app. cbn [List.length] in *. lia.
    + now apply expose_at_head.
Qed.

Lemma expose_occurrences_skip (s : jsstring) (k : nat) :
  (forall j, j < k -> expose_at (skipn j s) = None) ->
  expose_occurrences s = expose_occurrences (skipn k s).
Proof.
  revert s. induction k as [|k IH]; intros s H; [reflexivity|].
  destruct s as [|c s]; [reflexivity|].
  assert (H0 : expose_at (c :: s) = None) by (apply (H 0); lia).
  cbn [expose_occurrences skipn]. rewrite H0. cbn [app skipn].
  apply IH. intros j Hj. apply (H (S j)). lia.
Qed.

Lemma matchAll_expose_skip (s : jsstring) (k : nat) :
  matchAll_expose k s = matchAll_expose 0 (skipn k s).
Proof.
  revert s. induction k as [|k IH]; intros s; [reflexivity|].
  destruct s as [|c s]; [reflexivity|]. cbn [matchAll_expose skipn]. apply IH.
Qed.

(** [matchAll] returns the ports of all the occurrences, in the order they
    appear in. *)
Lemma matchAll_expose_occurrences (s : jsstring) :
  matchAll_expose 0 s = expose_occurrences s.
Proof.
  remember (List.length s) as n eqn:En. revert s En.
  induction n as [n IH] using lt_wf_ind. intros s En.
  destruct s as [|c s]; [reflexivity|].
  cbn [matchAll_expose expose_occurrences].
  destruct (expose_at (c :: s)) as [[ds len]|] eqn:E; cbn [app].
  - f_equal. rewrite matchAll_expose_skip.
    rewrite (@expose_occurrences_skip s (len - 1)).
    + apply (IH (List.length (skipn (len - 1) s))); [|reflexivity].
      rewrite length_skipn. cbn [List.length] in En. lia.
    + intros j Hj. apply (@no_occurrence_inside (c :: s) ds len E (S j)). lia.
  - apply (IH (List.length s)); [|reflexivity]. cbn [List.length] in En. lia.
Qed.

End RegexFacts.

(* ================================================================== *)
(** * The analysis: what is fetched *)
(* ================================================================== *)

Module FetchFacts.

Import Analyze.

Lemma str_eqb_eq (a b : jsstring) : str_eqb a b = true <-> a = b.
Proof.
  revert b. induction a as [|x a IH]; intros [|y b]; cbn [str_eqb];
    try (split; [discriminate|discriminate]); [tauto|].
  rewrite andb_true_iff, N.eqb_eq, IH. split; [intros [-> ->]; reflexivity|].
  intros E. injection E as -> ->. now split.
Qed.

Lemma str_eqb_refl (a : jsstring) : str_eqb a a = true.
Proof. now apply str_eqb_eq. Qed.

Lemma arr_includes_In (x : jsstring) (a : list jsstring) :
  arr_includes x a = true <-> In x a.
Proof.
  induction a as [|y a IH]; cbn [arr_includes In]; [split; [discriminate|tauto]|].
  rewrite orb_true_iff, str_eqb_eq, IH. tauto.
Qed.

Lemma arr_includes_not_In (x : jsstring) (a : list jsstring) :
  arr_includes x a = false <-> ~ In x a.
Proof.
  rewrite <- arr_includes_In. destruct (arr_includes x a); split; congruence.
Qed.

(** The text [safeGetFile] gives for a path, cut as the fetch loop stores
    it; [None] when the loop stores nothing: the answer is a directory, or
    there is no answer, or the text is empty. *)
Definition fetched (oct : octokit) (owner repo ref p : jsstring) : option jsstring :=
  match getContent oct owner repo p ref with
  | File text => if truthy_str text then Some (shortSnippet text 2000) else None
  | Directory | Unavailable => None
  end.

(** The snippets of a list of paths, in order. *)
Definition collect (oct : octokit) (owner repo ref : jsstring) (paths : list jsstring) : file_contents :=
  flat_map (fun p => match fetched oct owner repo ref p with
                     | Some text => [(p, text)]
                     | None => []
                     end) paths.

(** The file requests among the requests issued, by path. *)
Fixpoint content_requests (log : list api_call) : list jsstring :=
  match log with
  | [] => []
  | GetContent _ _ p _ :: log' => p :: content_requests log'
  | _ :: log' => content_requests log'
  end.

Lemma content_requests_app (a b : list api_call) :
  content_requests (a ++ b) = content_requests a ++ content_requests b.
Proof.
  induction a as [|c a IH]; [reflexivity|].
  destruct c; cbn [content_requests app]; now rewrite IH.
Qed.

Lemma content_requests_map owner repo ref (paths : list jsstring) :
  content_requests (map (fun p => GetContent owner repo p ref) paths) = paths.
Proof. induction paths as [|p paths IH]; cbn; [reflexivity|now rewrite IH]. Qed.

Lemma set_fresh (k v : jsstring) (o : file_contents) :
  ~ In k (keys o) -> set k v o = o ++ [(k, v)].
Proof.
  induction o as [|[k' v'] o IH]; cbn [set keys map fst In app]; intros H; [reflexivity|].
  destruct (str_eqb k' k) eqn:E.
  - apply str_eqb_eq in E. tauto.
  - rewrite IH; [reflexivity|]. unfold keys. tauto.
Qed.

Lemma keys_app (a b : file_contents) : keys (a ++ b) = keys a ++ keys b.
Proof. apply map_app. Qed.

Lemma keys_collect oct owner repo ref paths :
  keys (collect oct owner repo ref paths) =
  filter (fun p => match fetched oct owner repo ref p with Some _ => true | None => false end)
         paths.
Proof.
  induction paths as [|p paths IH]; [reflexivity|].
  cbn [collect flat_map filter]. fold (collect oct owner repo ref paths).
  destruct (fetched oct owner repo ref p); cbn [app]; [|exact IH].
  cbn [keys map fst]. f_equal. exact IH.
Qed.

(** The fetch loop issues one request a path, in order, never fails, and
    stores the snippets of the paths in order. *)
Lemma fetch_files_run oct owner repo ref paths fileContents log :
  NoDup paths ->
  (forall p, In p paths -> ~ In p (keys fileContents)) ->
  fetch_files oct owner repo ref paths fileContents log =
  (Some (fileContents ++ collect oct owner repo ref paths),
   log ++ map (fun p => GetContent owner repo p ref) paths).
Proof.
  intros Hnd. revert fileContents log.
  induction Hnd as [|p paths Hp Hnd IH]; intros fc log Hfresh.
  - cbn [fetch_files collect flat_map map]. unfold ret. now rewrite !app_nil_r.
  - cbn [fetch_files]. unfold bind, safeGetFile, request.
    cbn [collect flat_map map]. fold (collect oct owner repo ref paths).
    unfold fetched.
    assert (Hp' : ~ In p (keys fc)) by (apply Hfresh; now left).
    destruct (getContent oct owner repo p ref) as [|text|];
      cbn [truthy_header string_of app];
      try (rewrite IH by (intros q Hq; apply Hfresh; now right);
           now rewrite <- app_assoc).
    destruct (truthy_str text).
    + rewrite set_fresh by exact Hp'. rewrite IH.
      * now rewrite <- !app_assoc.
      * intros q Hq. rewrite keys_app. cbn [keys map fst]. intros Hin.
        apply in_app_or in Hin. destruct Hin as [Hin|[<-|[]]].
        -- apply (Hfresh q); [now right|exact Hin].
        -- exact (Hp Hq).
    + rewrite IH by (intros q Hq; apply Hfresh; now right).
      now rewrite <- app_assoc.
Qed.

Lemma first_occurrences_fresh seen a x :
  In x (first_occurrences seen a) -> ~ In x seen /\ In x a.
Proof.
  revert seen. induction a as [|v a IH]; intros seen; cbn [first_occurrences]; [tauto|].
  destruct (arr_includes v seen) eqn:E.
  - intros H. apply IH in H. cbn [In]. tauto.
  - apply arr_includes_not_In in E. intros [<-|H]; [cbn [In]; tauto|].
    apply IH in H. destruct H as [H1 H2]. cbn [In]. split; [|tauto].
    intros Hs. apply H1. apply in_or_app. now left.
Qed.

Lemma first_occurrences_NoDup seen a : NoDup (first_occurrences seen a).
Proof.
  revert seen. induction a as [|v a IH]; intros seen; cbn [first_occurrences]; [constructor|].
  destruct (arr_includes v seen); [apply IH|].
  constructor; [|apply IH].
  intros H. apply first_occurrences_fresh in H. destruct H as [H _].
  apply H. apply in_or_app. right. now left.
Qed.

Lemma toFetch_NoDup filesFound : NoDup (toFetch filesFound).
Proof. apply first_occurrences_NoDup. Qed.

(** The priority list heads the list of the paths to fetch, whatever the
    tree holds. *)
Lemma toFetch_priority filesFound :
  toFetch filesFound =
  priority ++
  first_occurrences priority (filter (fun p => negb (arr_includes p priority)) filesFound).
Proof. reflexivity. Qed.

Lemma firstn_NoDup {A} (n : nat) (l : list A) : NoDup l -> NoDup (firstn n l).
Proof.
  intros H. revert n. induction H as [|x l Hx _ IH]; intros [|n]; cbn [firstn];
    try constructor; [|apply IH].
  intros Hin. apply Hx. rewrite <- (firstn_skipn n l). apply in_or_app. now left.
Qed.

(** The paths the analysis of a tree asks the contents of. *)
Definition fetch_list (items : list tree_entry) : list jsstring :=
  firstn 40 (toFetch (add_workflows items (find_files items []))).

(** The analysis, step by step. *)
Lemma analyzeRepo_run oct owner repo ref :
  analyzeRepo oct owner repo ref [] =
  match getBranch oct owner repo ref with
  | None => (None, [GetBranch owner repo ref])
  | Some commitSha =>
      match getCommit oct owner repo commitSha with
      | None => (None, [GetBranch owner repo ref; GetCommit owner repo commitSha])
      | Some treeSha =>
          match getTree oct owner repo treeSha with
          | None => (None, [GetBranch owner repo ref; GetCommit owner repo commitSha;
                            GetTree owner repo treeSha])
          | Some items =>
              let fileContents := collect oct owner repo ref (fetch_list items) in
              (Some {| repo := owner ++ js "/" ++ repo;
                       ref := ref;
                       filesFound := add_workflows items (find_files items []);
                       detected := detect items fileContents;
                       snippets := fileContents |},
               [GetBranch owner repo ref; GetCommit owner repo commitSha;
                GetTree owner repo treeSha] ++
               map (fun p => GetContent owner repo p ref) (fetch_list items))
          end
      end
  end.
Proof.
  unfold analyzeRepo, bind, request. cbn [app].
  destruct (getBranch oct owner repo ref) as [commitSha|]; [|reflexivity].
  destruct (getCommit oct owner repo commitSha) as [treeSha|]; [|reflexivity].
  destruct (getTree oct owner repo treeSha) as [items|]; [|reflexivity].
  rewrite fetch_files_run.
  - reflexivity.
  - apply firstn_NoDup, toFetch_NoDup.
  - intros p _ [].
Qed.

Lemma fetch_list_length items : List.length (fetch_list items) <= 40.
Proof. unfold fetch_list. rewrite length_firstn. lia. Qed.

Lemma fetch_list_priority items : exists others, fetch_list items = priority ++ others.
Proof.
  unfold fetch_list. rewrite toFetch_priority, firstn_app.
  eexists. f_equal.
Qed.

(** ** Example trees *)

Definition a_file (p : string) : tree_entry := {| path := js p; type := blob |}.
Definition a_folder (p : string) : tree_entry := {| path := js p; type := tree |}.

(** A client for a repository given by its tree and the text of its files;
    a path without text cannot be fetched. *)
Definition client (items : list tree_entry) (files : list (jsstring * jsstring)) : octokit :=
  {| getBranch := fun _ _ _ => Some (js "c0ffee");
     getCommit := fun _ _ _ => Some (js "7ree");
     getTree := fun _ _ _ => Some items;
     getContent := fun _ _ p _ =>
                     match assoc p files with
                     | Some text => File text
                     | None => Unavailable
                     end |}.

(** The analysis of such a repository. *)
Definition analyze (items : list tree_entry) (files : list (jsstring * jsstring)) :
  option analysis * list api_call :=
  analyzeRepo (client items files) (js "octo") (js "demo") (js "main") [].

(** A tree with sixty workflow files and nothing else of interest. *)
Definition many_workflows : list tree_entry :=
  map (fun n => {| path := CI_PATH_PREFIX ++ repeat 119%N (S n) ++ js ".yml"; type := blob |})
      (seq 0 60).

Example many_workflows_bounded :
  List.length (match fst (analyze many_workflows []) with Some a => filesFound a | None => [] end) = 60 /\
  List.length (content_requests (snd (analyze many_workflows []))) = 40.
Proof. split; vm_compute; reflexivity. Qed.

(** ** C9 *)

(** C9. Whatever the tree holds and whatever the client answers, an
    analysis issues at most 40 requests for the content of a file. *)
Theorem fetch_bound (oct : octokit) (owner repo ref : jsstring) :
  List.length (content_requests (snd (analyzeRepo oct owner repo ref []))) <= 40.
Proof.
  rewrite analyzeRepo_run.
  destruct (getBranch oct owner repo ref) as [commitSha|]; [|cbn; lia].
  destruct (getCommit oct owner repo commitSha) as [treeSha|]; [|cbn; lia].
  destruct (getTree oct owner repo treeSha) as [items|]; [|cbn; lia].
  cbv zeta. cbn [snd]. rewrite content_requests_app, content_requests_map.
  cbn [content_requests app]. apply fetch_list_length.
Qed.

(** ** C10 *)

(** C10. Once the tree is there, whatever it holds, the analysis asks for
    the content of each of the ten paths of the priority list, before any
    other file, and the analysis goes on when a fetch gives [null]
    (the path is a directory, or the request fails): that path is then not
    among the snippets. *)
Theorem priority_always_fetched (oct : octokit) (owner repo ref : jsstring)
    (commitSha treeSha : jsstring) (items : list tree_entry) :
  getBranch oct owner repo ref = Some commitSha ->
  getCommit oct owner repo commitSha = Some treeSha ->
  getTree oct owner repo treeSha = Some items ->
  priority = map js ["package.json"; "pyproject.toml"; "setup.py"; "requirements.txt";
                     "Pipfile"; "Dockerfile"; "docker-compose.yml"; ".env.example";
                     ".env.sample"; "Makefile"]%string /\
  (exists others,
     content_requests (snd (analyzeRepo oct owner repo ref [])) = priority ++ others) /\
  (forall p, In p priority ->
             In (GetContent owner repo p ref) (snd (analyzeRepo oct owner repo ref []))) /\
  (exists a, fst (analyzeRepo oct owner repo ref []) = Some a /\
             forall p, fst (safeGetFile oct owner repo p ref []) = Some None ->
                       ~ In p (keys (snippets a))).
Proof.
  intros Hb Hc Ht. rewrite analyzeRepo_run, Hb, Hc, Ht. cbv zeta. cbn [fst snd].
  destruct (fetch_list_priority items) as (others & E).
  split; [reflexivity|]. split; [|split].
  - exists others. rewrite content_requests_app, content_requests_map. exact E.
  - intros p Hp. apply in_or_app. right. apply in_map_iff. exists p. split; [reflexivity|].
    rewrite E. apply in_or_app. now left.
  - eexists. split; [reflexivity|]. cbn [snippets].
    intros p Hnull Hin. rewrite keys_collect in Hin. apply filter_In in Hin.
    destruct Hin as [_ Hin]. unfold fetched in Hin.
    unfold safeGetFile, request in Hnull. cbn [fst] in Hnull.
    destruct (getContent oct owner repo p ref); try discriminate.
Qed.

Lemma priority_always_fetched_witness :
  exists others,
    content_requests (snd (analyze [a_file "src/main.c"] [])) = priority ++ others.
Proof.
  exact (proj1 (proj2 (@priority_always_fetched
                         (client [a_file "src/main.c"] []) (js "octo") (js "demo") (js "main")
                         (js "c0ffee") (js "7ree") [a_file "src/main.c"]
                         eq_refl eq_refl eq_refl))).
Defined.

End FetchFacts.

(* ================================================================== *)
(** * The analysis: what is detected *)
(* ================================================================== *)

Module DetectFacts.

Import Analyze FetchFacts RegexFacts.

(** Cases on every test of a heuristic. *)
Ltac cases :=
  repeat match goal with
         | |- context [match ?x with _ => _ end] => destruct x
         end;
  try reflexivity.

(** *** What each heuristic leaves as it was *)

Lemma fallback_run_frame d :
  entrypoint (fallback_run d) = entrypoint d /\
  testCommands (fallback_run d) = testCommands d /\
  hasTests (fallback_run d) = hasTests d /\
  hasDocker (fallback_run d) = hasDocker d /\
  dockerInfo (fallback_run d) = dockerInfo d /\
  readme (fallback_run d) = readme d /\
  license (fallback_run d) = license d.
Proof. unfold fallback_run. destruct (runCommands d); repeat split. Qed.

Lemma generic_tests_frame items d :
  entrypoint (generic_tests items d) = entrypoint d /\
  hasDocker (generic_tests items d) = hasDocker d /\
  dockerInfo (generic_tests items d) = dockerInfo d /\
  readme (generic_tests items d) = readme d /\
  license (generic_tests items d) = license d /\
  (hasTests d = true -> generic_tests items d = d).
Proof.
  unfold generic_tests. destruct (hasTests d); cbn [negb].
  - repeat split.
  - destruct (existsb _ items); repeat split; discriminate.
Qed.

Lemma readme_license_frame fc d :
  entrypoint (readme_license fc d) = entrypoint d /\
  testCommands (readme_license fc d) = testCommands d /\
  hasTests (readme_license fc d) = hasTests d /\
  hasDocker (readme_license fc d) = hasDocker d /\
  dockerInfo (readme_license fc d) = dockerInfo d.
Proof. unfold readme_license. repeat split; cases. Qed.

Lemma ci_frame fc d :
  entrypoint (ci fc d) = entrypoint d /\
  testCommands (ci fc d) = testCommands d /\
  hasTests (ci fc d) = hasTests d /\
  hasDocker (ci fc d) = hasDocker d /\
  dockerInfo (ci fc d) = dockerInfo d /\
  readme (ci fc d) = readme d /\
  license (ci fc d) = license d.
Proof. unfold ci. repeat split; cases. Qed.

Lemma docker_frame fc d :
  testCommands (docker fc d) = testCommands d /\
  hasTests (docker fc d) = hasTests d /\
  readme (docker fc d) = readme d /\
  license (docker fc d) = license d /\
  (truthy_entry (entrypoint d) = true -> entrypoint (docker fc d) = entrypoint d).
Proof.
  split; [|split; [|split; [|split]]]; try solve [unfold docker; cases].
  intros E. unfold docker.
  destruct (snippet "Dockerfile" fc), (snippet "docker-compose.yml" fc);
    try reflexivity; cbv beta zeta; cbn [set_docker entrypoint];
    rewrite E; reflexivity.
Qed.

Lemma python_frame fc d :
  entrypoint (python fc d) = entrypoint d /\
  hasDocker (python fc d) = hasDocker d /\
  dockerInfo (python fc d) = dockerInfo d /\
  readme (python fc d) = readme d /\
  license (python fc d) = license d /\
  (hasTests d = true -> hasTests (python fc d) = true) /\
  (forall c, In c (testCommands d) -> In c (testCommands (python fc d))).
Proof.
  unfold python. repeat split; cases; try (intros; assumption);
    intros c Hc; cbn [set_projectType set_testCommands set_hasTests set_packageManager
                      testCommands]; try assumption; apply in_or_app; now left.
Qed.

Lemma package_json_frame fc d :
  hasDocker (package_json fc d) = hasDocker d /\
  dockerInfo (package_json fc d) = dockerInfo d /\
  readme (package_json fc d) = readme d /\
  license (package_json fc d) = license d.
Proof. unfold package_json. repeat split; cases. Qed.

(** *** The manifest *)

Lemma get_object v k x : get v k = Some x -> exists props, v = JObj props.
Proof. destruct v; try discriminate. intros _. now eexists. Qed.

Lemma get_opt_object o k x :
  get_opt o k = Some x -> exists props, o = Some (JObj props).
Proof.
  destruct o as [v|]; [|discriminate]. destruct v; try discriminate. intros _. now eexists.
Qed.

(** Projections of the facts after the setters. *)
Ltac project :=
  cbn [set_projectType set_entrypoint set_hasTests set_testCommands set_runCommands
       set_packageManager entrypoint testCommands hasTests truthy_entry get_value get_json
       truthy_opt truthy negb andb initial].

(** What the manifest stage detects from a snippet that parses. *)
Lemma package_json_scripts fc text pj :
  snippet "package.json" fc = Some text ->
  Json.parse text = Some pj ->
  (forall start, get_opt (get pj (js "scripts")) (js "start") = Some start ->
                 truthy start = true ->
                 entrypoint (package_json fc initial) = Value start) /\
  (forall test, get_opt (get pj (js "scripts")) (js "test") = Some test ->
                truthy test = true ->
                hasTests (package_json fc initial) = true /\
                testCommands (package_json fc initial) = [test]) /\
  (truthy_opt (get_opt (get pj (js "scripts")) (js "start")) = false ->
   forall main, get pj (js "main") = Some main -> truthy main = true ->
                renders main = true ->
                entrypoint (package_json fc initial) = node_main main).
Proof.
  intros Hs Hp. unfold package_json. rewrite Hs, Hp. cbv zeta.
  split; [|split].
  - intros start Hstart Ht.
    destruct (get_opt_object _ _ Hstart) as (sprops & Es).
    destruct (get_object _ _ Es) as (props & ->).
    rewrite Es in *. rewrite Hstart. project. rewrite Ht.
    destruct (truthy_opt (get_opt (Some (JObj sprops)) (js "test"))); project;
      rewrite ?Ht; project; rewrite andb_false_r;
      destruct (truthy_opt (get (JObj props) (js "main")));
      destruct (truthy_opt (get (JObj props) (js "name")));
      project; rewrite ?Ht; reflexivity.
  - intros test Htest Ht.
    destruct (get_opt_object _ _ Htest) as (sprops & Es).
    destruct (get_object _ _ Es) as (props & ->).
    rewrite Es in *. rewrite Htest. project. rewrite Ht.
    repeat match goal with
           | |- context [if ?b then _ else _] => destruct b
           end; split; reflexivity.
  - intros Hstart main Hmain Ht Hr.
    destruct (get_object _ _ Hmain) as (props & ->).
    rewrite Hmain, Hstart, andb_false_r. project. rewrite Ht, Hr.
    destruct (truthy_opt (get (JObj props) (js "scripts")) &&
              truthy_opt (get_opt (get (JObj props) (js "scripts")) (js "test")));
      project; destruct (truthy_opt (get (JObj props) (js "name"))); reflexivity.
Qed.

Lemma node_main_truthy main : truthy_entry (node_main main) = true.
Proof. destruct main; reflexivity. Qed.

(** The result of an analysis that succeeds. *)
Lemma analysis_shape oct owner repo ref a :
  fst (analyzeRepo oct owner repo ref []) = Some a ->
  exists items,
    snippets a = collect oct owner repo ref (fetch_list items) /\
    detected a = detect items (snippets a) /\
    filesFound a = add_workflows items (find_files items []).
Proof.
  rewrite analyzeRepo_run.
  destruct (getBranch oct owner repo ref) as [commitSha|]; [|discriminate].
  destruct (getCommit oct owner repo commitSha) as [treeSha|]; [|discriminate].
  destruct (getTree oct owner repo treeSha) as [items|]; [|discriminate].
  cbv zeta. cbn [fst]. intros E. injection E as <-. exists items. repeat split.
Qed.

(** What the later heuristics keep of the facts the first three
    establish. *)
Lemma detect_frame items fc :
  let d := docker fc (python fc (package_json fc initial)) in
  entrypoint (detect items fc) = entrypoint d /\
  hasDocker (detect items fc) = hasDocker d /\
  dockerInfo (detect items fc) = dockerInfo d /\
  (hasTests d = true -> hasTests (detect items fc) = true /\
                        testCommands (detect items fc) = testCommands d).
Proof.
  cbv zeta. unfold detect.
  set (d := docker fc (python fc (package_json fc initial))).
  destruct (fallback_run_frame (generic_tests items (readme_license fc (ci fc d))))
    as (F1 & F2 & F3 & F4 & F5 & _).
  destruct (generic_tests_frame items (readme_license fc (ci fc d)))
    as (G1 & G2 & G3 & _ & _ & G6).
  destruct (readme_license_frame fc (ci fc d)) as (R1 & R2 & R3 & R4 & R5).
  destruct (ci_frame fc d) as (C1 & C2 & C3 & C4 & C5 & _).
  rewrite F1, F2, F3, F4, F5, G1, G2, G3, R1, R4, R5, C1, C4, C5.
  repeat split; try reflexivity.
  - rewrite G6; [congruence|congruence].
  - rewrite G6; [congruence|congruence].
Qed.

(** ** C7 *)

(** A manifest with an empty start script, and one of more than 2000
    characters. *)
Definition manifest_with_empty_start : jsstring :=
  jq "{'main':'index.js','scripts':{'start':'','test':'jest'}}".

Definition long_manifest : jsstring :=
  jq "{'scripts':{'start':'node server.js','test':'jest'},'description':'" ++
  repeat 120%N 2000 ++ jq "'}".

Definition facts_of (r : option analysis * list api_call) : DetectedFacts :=
  match fst r with
  | Some a => detected a
  | None => initial
  end.

(** The manifest stage reads the snippet, which is the text cut to 2000
    characters: a longer manifest does not parse, and nothing of it is
    detected. *)
Example long_manifest_is_not_read :
  (exists pj, Json.parse long_manifest = Some pj /\
              get_opt (get pj (js "scripts")) (js "start") = Some (JStr (js "node server.js"))) /\
  entrypoint (facts_of (analyze [a_file "package.json"] [(js "package.json", long_manifest)]))
  = Unset /\
  hasTests (facts_of (analyze [a_file "package.json"] [(js "package.json", long_manifest)]))
  = false.
Proof.
  split; [|split; vm_compute; reflexivity].
  eexists. split; vm_compute; reflexivity.
Qed.

(** C7, as the claim states it, fails on a manifest that declares an empty
    start script: the test [pj.scripts.start] takes it for none, and the
    entry point is the fallback on [main]. *)
Lemma manifest_scripts_counterexample :
  Json.parse manifest_with_empty_start
  = Some (JObj [(js "main", JStr (js "index.js"));
                (js "scripts", JObj [(js "start", JStr []); (js "test", JStr (js "jest"))])]) /\
  entrypoint (facts_of (analyze [a_file "package.json"]
                                [(js "package.json", manifest_with_empty_start)]))
  = Value (JStr (js "node index.js")) /\
  Value (JStr (js "node index.js")) <> Value (JStr []).
Proof. repeat split; try (vm_compute; reflexivity). discriminate. Qed.

(** C7, amended.  For every analysis whose snippet of [package.json] (the
    fetched text, cut to 2000 characters) parses as JSON and declares a
    start script and a test script that are truthy (as a string that is not
    empty), [hasTests] is true, [testCommands] contains the test script and
    [entrypoint] is the start script.  The fallback [`node ${main}`] is the
    entry point when there is no truthy start script and [main] is truthy
    (and is a value [ToString] returns on, as a string is). *)
Theorem manifest_scripts (oct : octokit) (owner repo ref : jsstring) (a : analysis)
    (text : jsstring) (pj : json) :
  fst (analyzeRepo oct owner repo ref []) = Some a ->
  snippet "package.json" (snippets a) = Some text ->
  Json.parse text = Some pj ->
  (forall start test,
     get_opt (get pj (js "scripts")) (js "start") = Some start -> truthy start = true ->
     get_opt (get pj (js "scripts")) (js "test") = Some test -> truthy test = true ->
     hasTests (detected a) = true /\
     In test (testCommands (detected a)) /\
     entrypoint (detected a) = Value start) /\
  (truthy_opt (get_opt (get pj (js "scripts")) (js "start")) = false ->
   forall main, get pj (js "main") = Some main -> truthy main = true ->
                renders main = true ->
                entrypoint (detected a) = node_main main).
Proof.
  intros Ha Hs Hp.
  destruct (analysis_shape _ _ _ _ Ha) as (items & _ & -> & _).
  set (fc := snippets a) in *.
  destruct (package_json_scripts _ Hs Hp) as (P1 & P2 & P3).
  destruct (detect_frame items fc) as (D1 & _ & _ & D4). cbv zeta in D1, D4.
  destruct (docker_frame fc (python fc (package_json fc initial))) as (K1 & K2 & _ & _ & K5).
  destruct (python_frame fc (package_json fc initial)) as (Y1 & _ & _ & _ & _ & Y6 & Y7).
  split.
  - intros start test Hstart Hts Htest Htt.
    destruct (P2 test Htest Htt) as [Ph Pt].
    assert (Hh : hasTests (docker fc (python fc (package_json fc initial))) = true).
    { rewrite K2. apply Y6. exact Ph. }
    destruct (D4 Hh) as [-> ->]. split; [reflexivity|]. split.
    + rewrite K1. apply Y7. rewrite Pt. now left.
    + rewrite D1, K5; rewrite Y1, (P1 start Hstart Hts); [reflexivity|exact Hts].
  - intros Hno main Hmain Htm Hr.
    rewrite D1, K5; rewrite Y1, (P3 Hno main Hmain Htm Hr); [reflexivity|].
    apply node_main_truthy.
Qed.

Lemma manifest_scripts_witness :
  hasTests (facts_of (analyze [a_file "package.json"]
                        [(js "package.json",
                          jq "{'scripts':{'start':'node server.js','test':'jest'}}")])) = true /\
  In (JStr (js "jest"))
     (testCommands (facts_of (analyze [a_file "package.json"]
                        [(js "package.json",
                          jq "{'scripts':{'start':'node server.js','test':'jest'}}")]))) /\
  entrypoint (facts_of (analyze [a_file "package.json"]
                        [(js "package.json",
                          jq "{'scripts':{'start':'node server.js','test':'jest'}}")]))
  = Value (JStr (js "node server.js")).
Proof.
  refine (proj1 (@manifest_scripts
                   (client [a_file "package.json"]
                      [(js "package.json",
                        jq "{'scripts':{'start':'node server.js','test':'jest'}}")])
                   (js "octo") (js "demo") (js "main") _
                   (jq "{'scripts':{'start':'node server.js','test':'jest'}}")
                   (JObj [(js "scripts", JObj [(js "start", JStr (js "node server.js"));
                                               (js "test", JStr (js "jest"))])])
                   _ _ _)
                (JStr (js "node server.js")) (JStr (js "jest")) _ _ _ _);
    vm_compute; reflexivity.
Defined.

(** ** C5 *)

Definition lines (ls : list string) : jsstring :=
  flat_map (fun l => js l ++ [10%N]) ls.

Definition two_commands : jsstring :=
  lines ["FROM node:20"; "CMD first"; "EXPOSE 80 443"; "CMD second"]%string.

Definition dockerInfo_of (r : option analysis * list api_call) : option docker_info :=
  dockerInfo (facts_of r).

(** The group of the keyword pattern is the rest of the line after the
    leftmost occurrence of the keyword. *)
Lemma keyword_group kw df c :
  option_map trim (match_keyword kw df) = Some c <->
  exists n, keyword_occurs kw df n /\
            (forall m, m < n -> ~ keyword_occurs kw df m) /\
            c = trim (line_after kw df n).
Proof.
  destruct (match_keyword kw df) as [g|] eqn:E; cbn [option_map].
  - apply match_keyword_leftmost in E. destruct E as (n & Hn & Hfirst & ->). split.
    + intros Ec. injection Ec as <-. now exists n.
    + intros (n' & Hn' & Hfirst' & ->). do 2 f_equal.
      destruct (Nat.lt_trichotomy n n') as [H|[->|H]]; [|reflexivity|].
      * now apply Hfirst' in H.
      * now apply Hfirst in H.
  - split; [discriminate|]. intros (n & Hn & _).
    exfalso. exact (proj1 (match_keyword_none kw df) E n Hn).
Qed.

(** What the container stage detects from a [Dockerfile] snippet. *)
Lemma docker_run fc d df :
  snippet "Dockerfile" fc = Some df ->
  dockerInfo (docker fc d) = Some (docker_info_of df) /\
  entrypoint (docker fc d) =
    (if negb (truthy_entry (entrypoint d)) && truthy_header (cmd (docker_info_of df))
     then Value (JStr (string_of (cmd (docker_info_of df))))
     else entrypoint d).
Proof.
  intros Hdf. unfold docker. rewrite Hdf. cbv zeta. cbn [set_docker entrypoint].
  destruct (negb (truthy_entry (entrypoint d)) && truthy_header (cmd (docker_info_of df)));
    split; reflexivity.
Qed.

(** C5, as the claim states it, fails on a [Dockerfile] with two [CMD]
    lines, of which the code keeps the first, and on an [EXPOSE] line with
    two ports, of which the code keeps the first. *)
Lemma docker_facts_counterexample :
  dockerInfo_of (analyze [a_file "Dockerfile"] [(js "Dockerfile", two_commands)])
  = Some {| cmd := Some (js "first"); dock_entrypoint := None; exposedPorts := [js "80"] |}.
Proof. vm_compute. reflexivity. Qed.

(** C5, amended.  For every analysis whose snippets include [Dockerfile]
    or [docker-compose.yml], [hasDocker] is true.  From the snippet of
    [Dockerfile] (the fetched text, cut to 2000 characters), [dockerInfo]
    takes: as [cmd], the rest of the line after the first occurrence, in
    either case, of [CMD] followed by white space, trimmed; as
    [entrypoint], the same for [ENTRYPOINT]; as [exposedPorts], the number
    that follows each occurrence of [EXPOSE] and white space, in order of
    appearance.  When the manifest has set no entry point and [cmd] is not
    empty, [cmd] is the entry point.  On [EXPOSE 3000] and [EXPOSE 8080]
    the ports are [["3000", "8080"]]. *)
Theorem docker_facts (oct : octokit) (owner repo ref : jsstring) (a : analysis) :
  fst (analyzeRepo oct owner repo ref []) = Some a ->
  (snippet "Dockerfile" (snippets a) <> None \/
   snippet "docker-compose.yml" (snippets a) <> None ->
   hasDocker (detected a) = true) /\
  (forall df, snippet "Dockerfile" (snippets a) = Some df ->
     exists dock,
       dockerInfo (detected a) = Some dock /\
       (forall c, cmd dock = Some c <->
          exists n, keyword_occurs (js "cmd") df n /\
                    (forall m, m < n -> ~ keyword_occurs (js "cmd") df m) /\
                    c = trim (line_after (js "cmd") df n)) /\
       (forall c, dock_entrypoint dock = Some c <->
          exists n, keyword_occurs (js "entrypoint") df n /\
                    (forall m, m < n -> ~ keyword_occurs (js "entrypoint") df m) /\
                    c = trim (line_after (js "entrypoint") df n)) /\
       exposedPorts dock = expose_occurrences df /\
       (truthy_entry (entrypoint (package_json (snippets a) initial)) = false ->
        forall c, cmd dock = Some c -> c <> [] -> entrypoint (detected a) = Value (JStr c))) /\
  exposedPorts (docker_info_of (lines ["EXPOSE 3000"; "EXPOSE 8080"]%string)) = [js "3000"; js "8080"].
Proof.
  intros Ha. destruct (analysis_shape _ _ _ _ Ha) as (items & _ & -> & _).
  set (fc := snippets a) in *.
  destruct (detect_frame items fc) as (D1 & D2 & D3 & _). cbv zeta in D1, D2, D3.
  rewrite D1, D2, D3.
  destruct (python_frame fc (package_json fc initial)) as (Y1 & _).
  split; [|split; [|vm_compute; reflexivity]].
  - intros H. unfold docker.
    destruct (snippet "Dockerfile" fc), (snippet "docker-compose.yml" fc);
      try (destruct H as [H|H]; congruence); cases.
  - intros df Hdf. exists (docker_info_of df).
    destruct (@docker_run fc (python fc (package_json fc initial)) df Hdf) as [-> ->].
    split; [reflexivity|]. split; [apply keyword_group|]. split; [apply keyword_group|].
    split; [apply matchAll_expose_occurrences|].
    intros Hnone c Hc Hne. rewrite Y1, Hnone, Hc.
    destruct c as [|x c]; [congruence|]. reflexivity.
Qed.

Lemma docker_facts_witness :
  hasDocker (facts_of (analyze [a_file "Dockerfile"] [(js "Dockerfile", two_commands)])) = true.
Proof.
  refine (proj1 (@docker_facts
                   (client [a_file "Dockerfile"] [(js "Dockerfile", two_commands)])
                   (js "octo") (js "demo") (js "main") _ _) _).
  - vm_compute. reflexivity.
  - left. vm_compute. discriminate.
Defined.

(** ** C8 *)

(** The text of a path whose fetch stores a snippet: that of a file which
    is not empty. *)
Definition available (oct : octokit) (owner repo ref p : jsstring) : option jsstring :=
  match getContent oct owner repo p ref with
  | File text => if truthy_str text then Some text else None
  | Directory | Unavailable => None
  end.

Definition is_available (oct : octokit) (owner repo ref p : jsstring) : bool :=
  match available oct owner repo ref p with
  | Some _ => true
  | None => false
  end.

Lemma fetched_available oct owner repo ref p :
  fetched oct owner repo ref p =
  option_map (fun text => shortSnippet text 2000) (available oct owner repo ref p).
Proof.
  unfold fetched, available.
  destruct (getContent oct owner repo p ref) as [|text|]; try reflexivity.
  now destruct (truthy_str text).
Qed.

Lemma keys_collect_available oct owner repo ref paths :
  keys (collect oct owner repo ref paths) = filter (is_available oct owner repo ref) paths.
Proof.
  rewrite keys_collect. apply filter_ext. intros p.
  unfold is_available. rewrite fetched_available.
  now destruct (available oct owner repo ref p).
Qed.


Lemma assoc_collect oct owner repo ref paths p :
  In p (keys (collect oct owner repo ref paths)) ->
  assoc p (collect oct owner repo ref paths) = fetched oct owner repo ref p.
Proof.
  induction paths as [|q paths IH]; [intros []|].
  cbn [collect flat_map]. fold (collect oct owner repo ref paths).
  destruct (fetched oct owner repo ref q) as [text|] eqn:E; cbn [app]; [|exact IH].
  cbn [keys map fst In assoc]. fold (keys (collect oct owner repo ref paths)).
  destruct (str_eqb q p) eqn:Eq.
  - apply str_eqb_eq in Eq. subst q. now rewrite E.
  - intros [->|H]; [now rewrite str_eqb_refl in Eq|now apply IH].
Qed.


Lemma find_files_interest items acc :
  Forall (fun p => of_interest p = true) acc ->
  Forall (fun p => of_interest p = true) (find_files items acc).
Proof.
  revert acc. induction items as [|item items IH]; intros acc H; cbn [find_files]; [exact H|].
  destruct (negb (is_blob item)); [now apply IH|].
  destruct (of_interest (path item)) eqn:E; apply IH; [|exact H].
  apply Forall_app. split; [exact H|]. now repeat constructor.
Qed.

Lemma add_workflows_interest items acc :
  Forall (fun p => of_interest p = true) acc ->
  Forall (fun p => of_interest p = true) (add_workflows items acc).
Proof.
  revert acc. induction items as [|item items IH]; intros acc H; cbn [add_workflows]; [exact H|].
  destruct (is_blob item && startsWith CI_PATH_PREFIX (path item)) eqn:E; [|now apply IH].
  destruct (negb (arr_includes (path item) acc)); apply IH; [|exact H].
  apply Forall_app. split; [exact H|]. constructor; [|constructor].
  apply andb_true_iff in E. destruct E as [_ E]. unfold of_interest.
  rewrite E, orb_true_r. reflexivity.
Qed.

(** Only paths of interest are fetched. *)
Lemma fetch_list_interest items p : In p (fetch_list items) -> of_interest p = true.
Proof.
  unfold fetch_list. intros H.
  assert (Hin : In p (toFetch (add_workflows items (find_files items [])))).
  { rewrite <- (firstn_skipn 40). apply in_or_app. now left. }
  apply first_occurrences_fresh in Hin. destruct Hin as [_ Hin].
  apply in_app_or in Hin. destruct Hin as [Hin|Hin].
  - assert (F : Forall (fun p => of_interest p = true) priority) by now repeat constructor.
    rewrite Forall_forall in F. now apply F.
  - apply filter_In in Hin. destruct Hin as [Hin _].
    assert (F : Forall (fun p => of_interest p = true)
                  (add_workflows items (find_files items [])))
      by (apply add_workflows_interest, find_files_interest; constructor).
    rewrite Forall_forall in F. now apply F.
Qed.

(** What the README and LICENSE stage sets, on facts that have neither. *)
Lemma readme_license_run fc d :
  readme d = None -> license d = None ->
  readme (readme_license fc d) =
    match find (ci_test (js "readme")) (keys fc) with
    | Some p => Some (shortSnippet (string_of (assoc p fc)) 1500)
    | None => None
    end /\
  license (readme_license fc d) = find (ci_test (js "license")) (keys fc).
Proof.
  intros Hr Hl. unfold readme_license.
  destruct (find (ci_test (js "readme")) (keys fc)) as [p|] eqn:Ep;
    destruct (find (ci_test (js "license")) (keys fc)) as [q|] eqn:Eq;
    try (apply find_some in Ep; destruct Ep as [_ Ep]; destruct p; [discriminate|]);
    try (apply find_some in Eq; destruct Eq as [_ Eq]; destruct q; [discriminate|]);
    cbn [truthy_header truthy_str string_of set_readme set_license readme license];
    rewrite ?Hr, ?Hl; split; reflexivity.
Qed.

Lemma detect_readme_license items fc :
  readme (detect items fc) =
    match find (ci_test (js "readme")) (keys fc) with
    | Some p => Some (shortSnippet (string_of (assoc p fc)) 1500)
    | None => None
    end /\
  license (detect items fc) = find (ci_test (js "license")) (keys fc).
Proof.
  unfold detect.
  set (d := ci fc (docker fc (python fc (package_json fc initial)))).
  destruct (fallback_run_frame (generic_tests items (readme_license fc d)))
    as (_ & _ & _ & _ & _ & -> & ->).
  destruct (generic_tests_frame items (readme_license fc d)) as (_ & _ & _ & -> & -> & _).
  apply readme_license_run; subst d.
  - destruct (ci_frame fc (docker fc (python fc (package_json fc initial))))
      as (_ & _ & _ & _ & _ & -> & _).
    destruct (docker_frame fc (python fc (package_json fc initial))) as (_ & _ & -> & _).
    destruct (python_frame fc (package_json fc initial)) as (_ & _ & _ & -> & _).
    destruct (package_json_frame fc initial) as (_ & _ & -> & _). reflexivity.
  - destruct (ci_frame fc (docker fc (python fc (package_json fc initial))))
      as (_ & _ & _ & _ & _ & _ & ->).
    destruct (docker_frame fc (python fc (package_json fc initial))) as (_ & _ & _ & -> & _).
    destruct (python_frame fc (package_json fc initial)) as (_ & _ & _ & _ & -> & _).
    destruct (package_json_frame fc initial) as (_ & _ & _ & ->). reflexivity.
Qed.










End DetectFacts.

(* ================================================================== *)
(** * The webhook route: what holds of every request *)
(* ================================================================== *)

Module WebhookInvariants.

Import Buffer Crypto Webhook BufferFacts WebhookFacts Startup.

#[local] Opaque computed_signature Buffer.from Json.parse Buffer.toString.

(** The effects that come after the verification block: the parse warning
    and the log lines. *)
Definition after_verification (e : effect) : bool :=
  match e with
  | Warn_parse_failed | Log_received _ _ | Log_repository _ | Log_ping
  | Log_push _ _ | Log_pull_request _ _ => true
  | _ => false
  end.

(** The verification block, case by case. *)
Lemma verify_run cfg req :
  verify cfg req [] =
  if SKIP_WEBHOOK_VERIFY cfg then
    (Next tt, (if truthy_str (WEBHOOK_SECRET cfg) then [] else [Warn_secret_not_set]) ++
              [Warn_skipping_verification])
  else if negb (truthy_str (WEBHOOK_SECRET cfg)) then
    (Sent not_configured, [Warn_secret_not_set; Warn_rejecting_secret_missing])
  else if truthy_header (x_hub_signature_256 req) then
    check_signature sha256 (WEBHOOK_SECRET cfg) (string_of (x_hub_signature_256 req)) (body req) []
  else if truthy_header (x_hub_signature req) then
    check_signature sha1 (WEBHOOK_SECRET cfg) (string_of (x_hub_signature req)) (body req) []
  else (Sent missing_signature, [Warn_no_signature_header]).
Proof.
  unfold verify.
  destruct (SKIP_WEBHOOK_VERIFY cfg), (WEBHOOK_SECRET cfg) as [|c secret];
    cbn [truthy_str negb when bind ret emit app]; try reflexivity.
  destruct (truthy_header (x_hub_signature_256 req)); [reflexivity|].
  destruct (truthy_header (x_hub_signature req)); reflexivity.
Qed.

Lemma truthy_header_inv (o : option jsstring) :
  truthy_header o = true -> o = Some (string_of o) /\ string_of o <> [].
Proof. destruct o as [[|c s]|]; try discriminate. intros _. split; [reflexivity|discriminate]. Qed.


(** [req.headers['x-github-event'] || 'unknown'] and
    [req.headers['x-github-delivery'] || '']. *)
Definition kind_of (req : request) : jsstring :=
  if truthy_header (x_github_event req) then string_of (x_github_event req) else js "unknown".
Definition delivery_of (req : request) : jsstring :=
  if truthy_header (x_github_delivery req) then string_of (x_github_delivery req) else [].

Definition dispatch (req : request) : M Empty_set :=
  ev <- read_event req ;; log_event ev ;; send 200 (js "ok").

(** After the verification block the handler logs the event and answers
    [200 ok], unless a log line throws, which takes a payload that is an
    object; it compares nothing. *)
Lemma dispatch_cases req tr :
  exists l,
    comparisons l = [] /\ forallb after_verification l = true /\
    In (Log_received (kind_of req) (delivery_of req)) l /\
    (dispatch req tr = (Sent ok, tr ++ l) \/
     dispatch req tr = (Thrown, tr ++ l) /\
     exists p, parse_body (body req) = Some p /\ is_object p = true).
Proof.
  unfold dispatch, kind_of, delivery_of. cbv [read_event parse_payload].
  destruct (parse_body (body req)) as [v|].
  - cbv [log_event bind ret emit send when throw interpolate kind deliveryId payload].
    repeat match goal with
           | |- context [if ?b then _ else _] => destruct b eqn:?
           | |- context [match ?x with Some _ => _ | None => _ end] => destruct x eqn:?
           end;
      repeat rewrite <- app_assoc; cbn [app];
      (eexists; split; [|split; [|split]]; cycle 3;
       [first [left; reflexivity
              | right; split; [reflexivity|eexists; split; [reflexivity|assumption]]]
       | reflexivity | reflexivity | cbn [In]; tauto]).
  - cbv [log_event bind ret emit send when throw interpolate kind deliveryId payload
         empty_object is_object get get_opt lookup or_else truthy_opt].
    repeat match goal with
           | |- context [if ?b then _ else _] => destruct b
           end;
      repeat rewrite <- app_assoc; cbn [app];
      (eexists; split; [|split; [|split]]; cycle 3;
       [left; reflexivity | reflexivity | reflexivity | cbn [In]; tauto]).
Qed.


(** The route, given what the verification block does. *)
Lemma webhook_cases cfg req :
  match verify cfg req [] with
  | (Next _, tr) =>
      exists l,
        comparisons l = [] /\ forallb after_verification l = true /\
        In (Log_received (kind_of req) (delivery_of req)) l /\
        (webhook cfg req = (ok, tr ++ l) \/
         webhook cfg req = (server_error, (tr ++ l) ++ [Error_handler]) /\
         exists p, parse_body (body req) = Some p /\ is_object p = true)
  | (Sent r, tr) => webhook cfg req = (r, tr)
  | (Thrown, tr) => webhook cfg req = (server_error, tr ++ [Error_handler])
  end.
Proof.
  assert (H : handler cfg req [] =
              match verify cfg req [] with
              | (Next _, tr) => dispatch req tr
              | (Sent r, tr) => (Sent r, tr)
              | (Thrown, tr) => (Thrown, tr)
              end) by reflexivity.
  unfold webhook. rewrite H. clear H.
  destruct (verify cfg req []) as [[[]|r|] tr]; try reflexivity.
  destruct (dispatch_cases req tr) as (l & Hc & Ha & Hin & [E|[E Hp]]);
    exists l; (split; [exact Hc|]); (split; [exact Ha|]); (split; [exact Hin|]); rewrite E.
  - left. reflexivity.
  - right. split; [reflexivity|exact Hp].
Qed.

(** The three answers of the verification block. *)
Definition rejections : list response := [not_configured; missing_signature; invalid_signature].

(** Every call compares two buffers of one length. *)
Definition same_lengths (calls : list (buffer * buffer)) : Prop :=
  Forall (fun ab => List.length (fst ab) = List.length (snd ab)) calls.

(** A signature is to be verified, and there is no raw body to compute one
    from: verification is on, a secret is configured, a signature header is
    there and not empty, and [req.body] is no [Buffer]. *)
Definition nothing_to_sign (cfg : config) (req : request) : Prop :=
  SKIP_WEBHOOK_VERIFY cfg = false /\ WEBHOOK_SECRET cfg <> [] /\
  (exists alg header, inspects req alg header) /\
  body req = None.

(** What the verification block does, whatever the request: it neither
    parses nor logs the payload, it calls [crypto.timingSafeEqual] once at
    most and on buffers of one length, so that the call does not throw; it
    lets a request through when verification is switched off or when the
    header it inspects is the signature computed of the raw body, rejects
    it when that header is another or is missing, and throws, before it
    does anything, when it is to compute a signature of what is no
    [Buffer]. *)
Lemma verify_shape cfg req :
  exists o tr,
    verify cfg req [] = (o, tr) /\
    filter after_verification tr = [] /\
    List.length (comparisons tr) <= 1 /\
    same_lengths (comparisons tr) /\
    match o with
    | Next _ =>
        (SKIP_WEBHOOK_VERIFY cfg = true /\ comparisons tr = []) \/
        (SKIP_WEBHOOK_VERIFY cfg = false /\ WEBHOOK_SECRET cfg <> [] /\
         exists alg header raw,
           inspects req alg header /\ body req = Some raw /\
           header = computed_signature alg (WEBHOOK_SECRET cfg) raw)
    | Sent r => SKIP_WEBHOOK_VERIFY cfg = false /\ In r rejections /\ ~ nothing_to_sign cfg req
    | Thrown => nothing_to_sign cfg req /\ tr = []
    end.
Proof.
  rewrite verify_run. unfold same_lengths, rejections, nothing_to_sign.
  destruct (SKIP_WEBHOOK_VERIFY cfg).
  { do 2 eexists. split; [reflexivity|].
    destruct (truthy_str (WEBHOOK_SECRET cfg)); cbn; repeat split; auto. }
  destruct (WEBHOOK_SECRET cfg) as [|c secret] eqn:Es; cbn [truthy_str negb].
  { do 2 eexists. split; [reflexivity|]. cbn. repeat split; auto.
    intros (_ & H & _). now apply H. }
  rewrite <- Es.
  assert (Hs : WEBHOOK_SECRET cfg <> []) by (rewrite Es; discriminate).
  assert (C : forall alg header,
            inspects req alg header ->
            exists o tr,
              check_signature alg (WEBHOOK_SECRET cfg) header (body req) [] = (o, tr) /\
              filter after_verification tr = [] /\
              List.length (comparisons tr) <= 1 /\
              Forall (fun ab => List.length (fst ab) = List.length (snd ab)) (comparisons tr) /\
              match o with
              | Next _ =>
                  (false = true /\ comparisons tr = []) \/
                  (false = false /\ WEBHOOK_SECRET cfg <> [] /\
                   exists alg header raw,
                     inspects req alg header /\ body req = Some raw /\
                     header = computed_signature alg (WEBHOOK_SECRET cfg) raw)
              | Sent r => false = false /\
                          In r [not_configured; missing_signature; invalid_signature] /\
                          ~ (false = false /\ WEBHOOK_SECRET cfg <> [] /\
                             (exists alg header, inspects req alg header) /\
                             body req = None)
              | Thrown => (false = false /\ WEBHOOK_SECRET cfg <> [] /\
                           (exists alg header, inspects req alg header) /\
                           body req = None) /\ tr = []
              end).
  { intros alg header Hi. rewrite check_signature_run.
    destruct (body req) as [raw|] eqn:Hbody.
    2:{ do 2 eexists. split; [reflexivity|]. cbn [filter comparisons List.length].
        split; [reflexivity|]. split; [lia|]. split; [constructor|].
        split; [|reflexivity]. split; [reflexivity|]. split; [exact Hs|].
        split; [now exists alg, header|reflexivity]. }
    cbv zeta. cbn [app].
    assert (Hnot : ~ (false = false /\ WEBHOOK_SECRET cfg <> [] /\
                      (exists alg header, inspects req alg header) /\
                      Some raw = None)) by (intros (_ & _ & _ & H); discriminate).
    destruct (Nat.eqb _ _) eqn:Hlen; cbn [negb].
    - apply Nat.eqb_eq in Hlen.
      destruct (buffer_eqb _ _) eqn:Hb.
      + do 2 eexists. split; [reflexivity|]. cbn [filter after_verification comparisons List.length].
        split; [reflexivity|]. split; [lia|]. split; [repeat constructor; exact Hlen|].
        right. split; [reflexivity|]. split; [exact Hs|]. exists alg, header, raw.
        split; [exact Hi|]. split; [reflexivity|].
        apply buffer_eqb_eq in Hb. revert Hb. apply from_ascii_inj, computed_signature_ascii.
      + do 2 eexists. split; [reflexivity|]. cbn [filter after_verification comparisons List.length].
        split; [reflexivity|]. split; [lia|]. split; [repeat constructor; exact Hlen|].
        split; [reflexivity|]. split; [cbn [In]; tauto|exact Hnot].
    - do 2 eexists. split; [reflexivity|]. cbn [filter after_verification comparisons List.length].
      split; [reflexivity|]. split; [lia|]. split; [constructor|].
      split; [reflexivity|]. split; [cbn [In]; tauto|exact Hnot]. }
  destruct (truthy_header (x_hub_signature_256 req)) eqn:E256.
  { apply truthy_header_inv in E256. destruct E256 as [E Hne].
    apply C. now apply inspects_sha256. }
  destruct (truthy_header (x_hub_signature req)) eqn:E1.
  { apply truthy_header_inv in E1. destruct E1 as [E Hne].
    apply C. now apply inspects_sha1. }
  do 2 eexists. split; [reflexivity|]. cbn. repeat split; auto.
  intros (_ & _ & (alg & header & Hi) & _).
  destruct Hi as [h E Hh|h _ E Hh].
  - rewrite E in E256. destruct h; [congruence|discriminate].
  - rewrite E in E1. destruct h; [congruence|discriminate].
Qed.


Lemma verification_is_on (e : environment) :
  env_DEBUG_WEBHOOK_NO_VERIFY e <> Some (js "true") ->
  SKIP_WEBHOOK_VERIFY (configuration e) = false.
Proof.
  intros H. unfold configuration. cbn [SKIP_WEBHOOK_VERIFY].
  destruct (env_DEBUG_WEBHOOK_NO_VERIFY e) as [v|]; [|reflexivity].
  destruct (str_eqb v (js "true")) eqn:E; [|reflexivity].
  apply FetchFacts.str_eqb_eq in E. congruence.
Qed.

Lemma configured_secret (e : environment) :
  WEBHOOK_SECRET (configuration e) <> [] ->
  env_WEBHOOK_SECRET e = Some (WEBHOOK_SECRET (configuration e)).
Proof.
  unfold configuration. cbn [WEBHOOK_SECRET].
  destruct (env_WEBHOOK_SECRET e) as [[|c s]|]; cbn [truthy_header truthy_str string_of];
    congruence.
Qed.

(** X1. Unless [DEBUG_WEBHOOK_NO_VERIFY] is exactly ["true"], the route
    answers [200 ok] only to a request that carries a signature header which
    is not empty (the sha256 one, or the sha1 one when the sha256 one is
    absent or empty) and is the algorithm's prefix followed by the
    hexadecimal HMAC of the raw body, which is then there, under
    [WEBHOOK_SECRET], which is then set and not empty. *)
Theorem accepted_only_when_signed (e : environment) (req : request) :
  env_DEBUG_WEBHOOK_NO_VERIFY e <> Some (js "true") ->
  fst (webhook (configuration e) req) = ok ->
  exists secret alg header raw,
    env_WEBHOOK_SECRET e = Some secret /\ secret <> [] /\
    inspects req alg header /\
    body req = Some raw /\
    header = prefix alg ++ createHmac_hex alg secret raw.
Proof.
  intros Hdebug Hok. apply verification_is_on in Hdebug.
  pose proof (webhook_cases (configuration e) req) as W.
  destruct (verify_shape (configuration e) req) as (o & tr & Ev & _ & _ & _ & Ho).
  rewrite Ev in W. destruct o as [[]|r|].
  - destruct Ho as [[Hskip _]|(_ & Hs & alg & header & raw & Hi & Hb & Eh)]; [congruence|].
    exists (WEBHOOK_SECRET (configuration e)), alg, header, raw.
    split; [now apply configured_secret|]. split; [exact Hs|]. split; [exact Hi|].
    split; [exact Hb|exact Eh].
  - rewrite W in Hok. cbn [fst] in Hok. destruct Ho as (_ & Hr & _). subst r.
    unfold rejections in Hr. cbn [In] in Hr.
    destruct Hr as [Hr|[Hr|[Hr|[]]]]; discriminate.
  - rewrite W in Hok. discriminate.
Qed.

Lemma accepted_only_when_signed_witness :
  exists secret alg header raw,
    Some (js "s3cret") = Some secret /\ secret <> [] /\
    inspects (signed_request None (Some example_sha1)) alg header /\
    Some example_body = Some raw /\
    header = prefix alg ++ createHmac_hex alg secret raw.
Proof.
  refine (@accepted_only_when_signed
            {| env_WEBHOOK_SECRET := Some (js "s3cret"); env_DEBUG_WEBHOOK_NO_VERIFY := None |}
            (signed_request None (Some example_sha1)) _ _).
  - discriminate.
  - vm_compute. reflexivity.
Defined.

(** The request with other signature headers (or none). *)
Definition with_signatures (sig256 sig1 : option jsstring) (req : request) : request :=
  {| x_hub_signature_256 := sig256;
     x_hub_signature := sig1;
     x_github_event := x_github_event req;
     x_github_delivery := x_github_delivery req;
     body := body req |}.

(** X2. When [DEBUG_WEBHOOK_NO_VERIFY] is ["true"], no signature is
    compared, whether a secret is configured or not: the answer is [200 ok]
    (or [500 server error], when a log line throws), and the route answers
    and acts the same whatever the signature headers of the request are. *)
Theorem verification_switched_off (e : environment) (req : request) :
  env_DEBUG_WEBHOOK_NO_VERIFY e = Some (js "true") ->
  comparisons (snd (webhook (configuration e) req)) = [] /\
  (fst (webhook (configuration e) req) = ok \/
   fst (webhook (configuration e) req) = server_error) /\
  forall sig256 sig1,
    webhook (configuration e) (with_signatures sig256 sig1 req) = webhook (configuration e) req.
Proof.
  intros Hdebug.
  assert (Hskip : SKIP_WEBHOOK_VERIFY (configuration e) = true).
  { unfold configuration. cbn [SKIP_WEBHOOK_VERIFY]. rewrite Hdebug. reflexivity. }
  pose proof (webhook_cases (configuration e) req) as W.
  destruct (verify_shape (configuration e) req) as (o & tr & Ev & _ & _ & _ & Ho).
  rewrite Ev in W. destruct o as [[]|r|].
  - destruct Ho as [[_ Hc]|(Hoff & _)]; [|congruence].
    destruct W as (l & Hl & _ & _ & [W|[W _]]); rewrite W; cbn [fst snd];
      rewrite ?comparisons_app, Hc, Hl; (split; [reflexivity|]); (split; [tauto|]);
      intros sig256 sig1; rewrite <- W;
      unfold webhook, handler, verify, read_event;
      cbn [with_signatures x_hub_signature_256 x_hub_signature x_github_event
           x_github_delivery body];
      rewrite Hskip; reflexivity.
  - destruct Ho as [Hoff _]. congruence.
  - destruct Ho as [[Hoff _] _]. congruence.
Qed.

Lemma verification_switched_off_witness :
  comparisons (snd (webhook debug_config unparsable_request)) = [].
Proof.
  exact (proj1 (@verification_switched_off
                  {| env_WEBHOOK_SECRET := Some (js "s3cret");
                     env_DEBUG_WEBHOOK_NO_VERIFY := Some (js "true") |}
                  unparsable_request eq_refl)).
Defined.

(** X3. The payload is read only after verification: the route parses the
    body, or writes a log line about the event, exactly when the request
    has got through the verification block.  A request that has not is
    answered one of the three rejections of the block
    ([500 Webhook secret not configured on server],
    [401 Missing signature header], [401 Invalid signature]), or, when a
    signature is to be verified and [req.body] is no [Buffer],
    [500 server error]; a request that has is answered none of the three
    rejections. *)
Theorem payload_read_after_verification (cfg : config) (req : request) :
  (verified cfg req <-> filter after_verification (snd (webhook cfg req)) <> []) /\
  (~ verified cfg req ->
   (In (fst (webhook cfg req)) rejections /\ ~ nothing_to_sign cfg req) \/
   (webhook cfg req = (server_error, [Error_handler]) /\ nothing_to_sign cfg req)) /\
  (verified cfg req -> ~ In (fst (webhook cfg req)) rejections).
Proof.
  pose proof (webhook_cases cfg req) as W.
  destruct (verify_shape cfg req) as (o & tr & Ev & Hq & _ & _ & Ho).
  unfold verified. rewrite Ev in *. destruct o as [[]|r|].
  - destruct W as (l & _ & _ & Hin & W).
    assert (Hne : forall rest, filter after_verification ((tr ++ l) ++ rest) <> []).
    { intros rest E.
      assert (Hin' : In (Log_received (kind_of req) (delivery_of req))
                        (filter after_verification ((tr ++ l) ++ rest))).
      { apply filter_In. split; [|reflexivity].
        apply in_or_app. left. apply in_or_app. now right. }
      rewrite E in Hin'. exact Hin'. }
    assert (Hv : exists tr0, (Next tt, tr) = (@Next unit tt, tr0)) by now exists tr.
    split; [|split].
    + split; [intros _|intros _; exact Hv].
      destruct W as [W|[W _]]; rewrite W; cbn [snd]; [|apply Hne].
      rewrite <- (app_nil_r (tr ++ l)). apply Hne.
    + intros H. now destruct H.
    + intros _. unfold rejections. cbn [In].
      destruct W as [W|[W _]]; rewrite W; cbn [fst];
        intros [H|[H|[H|[]]]]; discriminate.
  - rewrite W. cbn [fst snd]. destruct Ho as (_ & Hr & Hn).
    split; [|split].
    + split; [intros (tr0 & E); discriminate|intros H; now destruct H].
    + intros _. left. split; [exact Hr|exact Hn].
    + intros (tr0 & E). discriminate.
  - rewrite W. cbn [fst snd]. destruct Ho as [Hn ->]. cbn [app].
    split; [|split].
    + split; [intros (tr0 & E); discriminate|intros H; now destruct H].
    + intros _. right. split; [reflexivity|exact Hn].
    + intros (tr0 & E). discriminate.
Qed.

(** X4. [crypto.timingSafeEqual] is called once at most for a request and
    only on buffers of one length, which is where it does not throw. *)
Theorem comparison_is_guarded (cfg : config) (req : request) :
  List.length (comparisons (snd (webhook cfg req))) <= 1 /\
  same_lengths (comparisons (snd (webhook cfg req))).
Proof.
  pose proof (webhook_cases cfg req) as W.
  destruct (verify_shape cfg req) as (o & tr & Ev & _ & Hone & Hsame & Ho).
  rewrite Ev in W. destruct o as [[]|r|].
  - destruct W as (l & Hl & _ & _ & [W|[W _]]); rewrite W; cbn [snd];
      rewrite ?comparisons_app, Hl, ?app_nil_r; cbn [comparisons]; rewrite ?app_nil_r;
      split; assumption.
  - rewrite W. cbn [snd]. split; assumption.
  - rewrite W. cbn [snd]. rewrite comparisons_app. cbn [comparisons]. rewrite app_nil_r.
    split; assumption.
Qed.

(** X5. The route has five answers and no other.  [500 server error] is
    given in two cases only: to a request that got through the
    verification block and whose body parsed to an object or an array (a
    log line threw), and to a request of which a signature is to be
    verified while [req.body] is no [Buffer], which is always answered so,
    nothing else being done. *)
Theorem webhook_answers (cfg : config) (req : request) :
  In (fst (webhook cfg req))
     [ok; invalid_signature; missing_signature; not_configured; server_error] /\
  (fst (webhook cfg req) = server_error ->
   (verified cfg req /\ exists p, parse_body (body req) = Some p /\ is_object p = true) \/
   nothing_to_sign cfg req) /\
  (nothing_to_sign cfg req -> webhook cfg req = (server_error, [Error_handler])).
Proof.
  pose proof (webhook_cases cfg req) as W.
  destruct (verify_shape cfg req) as (o & tr & Ev & _ & _ & _ & Ho).
  unfold verified. rewrite Ev in *. destruct o as [[]|r|].
  - assert (Hn : ~ nothing_to_sign cfg req).
    { intros (Hoff & _ & _ & Hb).
      destruct Ho as [[Hon _]|(_ & _ & alg & header & raw & _ & Hraw & _)]; congruence. }
    destruct W as (l & _ & _ & _ & [W|[W Hp]]); rewrite W; cbn [fst In].
    + split; [tauto|]. split; [discriminate|]. intros H. now destruct Hn.
    + split; [tauto|]. split; [|intros H; now destruct Hn].
      intros _. left. split; [now exists tr|exact Hp].
  - rewrite W. cbn [fst]. destruct Ho as (_ & Hr & Hn). unfold rejections in Hr. cbn [In] in *.
    split; [tauto|]. split; [|intros H; now destruct Hn].
    intros ->. destruct Hr as [Hr|[Hr|[Hr|[]]]]; discriminate.
  - rewrite W. cbn [fst]. destruct Ho as [Hn ->]. cbn [In app].
    split; [tauto|]. split; [intros _; now right|intros _; reflexivity].
Qed.

End WebhookInvariants.

(* ================================================================== *)
(** * The analysis: what holds of every result *)
(* ================================================================== *)

Module AnalysisInvariants.

Import Analyze FetchFacts DetectFacts Github.

(** ** The snippets *)

Lemma shortSnippet_length (text : jsstring) (max : nat) :
  List.length (shortSnippet text max) <= max + 15.
Proof.
  unfold shortSnippet. destruct (truthy_str text); cbn [negb List.length]; [|lia].
  destruct (Nat.ltb_spec max (List.length text)) as [H|H]; [|lia].
  unfold slice0. rewrite length_app, length_firstn. cbn. lia.
Qed.

Lemma shortSnippet_truthy (text : jsstring) (max : nat) :
  truthy_str text = true -> truthy_str (shortSnippet text max) = true.
Proof.
  intros H. unfold shortSnippet. rewrite H. cbn [negb].
  destruct (Nat.ltb max (List.length text)); [|exact H].
  unfold slice0. destruct (firstn max text); reflexivity.
Qed.

(** A snippet as the fetch loop stores it. *)
Definition stored (kv : jsstring * jsstring) : Prop :=
  truthy_str (snd kv) = true /\ List.length (snd kv) <= 2015.

Lemma collect_stored oct owner repo ref paths :
  Forall stored (collect oct owner repo ref paths).
Proof.
  induction paths as [|p paths IH]; [constructor|].
  cbn [collect flat_map]. fold (collect oct owner repo ref paths).
  destruct (fetched oct owner repo ref p) as [text|] eqn:E; cbn [app]; [|exact IH].
  constructor; [|exact IH]. unfold fetched in E.
  destruct (getContent oct owner repo p ref) as [|t|]; try discriminate.
  destruct (truthy_str t) eqn:Et; [|discriminate]. injection E as <-.
  split; cbn [snd]; [now apply shortSnippet_truthy|apply (shortSnippet_length t 2000)].
Qed.

Lemma NoDup_filter {A} (f : A -> bool) (l : list A) : NoDup l -> NoDup (filter f l).
Proof.
  induction 1 as [|x l Hx _ IH]; cbn [filter]; [constructor|].
  destruct (f x); [|exact IH]. constructor; [|exact IH].
  intros H. apply filter_In in H. tauto.
Qed.

Lemma fetch_list_NoDup items : NoDup (fetch_list items).
Proof. apply firstn_NoDup, toFetch_NoDup. Qed.

Lemma filter_length_le {A} (f : A -> bool) (l : list A) :
  List.length (filter f l) <= List.length l.
Proof.
  induction l as [|x l IH]; cbn [filter List.length]; [lia|].
  destruct (f x); cbn [List.length]; lia.
Qed.

(** ** The files found *)

(** A blob whose path is of interest. *)
Definition interesting (t : tree_entry) : bool := is_blob t && of_interest (path t).

Lemma find_files_filter items acc :
  find_files items acc = acc ++ map path (filter interesting items).
Proof.
  revert acc. induction items as [|t items IH]; intros acc; cbn [find_files filter map].
  - now rewrite app_nil_r.
  - unfold interesting at 1. destruct (is_blob t); cbn [negb andb]; [|apply IH].
    destruct (of_interest (path t)); [|apply IH].
    rewrite IH, <- app_assoc. reflexivity.
Qed.

Lemma add_workflows_found items acc :
  (forall t, In t items -> is_blob t = true -> startsWith CI_PATH_PREFIX (path t) = true ->
             In (path t) acc) ->
  add_workflows items acc = acc.
Proof.
  induction items as [|t items IH]; intros H; cbn [add_workflows]; [reflexivity|].
  destruct (is_blob t && startsWith CI_PATH_PREFIX (path t)) eqn:E.
  - apply andb_true_iff in E. destruct E as [Eb Ew].
    assert (Hin : In (path t) acc) by (apply H; [now left|exact Eb|exact Ew]).
    apply arr_includes_In in Hin. rewrite Hin. cbn [negb].
    apply IH. intros t' Ht'. apply H. now right.
  - apply IH. intros t' Ht'. apply H. now right.
Qed.

Lemma filesFound_filter items :
  add_workflows items (find_files items []) = map path (filter interesting items).
Proof.
  rewrite find_files_filter. cbn [app]. apply add_workflows_found.
  intros t Hin Hb Hw. apply in_map. apply filter_In. split; [exact Hin|].
  unfold interesting, of_interest. rewrite Hb, Hw, orb_true_r. reflexivity.
Qed.


(** ** The detected facts *)

Definition package_managers : list (option jsstring) :=
  [None; Some (js "npm|yarn"); Some (js "pip/poetry/pipenv")].

Definition project_types : list (option jsstring) :=
  [None; Some (js "node-project"); Some (js "python-project"); Some (js "dockerized-app")].

(** Facts that agree with each other: a flag is set exactly when the list
    or the record it announces is there, and the two labels are among those
    the code writes. *)
Definition coherent (d : DetectedFacts) : Prop :=
  (hasTests d = true <-> testCommands d <> []) /\
  (hasCI d = true <-> ciFiles d <> []) /\
  (hasDocker d = true <-> dockerInfo d <> None) /\
  In (packageManager d) package_managers /\
  In (projectType d) project_types.

Lemma coherent_let (X : DetectedFacts) (f : DetectedFacts -> DetectedFacts) :
  coherent X -> (forall d, coherent d -> coherent (f d)) -> coherent (let d := X in f d).
Proof. intros H Hf. exact (Hf X H). Qed.

Lemma app_one_not_nil {A} (l : list A) (x : A) : l ++ [x] <> [].
Proof. destruct l; discriminate. Qed.

Lemma coherent_packageManager v d :
  In v package_managers -> coherent d -> coherent (set_packageManager v d).
Proof. intros Hv (H1 & H2 & H3 & H4 & H5). repeat split; try apply H1; try apply H2; try apply H3; assumption. Qed.

Lemma coherent_packageManager_default (v : string) d :
  In (Some (js v)) package_managers -> coherent d ->
  coherent (set_packageManager (or_default (packageManager d) v) d).
Proof.
  intros Hv H. apply coherent_packageManager; [|exact H].
  destruct H as (_ & _ & _ & H4 & _). unfold or_default.
  now destruct (truthy_header (packageManager d)).
Qed.

Lemma coherent_runCommands v d : coherent d -> coherent (set_runCommands v d).
Proof. intros H. exact H. Qed.

Lemma coherent_entrypoint v d : coherent d -> coherent (set_entrypoint v d).
Proof. intros H. exact H. Qed.

Lemma coherent_tests x d :
  coherent d -> coherent (set_hasTests (set_testCommands (testCommands d ++ [x]) d)).
Proof.
  intros (H1 & H2 & H3 & H4 & H5). repeat split; try apply H2; try apply H3; try assumption.
  intros _. apply app_one_not_nil.
Qed.

Lemma coherent_tests' x d :
  coherent d -> coherent (set_testCommands (testCommands d ++ [x]) (set_hasTests d)).
Proof.
  intros (H1 & H2 & H3 & H4 & H5). repeat split; try apply H2; try apply H3; try assumption.
  intros _. apply app_one_not_nil.
Qed.

Lemma coherent_projectType (v : string) d :
  In (Some (js v)) project_types -> coherent d ->
  coherent (set_projectType (or_default (projectType d) v) d).
Proof.
  intros Hv (H1 & H2 & H3 & H4 & H5).
  repeat split; try apply H1; try apply H2; try apply H3; try assumption.
  cbn [set_projectType projectType]. unfold or_default.
  now destruct (truthy_header (projectType d)).
Qed.

Lemma coherent_docker dock d : coherent d -> coherent (set_docker dock d).
Proof.
  intros (H1 & H2 & H3 & H4 & H5). repeat split; try apply H1; try apply H2; try assumption.
  discriminate.
Qed.

Lemma coherent_ci l d : l <> [] -> coherent d -> coherent (set_ci l d).
Proof.
  intros Hl (H1 & H2 & H3 & H4 & H5). repeat split; try apply H1; try apply H3; try assumption.
  intros _. exact Hl.
Qed.

Lemma coherent_readme v d : coherent d -> coherent (set_readme v d).
Proof. intros H. exact H. Qed.

Lemma coherent_license v d : coherent d -> coherent (set_license v d).
Proof. intros H. exact H. Qed.

(** One step through a heuristic: a binding, a test, or an assignment. *)
Ltac walk :=
  lazymatch goal with
  | |- coherent (let d := ?X in @?f d) =>
      first [ refine (@coherent_let X f _ _); [|intros ? ?; cbv beta]
            | change (coherent (f X)); cbv beta ]
  | |- coherent (if ?b then _ else _) => destruct b
  | |- coherent (match ?x with _ => _ end) => destruct x
  | |- coherent (set_packageManager (or_default _ _) _) => apply coherent_packageManager_default
  | |- coherent (set_packageManager _ _) => apply coherent_packageManager
  | |- coherent (set_runCommands _ _) => apply coherent_runCommands
  | |- coherent (set_entrypoint _ _) => apply coherent_entrypoint
  | |- coherent (set_hasTests (set_testCommands _ _)) => apply coherent_tests
  | |- coherent (set_testCommands _ (set_hasTests _)) => apply coherent_tests'
  | |- coherent (set_projectType _ _) => apply coherent_projectType
  | |- coherent (set_docker _ _) => apply coherent_docker
  | |- coherent (set_ci _ _) => apply coherent_ci
  | |- coherent (set_readme _ _) => apply coherent_readme
  | |- coherent (set_license _ _) => apply coherent_license
  | |- coherent _ => assumption
  | |- In _ _ => unfold package_managers, project_types; cbn [In]; auto 6
  | |- _ <> [] => discriminate
  end.

Lemma initial_coherent : coherent initial.
Proof.
  unfold coherent, initial, package_managers, project_types.
  cbn [hasTests testCommands hasCI ciFiles hasDocker dockerInfo packageManager projectType In].
  repeat split; try discriminate; try congruence; auto.
Qed.

Lemma package_json_coherent fc d : coherent d -> coherent (package_json fc d).
Proof. intros H. cbv beta delta [package_json]. repeat walk. Qed.

Lemma python_coherent fc d : coherent d -> coherent (python fc d).
Proof. intros H. cbv beta delta [python]. repeat walk. Qed.

Lemma docker_coherent fc d : coherent d -> coherent (docker fc d).
Proof. intros H. cbv beta delta [docker]. repeat walk. Qed.

Lemma ci_coherent fc d : coherent d -> coherent (ci fc d).
Proof. intros H. cbv beta delta [ci]. repeat walk. Qed.

Lemma readme_license_coherent fc d : coherent d -> coherent (readme_license fc d).
Proof. intros H. cbv beta delta [readme_license]. repeat walk. Qed.

Lemma generic_tests_coherent items d : coherent d -> coherent (generic_tests items d).
Proof. intros H. cbv beta delta [generic_tests]. repeat walk. Qed.

Lemma fallback_run_coherent d : coherent d -> coherent (fallback_run d).
Proof. intros H. cbv beta delta [fallback_run]. repeat walk. Qed.

Lemma detect_coherent items fc : coherent (detect items fc).
Proof.
  unfold detect.
  apply fallback_run_coherent, generic_tests_coherent, readme_license_coherent, ci_coherent,
    docker_coherent, python_coherent, package_json_coherent, initial_coherent.
Qed.

Lemma detect_runCommands items fc : runCommands (detect items fc) <> [].
Proof.
  unfold detect.
  set (d := generic_tests items _). unfold fallback_run.
  destruct (runCommands d) eqn:E; [cbn [set_runCommands runCommands]|rewrite E]; discriminate.
Qed.


(** ** Going through a heuristic *)

Lemma through_let (P : DetectedFacts -> Prop) (X : DetectedFacts)
    (f : DetectedFacts -> DetectedFacts) :
  P X -> (forall d, P d -> P (f d)) -> P (let d := X in f d).
Proof. intros H Hf. exact (Hf X H). Qed.

(** One step through a heuristic for a property [P] of the facts that the
    assignments met on the way leave as it is. *)
Ltac through :=
  lazymatch goal with
  | |- ?P (let d := ?X in @?f d) =>
      first [ refine (@through_let P X f _ _); [|intros ? ?; cbv beta]
            | change (P (f X)); cbv beta ]
  | |- ?P (if true then ?e else _) => change (P e)
  | |- ?P (if false then _ else ?e) => change (P e)
  | |- ?P (if ?b then _ else _) => destruct b
  | |- ?P (match ?x with _ => _ end) => destruct x
  | |- ?P (set_hasTests ?d) => first [assumption | change (P d)]
  | |- ?P (?setter ?v ?d) => first [assumption | change (P d)]
  | |- _ => assumption
  end.

(** The facts about workflows, the package manager and the run commands
    are those of [d0]. *)
Definition same_ci (d0 d : DetectedFacts) : Prop :=
  hasCI d = hasCI d0 /\ ciFiles d = ciFiles d0.
Definition same_packageManager (d0 d : DetectedFacts) : Prop :=
  packageManager d = packageManager d0.
Definition same_runCommands (d0 d : DetectedFacts) : Prop :=
  runCommands d = runCommands d0.
Definition same_tests (d0 d : DetectedFacts) : Prop :=
  hasTests d = hasTests d0 /\ testCommands d = testCommands d0.

(** ** What sets the labels and the flags *)

(** The manifest stage sets the package manager as soon as the snippet
    parses. *)
Definition npm_managed (d : DetectedFacts) : Prop :=
  packageManager d = Some (js "npm|yarn").

Lemma package_json_packageManager fc d :
  packageManager (package_json fc d) =
  match snippet "package.json" fc with
  | Some text =>
      match Json.parse text with
      | Some _ => Some (js "npm|yarn")
      | None => packageManager d
      end
  | None => packageManager d
  end.
Proof.
  cbv beta delta [package_json].
  destruct (snippet "package.json" fc) as [text|]; [|reflexivity].
  destruct (Json.parse text) as [pj|]; [|reflexivity].
  match goal with |- packageManager ?t = _ => change (npm_managed t) end.
  through; [reflexivity|]. repeat through.
Qed.

(** A snippet of one of the four Python files is there. *)
Definition python_files (fc : file_contents) : bool :=
  match snippet "requirements.txt" fc, snippet "pyproject.toml" fc,
        snippet "Pipfile" fc, snippet "setup.py" fc with
  | None, None, None, None => false
  | _, _, _, _ => true
  end.

Lemma python_packageManager fc d :
  packageManager (python fc d) =
  if python_files fc then or_default (packageManager d) "pip/poetry/pipenv"
  else packageManager d.
Proof. unfold python, python_files. cases. Qed.

Lemma fallback_run_keeps d :
  same_packageManager d (fallback_run d) /\ same_ci d (fallback_run d) /\
  same_tests d (fallback_run d).
Proof. unfold fallback_run. destruct (runCommands d); repeat split. Qed.

Lemma generic_tests_keeps items d :
  same_packageManager d (generic_tests items d) /\ same_ci d (generic_tests items d) /\
  same_runCommands d (generic_tests items d).
Proof. unfold generic_tests. repeat split; cases. Qed.

Lemma readme_license_keeps fc d :
  same_packageManager d (readme_license fc d) /\ same_ci d (readme_license fc d) /\
  same_runCommands d (readme_license fc d) /\ same_tests d (readme_license fc d).
Proof. unfold readme_license. repeat split; cases. Qed.

Lemma ci_keeps fc d :
  same_packageManager d (ci fc d) /\ same_runCommands d (ci fc d) /\ same_tests d (ci fc d).
Proof. unfold ci. repeat split; cases. Qed.

Lemma docker_keeps fc d :
  same_packageManager d (docker fc d) /\ same_ci d (docker fc d) /\
  same_runCommands d (docker fc d) /\ same_tests d (docker fc d).
Proof. unfold docker. repeat split; cases. Qed.

Lemma python_keeps fc d : same_ci d (python fc d) /\ same_runCommands d (python fc d).
Proof. unfold python. repeat split; cases. Qed.

Lemma package_json_keeps fc d : same_ci d (package_json fc d).
Proof.
  assert (H : same_ci d d) by (split; reflexivity).
  cbv beta delta [package_json]. repeat through.
Qed.

Lemma later_stages_keep_labels items fc d :
  packageManager (fallback_run (generic_tests items (readme_license fc (ci fc (docker fc d)))))
  = packageManager d.
Proof.
  rewrite (proj1 (fallback_run_keeps _)), (proj1 (generic_tests_keeps _ _)),
    (proj1 (readme_license_keeps _ _)), (proj1 (ci_keeps _ _)), (proj1 (docker_keeps _ _)).
  reflexivity.
Qed.

Lemma detect_packageManager items fc :
  packageManager (detect items fc) =
  match snippet "package.json" fc with
  | Some text =>
      match Json.parse text with
      | Some _ => Some (js "npm|yarn")
      | None => if python_files fc then Some (js "pip/poetry/pipenv") else None
      end
  | None => if python_files fc then Some (js "pip/poetry/pipenv") else None
  end.
Proof.
  unfold detect. rewrite later_stages_keep_labels, python_packageManager,
    package_json_packageManager.
  destruct (snippet "package.json" fc) as [text|]; [destruct (Json.parse text)|];
    destruct (python_files fc); reflexivity.
Qed.


(** ** The test commands *)

(** The test script of the manifest, when the snippet parses and the script
    is truthy. *)
Definition test_script (fc : file_contents) : option json :=
  match snippet "package.json" fc with
  | Some text =>
      match Json.parse text with
      | Some pj =>
          if truthy_opt (get_opt (get pj (js "scripts")) (js "test"))
          then get_opt (get pj (js "scripts")) (js "test")
          else None
      | None => None
      end
  | None => None
  end.

(** The snippet of [pyproject.toml] contains ["[tool.pytest]"]. *)
Definition pytest_configured (fc : file_contents) : bool :=
  match snippet "pyproject.toml" fc with
  | Some text => includes (js "[tool.pytest]") text
  | None => false
  end.

(** A path of the tree has a component [test], [tests] or [__tests__]. *)
Definition has_test_folder (items : list tree_entry) : bool :=
  existsb (fun t => test_folder (path t)) items.

Lemma truthy_get_opt (o : option json) (k : jsstring) :
  truthy_opt (get_opt o k) = true -> truthy_opt o = true.
Proof.
  destruct o as [v|]; [|discriminate]. destruct v; try discriminate; reflexivity.
Qed.

Lemma package_json_tests fc :
  hasTests (package_json fc initial) =
    match test_script fc with Some _ => true | None => false end /\
  testCommands (package_json fc initial) =
    match test_script fc with Some t => [t] | None => [] end.
Proof.
  unfold test_script.
  destruct (snippet "package.json" fc) as [text|] eqn:Es;
    [|unfold package_json; rewrite Es; split; reflexivity].
  destruct (Json.parse text) as [pj|] eqn:Ep;
    [|unfold package_json; rewrite Es, Ep; split; reflexivity].
  destruct (truthy_opt (get_opt (get pj (js "scripts")) (js "test"))) eqn:Et.
  - destruct (get_opt (get pj (js "scripts")) (js "test")) as [t|] eqn:Eg; [|discriminate].
    destruct (package_json_scripts _ Es Ep) as (_ & H & _).
    exact (H t Eg Et).
  - assert (H : same_tests initial (package_json fc initial)); [|exact H].
    assert (H0 : same_tests initial initial) by (split; reflexivity).
    cbv beta delta [package_json]. rewrite Es, Ep.
    through; [exact H0|]. through; [assumption|..];
      repeat first [rewrite Et | rewrite andb_false_r | through].
Qed.

Lemma python_tests fc d :
  hasTests (python fc d) = hasTests d || pytest_configured fc /\
  testCommands (python fc d) =
    testCommands d ++ (if pytest_configured fc then [JStr (js "pytest")] else []).
Proof.
  unfold python, pytest_configured.
  destruct (snippet "requirements.txt" fc), (snippet "pyproject.toml" fc) as [text|],
    (snippet "Pipfile" fc), (snippet "setup.py" fc);
    try destruct (includes (js "[tool.pytest]") text);
    cbn [set_projectType set_testCommands set_hasTests set_packageManager hasTests
         testCommands];
    rewrite ?orb_true_r, ?orb_false_r, ?app_nil_r; split; reflexivity.
Qed.

(** The guess made from a test folder. *)
Definition guessed_test_command (d : DetectedFacts) : json :=
  JStr (if truthy_header (packageManager d) && includes (js "npm") (string_of (packageManager d))
        then js "npm test" else js "pytest").

Lemma generic_tests_tests items d :
  hasTests (generic_tests items d) = hasTests d || has_test_folder items /\
  testCommands (generic_tests items d) =
    testCommands d ++
    (if negb (hasTests d) && has_test_folder items then [guessed_test_command d] else []).
Proof.
  unfold generic_tests, has_test_folder, guessed_test_command.
  destruct (hasTests d) eqn:E; cbn [negb andb orb].
  - rewrite E, app_nil_r. split; reflexivity.
  - destruct (existsb _ items); cbn [set_testCommands set_hasTests hasTests testCommands];
      rewrite ?E, ?app_nil_r; split; reflexivity.
Qed.

Lemma detect_tests items fc :
  let d := python fc (package_json fc initial) in
  hasTests (detect items fc) = hasTests d || has_test_folder items /\
  testCommands (detect items fc) =
    testCommands d ++
    (if negb (hasTests d) && has_test_folder items
     then [JStr (if match packageManager d with
                    | Some pm => str_eqb pm (js "npm|yarn")
                    | None => false
                    end
                 then js "npm test" else js "pytest")]
     else []).
Proof.
  cbv zeta. unfold detect.
  set (d := python fc (package_json fc initial)).
  destruct (fallback_run_keeps (generic_tests items (readme_license fc (ci fc (docker fc d)))))
    as (_ & _ & -> & ->).
  destruct (generic_tests_tests items (readme_license fc (ci fc (docker fc d)))) as [-> ->].
  destruct (readme_license_keeps fc (ci fc (docker fc d))) as (Hpm1 & _ & _ & -> & ->).
  destruct (ci_keeps fc (docker fc d)) as (Hpm2 & _ & -> & ->).
  destruct (docker_keeps fc d) as (Hpm3 & _ & _ & -> & ->).
  split; [reflexivity|]. f_equal.
  destruct (negb (hasTests d) && has_test_folder items); [|reflexivity].
  unfold guessed_test_command. unfold same_packageManager in *. rewrite Hpm1, Hpm2, Hpm3.
  assert (Hin : In (packageManager d) package_managers).
  { subst d. destruct (python_coherent fc (package_json_coherent fc initial_coherent))
      as (_ & _ & _ & H & _). exact H. }
  unfold package_managers in Hin. cbn [In] in Hin.
  destruct Hin as [<-|[<-|[<-|[]]]]; reflexivity.
Qed.

(** ** The workflow files *)

Lemma detect_ci items fc :
  ciFiles (detect items fc) = filter (startsWith CI_PATH_PREFIX) (keys fc) /\
  (hasCI (detect items fc) = true <-> filter (startsWith CI_PATH_PREFIX) (keys fc) <> []).
Proof.
  unfold detect.
  set (d := docker fc (python fc (package_json fc initial))).
  destruct (fallback_run_keeps (generic_tests items (readme_license fc (ci fc d))))
    as (_ & [-> ->] & _).
  destruct (generic_tests_keeps items (readme_license fc (ci fc d))) as (_ & [-> ->] & _).
  destruct (readme_license_keeps fc (ci fc d)) as (_ & [-> ->] & _).
  assert (Hd : hasCI d = false /\ ciFiles d = []).
  { subst d.
    destruct (docker_keeps fc (python fc (package_json fc initial))) as (_ & [-> ->] & _).
    destruct (python_keeps fc (package_json fc initial)) as ([-> ->] & _).
    destruct (package_json_keeps fc initial) as [-> ->]. split; reflexivity. }
  destruct Hd as [Hd1 Hd2]. unfold ci.
  destruct (filter (startsWith CI_PATH_PREFIX) (keys fc)) as [|p l].
  - rewrite Hd1, Hd2. split; [reflexivity|]. split; [discriminate|congruence].
  - cbn [set_ci ciFiles hasCI]. split; [reflexivity|]. split; [discriminate|reflexivity].
Qed.


(** ** The run commands *)

(** The values of the scripts of the manifest, when the snippet parses. *)
Definition script_values (fc : file_contents) : list json :=
  match snippet "package.json" fc with
  | Some text =>
      match Json.parse text with
      | Some pj =>
          if truthy_opt (get pj (js "scripts")) then get_values (get pj (js "scripts")) else []
      | None => []
      end
  | None => []
  end.

Definition has_runCommands (v : list json) (d : DetectedFacts) : Prop := runCommands d = v.

Lemma let_eq (P : DetectedFacts -> Prop) (X : DetectedFacts)
    (f : DetectedFacts -> DetectedFacts) :
  (forall d, d = X -> P (f d)) -> P (let d := X in f d).
Proof. intros Hf. exact (Hf X eq_refl). Qed.

(** A binding is opened, and the value bound kept. *)
Ltac open_let :=
  lazymatch goal with
  | |- ?P (let d := ?X in @?f d) =>
      first [ refine (@let_eq P X f _); intros ? ?; cbv beta
            | change (P (f X)); cbv beta ]
  end.

Lemma package_json_runCommands fc : runCommands (package_json fc initial) = script_values fc.
Proof.
  unfold script_values. cbv beta delta [package_json].
  destruct (snippet "package.json" fc) as [text|]; [|reflexivity].
  destruct (Json.parse text) as [pj|]; [|reflexivity].
  match goal with |- runCommands ?t = ?v => change (has_runCommands v t) end.
  open_let. destruct pj; [subst; reflexivity|..];
    (open_let; open_let;
     lazymatch goal with
     | E : ?d1 = set_runCommands _ _ |- has_runCommands ?v ?t =>
         assert (K : same_runCommands d1 t);
         [ assert (same_runCommands d1 d1) by reflexivity; repeat through
         | refine (eq_trans K _); subst; reflexivity ]
     end).
Qed.

Lemma detect_runCommands_before items fc :
  runCommands (generic_tests items
                 (readme_license fc (ci fc (docker fc (python fc (package_json fc initial))))))
  = script_values fc.
Proof.
  rewrite (proj2 (proj2 (generic_tests_keeps _ _))).
  rewrite (proj1 (proj2 (proj2 (readme_license_keeps _ _)))).
  rewrite (proj1 (proj2 (ci_keeps _ _))).
  rewrite (proj1 (proj2 (proj2 (docker_keeps _ _)))).
  rewrite (proj2 (python_keeps _ _)).
  apply package_json_runCommands.
Qed.

(** The hint given when the manifest brings no run command. *)
Definition run_hint (d : DetectedFacts) : jsstring :=
  match packageManager d with
  | Some pm =>
      if str_eqb pm (js "npm|yarn") then js "npm install && npm start"
      else js "pip install -r requirements.txt && python main.py"
  | None =>
      if hasDocker d then js "docker build -t myapp . && docker run -p 3000:3000 myapp"
      else js "Check project files for run instructions"
  end.

Lemma detect_runCommands_eq items fc :
  runCommands (detect items fc) =
  match script_values fc with
  | [] => [JStr (run_hint (detect items fc))]
  | _ :: _ => script_values fc
  end.
Proof.
  pose proof (detect_coherent items fc) as (_ & _ & _ & Hpm & _).
  pose proof (detect_runCommands_before items fc) as Hr.
  unfold detect in *.
  set (d := generic_tests items _) in *.
  destruct (fallback_run_frame d) as (_ & _ & _ & Hd & _).
  destruct (fallback_run_keeps d) as (Hk & _).
  unfold run_hint. rewrite Hd. unfold same_packageManager in Hk. rewrite Hk in *.
  unfold fallback_run. rewrite Hr.
  destruct (script_values fc) as [|c l]; [|exact Hr].
  cbn [set_runCommands runCommands]. do 2 f_equal.
  unfold package_managers in Hpm. cbn [In] in Hpm.
  destruct Hpm as [<-|[<-|[<-|[]]]]; reflexivity.
Qed.


(** ** A repository used as an example *)

Definition demo_tree : list tree_entry :=
  [a_file "package.json"; a_file "README.md"; a_folder "tests"; a_file "tests/app.test.js";
   a_file ".github/workflows/ci.yml"; a_file "Dockerfile"; a_file "src/index.js"].

Definition demo_files : list (jsstring * jsstring) :=
  [(js "package.json", jq "{'name':'demo','scripts':{'start':'node src/index.js'}}");
   (js "README.md", js "# Demo");
   (js ".github/workflows/ci.yml", js "on: push");
   (js "Dockerfile", lines ["FROM node:20"; "CMD node src/index.js"]%string)].

Definition demo_client : octokit := client demo_tree demo_files.

(** The analysis of that repository. *)
Definition demo_analysis : analysis :=
  Eval vm_compute in
    match fst (analyzeRepo demo_client (js "octo") (js "demo") (js "main") []) with
    | Some a => a
    | None => {| repo := []; ref := []; filesFound := []; detected := initial; snippets := [] |}
    end.

(** ** What holds of every analysis *)

(** X6. The snippets of an analysis are at most 40; each is the text of a
    path of interest, is not empty and holds at most 2015 characters (2000
    and the marker); no path has two snippets; and [readme] holds at most
    1515 characters. *)
Theorem snippets_are_bounded (oct : octokit) (owner repo ref : jsstring) (a : analysis) :
  fst (analyzeRepo oct owner repo ref []) = Some a ->
  Forall (fun kv => snd kv <> [] /\ List.length (snd kv) <= 2015) (snippets a) /\
  NoDup (keys (snippets a)) /\
  List.length (snippets a) <= 40 /\
  (forall p, In p (keys (snippets a)) -> of_interest p = true) /\
  (forall text, readme (detected a) = Some text -> List.length text <= 1515).
Proof.
  intros Ha. destruct (analysis_shape _ _ _ _ Ha) as (items & Hs & Hd & _).
  rewrite Hd. rewrite Hs.
  assert (Hk : keys (collect oct owner repo ref (fetch_list items)) =
               filter (is_available oct owner repo ref) (fetch_list items))
    by apply keys_collect_available.
  split; [|split; [|split; [|split]]].
  - eapply Forall_impl; [|apply collect_stored].
    intros [k v] [Ht Hl]. split; [|exact Hl]. intros E. cbn [snd] in E. subst v. discriminate Ht.
  - rewrite Hk. apply NoDup_filter, fetch_list_NoDup.
  - rewrite <- (length_map fst). fold (keys (collect oct owner repo ref (fetch_list items))).
    rewrite Hk. etransitivity; [apply filter_length_le|apply fetch_list_length].
  - intros p Hp. rewrite Hk in Hp. apply filter_In in Hp.
    apply (@fetch_list_interest items). tauto.
  - intros text. destruct (detect_readme_license items (collect oct owner repo ref (fetch_list items)))
      as [-> _].
    destruct (find _ _) as [p|]; [|discriminate].
    intros E. injection E as <-. apply (shortSnippet_length _ 1500).
Qed.

Lemma snippets_are_bounded_witness :
  NoDup (keys (snippets demo_analysis)) /\ List.length (snippets demo_analysis) <= 40.
Proof.
  refine (let H := @snippets_are_bounded demo_client (js "octo") (js "demo") (js "main")
                     demo_analysis _ in
          conj (proj1 (proj2 H)) (proj1 (proj2 (proj2 H)))).
  vm_compute. reflexivity.
Defined.

(** X7. [filesFound] lists the paths of the blobs of the tree that are of
    interest (a name of [PATHS_OF_INTEREST], a path under
    [.github/workflows/], a path that contains "readme" in any case), in the
    order of the tree; the second pass over the tree, for the workflow files,
    adds nothing to what the first has found. *)
Theorem found_files_are_the_blobs_of_interest (oct : octokit) (owner repo ref : jsstring)
    (commitSha treeSha : jsstring) (items : list tree_entry) :
  getBranch oct owner repo ref = Some commitSha ->
  getCommit oct owner repo commitSha = Some treeSha ->
  getTree oct owner repo treeSha = Some items ->
  exists a,
    fst (analyzeRepo oct owner repo ref []) = Some a /\
    filesFound a = map path (filter (fun t => is_blob t && of_interest (path t)) items) /\
    filesFound a = find_files items [].
Proof.
  intros Hb Hc Ht. rewrite analyzeRepo_run, Hb, Hc, Ht. cbv zeta. cbn [fst].
  eexists. split; [reflexivity|]. cbn [filesFound]. split.
  - apply filesFound_filter.
  - rewrite filesFound_filter, find_files_filter. reflexivity.
Qed.

Lemma found_files_are_the_blobs_of_interest_witness :
  exists a,
    fst (analyzeRepo demo_client (js "octo") (js "demo") (js "main") []) = Some a /\
    filesFound a = map path (filter (fun t => is_blob t && of_interest (path t)) demo_tree) /\
    filesFound a = find_files demo_tree [].
Proof.
  exact (@found_files_are_the_blobs_of_interest demo_client (js "octo") (js "demo") (js "main")
           (js "c0ffee") (js "7ree") demo_tree eq_refl eq_refl eq_refl).
Defined.

(** X8. [analyzeRepo] starts with the three requests of [getRepoTree] and
    fails exactly when [getRepoTree] fails, in which case it asks for no
    file; otherwise it analyses the tree [getRepoTree] returns, and asks for
    the content of each of its paths once. *)
Theorem analysis_fails_only_with_the_tree (oct : octokit) (owner repo ref : jsstring) :
  (fst (analyzeRepo oct owner repo ref []) = None <->
   fst (getRepoTree oct owner repo ref []) = None) /\
  exists paths,
    snd (analyzeRepo oct owner repo ref []) =
      snd (getRepoTree oct owner repo ref []) ++
      map (fun p => GetContent owner repo p ref) paths /\
    NoDup paths /\
    match fst (getRepoTree oct owner repo ref []) with
    | None => paths = []
    | Some items =>
        exists a, fst (analyzeRepo oct owner repo ref []) = Some a /\
                  detected a = detect items (snippets a) /\
                  keys (snippets a) = filter (is_available oct owner repo ref) paths
    end.
Proof.
  rewrite analyzeRepo_run. unfold getRepoTree, bind, request. cbn [app].
  destruct (getBranch oct owner repo ref) as [commitSha|];
    [|split; [tauto|]; exists []; repeat split; constructor].
  destruct (getCommit oct owner repo commitSha) as [treeSha|];
    [|split; [tauto|]; exists []; repeat split; constructor].
  destruct (getTree oct owner repo treeSha) as [items|];
    [|split; [tauto|]; exists []; repeat split; constructor].
  cbv zeta. cbn [fst snd]. split; [split; discriminate|].
  exists (fetch_list items). split; [reflexivity|]. split; [apply fetch_list_NoDup|].
  eexists. split; [reflexivity|]. cbn [detected snippets]. split; [reflexivity|].
  apply keys_collect_available.
Qed.

(** X9. The facts of an analysis agree with each other: there is always a
    run command; [hasTests], [hasCI] and [hasDocker] are true exactly when
    [testCommands] and [ciFiles] are not empty and [dockerInfo] is not
    [null]; [packageManager] is [null], ["npm|yarn"] or
    ["pip/poetry/pipenv"], and [projectType] is [null], ["node-project"],
    ["python-project"] or ["dockerized-app"]. *)
Theorem detected_facts_are_coherent (oct : octokit) (owner repo ref : jsstring)
    (a : analysis) :
  fst (analyzeRepo oct owner repo ref []) = Some a ->
  runCommands (detected a) <> [] /\
  (hasTests (detected a) = true <-> testCommands (detected a) <> []) /\
  (hasCI (detected a) = true <-> ciFiles (detected a) <> []) /\
  (hasDocker (detected a) = true <-> dockerInfo (detected a) <> None) /\
  In (packageManager (detected a))
     [None; Some (js "npm|yarn"); Some (js "pip/poetry/pipenv")] /\
  In (projectType (detected a))
     [None; Some (js "node-project"); Some (js "python-project"); Some (js "dockerized-app")].
Proof.
  intros Ha. destruct (analysis_shape _ _ _ _ Ha) as (items & _ & -> & _).
  split; [apply detect_runCommands|apply detect_coherent].
Qed.

Lemma detected_facts_are_coherent_witness :
  runCommands (detected demo_analysis) <> [].
Proof.
  refine (proj1 (@detected_facts_are_coherent demo_client (js "octo") (js "demo") (js "main")
                   demo_analysis _)).
  vm_compute. reflexivity.
Defined.


(** The snippet of [package.json] is there and parses. *)
Definition manifest_parses (fc : file_contents) : Prop :=
  exists text, snippet "package.json" fc = Some text /\ Json.parse text <> None.

(** X10. [packageManager] is ["npm|yarn"] exactly when the snippet of
    [package.json] parses as JSON, whatever it holds and whatever Python
    files are there; it is ["pip/poetry/pipenv"] exactly when it does not
    and a snippet of [requirements.txt], [pyproject.toml], [Pipfile] or
    [setup.py] is there; it is [null] otherwise: no other file of the
    repository sets it. *)
Theorem package_manager_follows_the_manifest (oct : octokit) (owner repo ref : jsstring)
    (a : analysis) :
  fst (analyzeRepo oct owner repo ref []) = Some a ->
  (packageManager (detected a) = Some (js "npm|yarn") <-> manifest_parses (snippets a)) /\
  (packageManager (detected a) = Some (js "pip/poetry/pipenv") <->
   ~ manifest_parses (snippets a) /\ python_files (snippets a) = true) /\
  (packageManager (detected a) = None <->
   ~ manifest_parses (snippets a) /\ python_files (snippets a) = false).
Proof.
  intros Ha. destruct (analysis_shape _ _ _ _ Ha) as (items & _ & -> & _).
  rewrite detect_packageManager. unfold manifest_parses.
  destruct (snippet "package.json" (snippets a)) as [text|].
  - destruct (Json.parse text) as [pj|] eqn:Ep.
    + repeat split; try discriminate.
      * intros _. exists text. split; [reflexivity|congruence].
      * intros [H _]. exfalso. apply H. exists text. split; [reflexivity|congruence].
      * intros [H _]. exfalso. apply H. exists text. split; [reflexivity|congruence].
    + assert (Hno : ~ (exists t, Some text = Some t /\ Json.parse t <> None)).
      { intros (t & E & H). injection E as <-. congruence. }
      destruct (python_files (snippets a)); repeat split; try discriminate; try tauto;
        intros [_ H]; discriminate.
  - assert (Hno : ~ (exists t, @None jsstring = Some t /\ Json.parse t <> None)).
    { intros (t & E & _). discriminate. }
    destruct (python_files (snippets a)); repeat split; try discriminate; try tauto;
      intros [_ H]; discriminate.
Qed.

Lemma package_manager_follows_the_manifest_witness :
  packageManager (detected demo_analysis) = Some (js "npm|yarn") <->
  manifest_parses (snippets demo_analysis).
Proof.
  refine (proj1 (@package_manager_follows_the_manifest
                   demo_client (js "octo") (js "demo") (js "main") demo_analysis _)).
  vm_compute. reflexivity.
Defined.

Lemma filter_none {A} (f : A -> bool) (l : list A) :
  (forall x, In x l -> f x = false) -> filter f l = [].
Proof.
  induction l as [|x l IH]; intros H; cbn [filter]; [reflexivity|].
  rewrite (H x) by now left. apply IH. intros y Hy. apply H. now right.
Qed.

(** X11. [ciFiles] lists the workflow files (the paths under
    [.github/workflows/]) whose text was fetched, in the order they were
    fetched in, and [hasCI] tells whether there is one.  The ten paths of
    the priority list being fetched first, at most 30 workflow files are
    listed, however many the repository has. *)
Theorem workflows_detected (oct : octokit) (owner repo ref : jsstring) (a : analysis) :
  fst (analyzeRepo oct owner repo ref []) = Some a ->
  ciFiles (detected a) = filter (startsWith CI_PATH_PREFIX) (keys (snippets a)) /\
  (hasCI (detected a) = true <->
   exists p, In p (keys (snippets a)) /\ startsWith CI_PATH_PREFIX p = true) /\
  List.length (ciFiles (detected a)) <= 30.
Proof.
  intros Ha. destruct (analysis_shape _ _ _ _ Ha) as (items & Hs & -> & _).
  destruct (detect_ci items (snippets a)) as [-> Hci]. split; [reflexivity|]. split.
  - rewrite Hci. split.
    + destruct (filter _ _) as [|p l] eqn:E; [congruence|]. intros _.
      exists p. apply filter_In. rewrite E. now left.
    + intros (p & Hp) E. apply filter_In in Hp. rewrite E in Hp. exact Hp.
  - rewrite Hs, keys_collect_available.
    destruct (fetch_list_priority items) as (others & E).
    pose proof (fetch_list_length items) as Hlen. rewrite E in *.
    rewrite !filter_app, length_app. rewrite length_app in Hlen.
    rewrite (@filter_none _ _ (filter _ priority)).
    + cbn [List.length]. change (List.length priority) with 10 in Hlen.
      etransitivity; [apply filter_length_le|]. etransitivity; [apply filter_length_le|]. lia.
    + intros p Hp. apply filter_In in Hp. destruct Hp as [Hp _].
      revert p Hp. apply Forall_forall. repeat constructor.
Qed.

Lemma workflows_detected_witness :
  ciFiles (detected demo_analysis)
  = filter (startsWith CI_PATH_PREFIX) (keys (snippets demo_analysis)).
Proof.
  refine (proj1 (@workflows_detected demo_client (js "octo") (js "demo") (js "main")
                   demo_analysis _)).
  vm_compute. reflexivity.
Defined.

(** X12. [runCommands] holds the values of the scripts of the manifest, as
    [Object.values] lists them, when the snippet of [package.json] parses
    and has any; otherwise it holds one hint and no more:
    ["npm install && npm start"] when the package manager is ["npm|yarn"],
    ["pip install -r requirements.txt && python main.py"] when it is
    ["pip/poetry/pipenv"], the [docker] command when there is none and
    [hasDocker] is true, and ["Check project files for run instructions"]
    otherwise. *)
Theorem run_commands_or_hint (oct : octokit) (owner repo ref : jsstring) (a : analysis) :
  fst (analyzeRepo oct owner repo ref []) = Some a ->
  runCommands (detected a) =
  match script_values (snippets a) with
  | [] =>
      [JStr match packageManager (detected a) with
            | Some pm =>
                if str_eqb pm (js "npm|yarn") then js "npm install && npm start"
                else js "pip install -r requirements.txt && python main.py"
            | None =>
                if hasDocker (detected a)
                then js "docker build -t myapp . && docker run -p 3000:3000 myapp"
                else js "Check project files for run instructions"
            end]
  | _ :: _ => script_values (snippets a)
  end.
Proof.
  intros Ha. destruct (analysis_shape _ _ _ _ Ha) as (items & _ & -> & _).
  apply detect_runCommands_eq.
Qed.

Lemma run_commands_or_hint_witness :
  runCommands (detected demo_analysis) = [JStr (js "node src/index.js")].
Proof.
  refine (eq_trans (@run_commands_or_hint demo_client (js "octo") (js "demo") (js "main")
                      demo_analysis _) _).
  - vm_compute. reflexivity.
  - vm_compute. reflexivity.
Defined.

(** X13. [testCommands] holds, in this order: the test script of the
    manifest, when the snippet of [package.json] parses and the script is
    truthy; ["pytest"], when the snippet of [pyproject.toml] contains
    ["[tool.pytest]"]; and, only when neither is there, a guess made from
    the tree when one of its paths (of a blob or not) has a component
    [test], [tests] or [__tests__] in any case: ["npm test"] when the
    package manager is ["npm|yarn"], ["pytest"] otherwise. *)
Theorem test_commands_detected (oct : octokit) (owner repo ref : jsstring)
    (commitSha treeSha : jsstring) (items : list tree_entry) :
  getBranch oct owner repo ref = Some commitSha ->
  getCommit oct owner repo commitSha = Some treeSha ->
  getTree oct owner repo treeSha = Some items ->
  exists a,
    fst (analyzeRepo oct owner repo ref []) = Some a /\
    testCommands (detected a) =
      match test_script (snippets a) with Some t => [t] | None => [] end ++
      (if pytest_configured (snippets a) then [JStr (js "pytest")] else []) ++
      match test_script (snippets a), pytest_configured (snippets a) with
      | None, false =>
          if has_test_folder items
          then [JStr match packageManager (detected a) with
                     | Some pm => if str_eqb pm (js "npm|yarn") then js "npm test"
                                  else js "pytest"
                     | None => js "pytest"
                     end]
          else []
      | _, _ => []
      end.
Proof.
  intros Hb Hc Ht. rewrite analyzeRepo_run, Hb, Hc, Ht. cbv zeta. cbn [fst].
  eexists. split; [reflexivity|]. cbn [detected snippets].
  set (fc := collect oct owner repo ref (fetch_list items)).
  destruct (detect_tests items fc) as [_ E]. cbv zeta in E. rewrite E. clear E.
  assert (Hpm : packageManager (detect items fc)
                = packageManager (python fc (package_json fc initial))).
  { unfold detect. apply later_stages_keep_labels. }
  rewrite Hpm. clear Hpm.
  destruct (python_tests fc (package_json fc initial)) as [-> ->].
  destruct (package_json_tests fc) as [-> ->].
  rewrite <- app_assoc. do 2 f_equal.
  destruct (test_script fc), (pytest_configured fc); cbn [orb negb andb]; try reflexivity.
  destruct (has_test_folder items); [|reflexivity].
  destruct (packageManager (python fc (package_json fc initial))) as [pm|]; [|reflexivity].
  destruct (str_eqb pm (js "npm|yarn")); reflexivity.
Qed.

Lemma test_commands_detected_witness :
  exists a,
    fst (analyzeRepo demo_client (js "octo") (js "demo") (js "main") []) = Some a /\
    testCommands (detected a) = [JStr (js "npm test")].
Proof.
  destruct (@test_commands_detected demo_client (js "octo") (js "demo") (js "main")
              (js "c0ffee") (js "7ree") demo_tree eq_refl eq_refl eq_refl) as (a & Ha & Ht).
  exists a. split; [exact Ha|].
  assert (E : a = demo_analysis).
  { assert (H : fst (analyzeRepo demo_client (js "octo") (js "demo") (js "main") [])
                = Some demo_analysis) by (vm_compute; reflexivity).
    congruence. }
  rewrite Ht, E. vm_compute. reflexivity.
Defined.

End AnalysisInvariants.

(* ================================================================== *)
(** * Facts about the extension counts *)
(* ================================================================== *)

Module ExtensionFacts.

Import Analyze FetchFacts Extensions BufferFacts.

(** The blobs of the tree whose path has the extension [ext]. *)
Definition with_extension (ext : jsstring) (tree : list tree_entry) : list tree_entry :=
  filter (fun t => is_blob t && str_eqb (extension (path t)) ext) tree.

(** The blobs of the tree whose path has an extension. *)
Definition with_an_extension (tree : list tree_entry) : list tree_entry :=
  filter (fun t => is_blob t && truthy_str (extension (path t))) tree.

(** Every path of the tree is in ASCII. *)
Definition ascii_paths (tree : list tree_entry) : Prop :=
  Forall (fun t => ascii_string (path t)) tree.

(** No blob of the tree has an extension that [counts] inherits a member
    under ([constructor], [__proto__]). *)
Definition own_extensions (tree : list tree_entry) : Prop :=
  Forall (fun t => inherited (extension (path t)) = None) (with_an_extension tree).

Lemma str_eqb_sym (a b : jsstring) : str_eqb a b = str_eqb b a.
Proof.
  destruct (str_eqb a b) eqn:E.
  - apply str_eqb_eq in E. subst. symmetry. apply str_eqb_refl.
  - destruct (str_eqb b a) eqn:E'; [|reflexivity].
    apply str_eqb_eq in E'. subst. now rewrite str_eqb_refl in E.
Qed.

Lemma assoc_put_same (k : jsstring) (v : count) (o : counts) :
  assoc k (put k v o) = Some v.
Proof.
  induction o as [|[k' v'] o IH]; cbn [put assoc].
  - now rewrite str_eqb_refl.
  - destruct (str_eqb k' k) eqn:E; cbn [assoc].
    + now rewrite str_eqb_refl.
    + now rewrite E.
Qed.

Lemma assoc_put_other (k k0 : jsstring) (v : count) (o : counts) :
  k <> k0 -> assoc k0 (put k v o) = assoc k0 o.
Proof.
  intros Hne. induction o as [|[k' v'] o IH]; cbn [put assoc].
  - destruct (str_eqb k k0) eqn:E; [apply str_eqb_eq in E; contradiction|reflexivity].
  - destruct (str_eqb k' k) eqn:E; cbn [assoc].
    + apply str_eqb_eq in E. subst k'.
      destruct (str_eqb k k0) eqn:E0; [apply str_eqb_eq in E0; contradiction|reflexivity].
    + destruct (str_eqb k' k0); [reflexivity|exact IH].
Qed.

Lemma assoc_bump_other (k k0 : jsstring) (o : counts) :
  k <> k0 -> assoc k0 (bump k o) = assoc k0 o.
Proof.
  intros Hne. unfold bump.
  destruct (assoc k o) as [[n|s]|]; try now apply assoc_put_other.
  destruct (inherited k); [destruct (str_eqb k (js "__proto__"))|];
    try reflexivity; now apply assoc_put_other.
Qed.

(** The keys of [counts]. *)
Definition names (o : counts) : list jsstring := map fst o.

Lemma assoc_None_names (k : jsstring) (o : counts) : assoc k o = None <-> ~ In k (names o).
Proof.
  induction o as [|[k' v'] o IH]; cbn [assoc names map fst In]; [tauto|].
  destruct (str_eqb k' k) eqn:E.
  - apply str_eqb_eq in E. split; [discriminate|]. tauto.
  - assert (k' <> k) by (intros ->; now rewrite str_eqb_refl in E).
    fold (names o). tauto.
Qed.

Lemma names_put (k : jsstring) (v : count) (o : counts) :
  names (put k v o) = if arr_includes k (names o) then names o else names o ++ [k].
Proof.
  induction o as [|[k' v'] o IH]; cbn [put names map fst arr_includes app]; [reflexivity|].
  fold (names o). destruct (str_eqb k' k) eqn:E; cbn [orb names map fst].
  - apply str_eqb_eq in E. now subst.
  - fold (names (put k v o)). rewrite IH. now destruct (arr_includes k (names o)).
Qed.

Lemma names_put_NoDup (k : jsstring) (v : count) (o : counts) :
  NoDup (names o) -> NoDup (names (put k v o)).
Proof.
  intros H. rewrite names_put. destruct (arr_includes k (names o)) eqn:E; [exact H|].
  apply arr_includes_not_In in E.
  apply NoDup_app; [exact H|repeat constructor; intros []|].
  intros x Hx [<-|[]]. contradiction.
Qed.

Lemma names_bump_NoDup (k : jsstring) (o : counts) :
  NoDup (names o) -> NoDup (names (bump k o)).
Proof.
  intros H. unfold bump.
  destruct (assoc k o) as [[n|s]|]; try now apply names_put_NoDup.
  destruct (inherited k); [destruct (str_eqb k (js "__proto__"))|];
    try exact H; now apply names_put_NoDup.
Qed.

Lemma count_extensions_NoDup (tree : list tree_entry) (o : counts) :
  NoDup (names o) -> NoDup (names (count_extensions tree o)).
Proof.
  revert o. induction tree as [|t tree IH]; intros o H; cbn [count_extensions]; [exact H|].
  destruct (negb (is_blob t)); [now apply IH|]. cbv zeta.
  destruct (negb (truthy_str (extension (path t)))); apply IH; [exact H|].
  now apply names_bump_NoDup.
Qed.

(** What the count of [ext] is after the loop, from what it was before. *)
Definition counted (before : option count) (n : N) : option count :=
  match before with
  | Some (Number m) => Some (Number (m + n))
  | Some (Text s) => Some (Text s)
  | None => if N.eqb n 0 then None else Some (Number n)
  end.

Lemma count_extensions_assoc (ext : jsstring) (tree : list tree_entry) (o : counts) :
  ext <> [] -> inherited ext = None ->
  (forall s, assoc ext o <> Some (Text s)) ->
  assoc ext (count_extensions tree o) =
  counted (assoc ext o) (N.of_nat (List.length (with_extension ext tree))).
Proof.
  intros Hne Hown. revert o.
  induction tree as [|t tree IH]; intros o Ho; cbn [count_extensions with_extension filter].
  - cbn [List.length N.of_nat]. unfold counted.
    destruct (assoc ext o) as [[m|s]|]; try reflexivity. now rewrite N.add_0_r.
  - fold (with_extension ext tree).
    destruct (is_blob t); cbn [negb andb]; [|now apply IH]. cbv zeta.
    destruct (str_eqb (extension (path t)) ext) eqn:E.
    + apply str_eqb_eq in E.
      assert (Ht : truthy_str (extension (path t)) = true)
        by (rewrite E; destruct ext; [congruence|reflexivity]).
      rewrite Ht. cbn [negb]. replace (extension (path t)) with ext.
      rewrite IH.
      * cbn [List.length]. unfold bump. rewrite Hown.
        destruct (assoc ext o) as [[m|s]|] eqn:Ea.
        -- rewrite assoc_put_same. unfold counted. do 2 f_equal. lia.
        -- exfalso. exact (Ho s eq_refl).
        -- rewrite assoc_put_same. unfold counted.
           destruct (N.eqb_spec (N.of_nat (S (List.length (with_extension ext tree)))) 0);
             [lia|]. do 2 f_equal. lia.
      * intros s. unfold bump. rewrite Hown.
        destruct (assoc ext o) as [[m|s']|] eqn:Ea; rewrite ?assoc_put_same; try discriminate.
        exfalso. exact (Ho s' eq_refl).
    + assert (Hd : extension (path t) <> ext)
        by (intros Heq; rewrite Heq, str_eqb_refl in E; discriminate).
      destruct (negb (truthy_str (extension (path t)))); [now apply IH|].
      rewrite IH.
      * now rewrite assoc_bump_other.
      * intros s. now rewrite assoc_bump_other.
Qed.


(** ** The sum of the counts *)

Definition amount (c : count) : N :=
  match c with
  | Number n => n
  | Text _ => 0
  end.

Definition total (o : counts) : N := fold_right (fun kv acc => (amount (snd kv) + acc)%N) 0%N o.

(** Every value is a number, and is positive. *)
Definition numeric (o : counts) : Prop :=
  Forall (fun kv => exists n, snd kv = Number n /\ (1 <= n)%N) o.

Lemma In_put (k : jsstring) (v : count) (o : counts) (kv : jsstring * count) :
  In kv (put k v o) -> kv = (k, v) \/ In kv o.
Proof.
  induction o as [|[k' v'] o IH]; cbn [put In]; [intuition auto|].
  destruct (str_eqb k' k); cbn [In]; intuition auto.
Qed.

Lemma total_put (k : jsstring) (m : N) (o : counts) :
  (total (put k (Number m) o) +
   match assoc k o with Some c => amount c | None => 0 end = total o + m)%N.
Proof.
  induction o as [|[k' v'] o IH]; cbn [put assoc total fold_right snd amount]; [lia|].
  destruct (str_eqb k' k); cbn [total fold_right snd amount].
  - fold (total o). lia.
  - fold (total o) (total (put k (Number m) o)). lia.
Qed.

Lemma inherited_None (ext : jsstring) :
  inherited ext = None <-> arr_includes ext Object_prototype = false.
Proof.
  unfold inherited.
  destruct (str_eqb ext (js "__proto__")) eqn:E1.
  { apply str_eqb_eq in E1. subst. split; discriminate. }
  destruct (str_eqb ext (js "constructor")) eqn:E2.
  { apply str_eqb_eq in E2. subst. split; discriminate. }
  destruct (arr_includes ext Object_prototype); split; congruence.
Qed.

Lemma bump_numeric (ext : jsstring) (o : counts) :
  inherited ext = None -> numeric o ->
  numeric (bump ext o) /\ total (bump ext o) = (total o + 1)%N /\
  forall k, In k (names (bump ext o)) -> k = ext \/ In k (names o).
Proof.
  intros Hown Ho. unfold bump. rewrite Hown.
  assert (Hn : forall m, (1 <= m)%N -> numeric (put ext (Number m) o)).
  { intros m Hm. apply Forall_forall. intros kv Hkv. apply In_put in Hkv.
    destruct Hkv as [->|Hkv]; [now exists m|].
    unfold numeric in Ho. rewrite Forall_forall in Ho. now apply Ho. }
  assert (Hk : forall m k, In k (names (put ext (Number m) o)) -> k = ext \/ In k (names o)).
  { intros m k Hin. rewrite names_put in Hin.
    destruct (arr_includes ext (names o)); [now right|].
    apply in_app_or in Hin. destruct Hin as [Hin|[<-|[]]]; tauto. }
  destruct (assoc ext o) as [[n|s]|] eqn:Ea.
  - split; [apply Hn; lia|]. split; [|apply Hk].
    pose proof (total_put ext (n + 1) o) as Ht. rewrite Ea in Ht. cbn [amount] in Ht. lia.
  - exfalso. unfold numeric in Ho. rewrite Forall_forall in Ho.
    assert (Hin : In (ext, Text s) o).
    { clear - Ea. induction o as [|[k' v'] o IH]; cbn [assoc] in Ea; [discriminate|].
      destruct (str_eqb k' ext) eqn:E.
      - apply str_eqb_eq in E. injection Ea as ->. subst. now left.
      - right. now apply IH. }
    destruct (Ho _ Hin) as (n & E & _). discriminate.
  - split; [apply Hn; lia|]. split; [|apply Hk].
    pose proof (total_put ext 1 o) as Ht. rewrite Ea in Ht. lia.
Qed.

Lemma count_extensions_numeric (tree : list tree_entry) (o : counts) :
  own_extensions tree -> numeric o ->
  numeric (count_extensions tree o) /\
  total (count_extensions tree o) = (total o + N.of_nat (List.length (with_an_extension tree)))%N /\
  forall k, In k (names (count_extensions tree o)) ->
            In k (names o) \/
            exists t, In t (with_an_extension tree) /\ extension (path t) = k.
Proof.
  unfold own_extensions. revert o.
  induction tree as [|t tree IH]; intros o Hown Ho;
    cbn [count_extensions with_an_extension filter] in *.
  - cbn [List.length N.of_nat]. rewrite N.add_0_r. repeat split; [exact Ho|tauto].
  - fold (with_an_extension tree) in *.
    destruct (is_blob t); cbn [negb andb] in *; [|now apply IH]. cbv zeta.
    destruct (truthy_str (extension (path t))) eqn:Et; cbn [negb]; [|now apply IH].
    apply Forall_cons_iff in Hown. destruct Hown as [Hext Hown].
    destruct (@bump_numeric _ o Hext Ho) as (Hb1 & Hb2 & Hb3).
    destruct (IH _ Hown Hb1) as (H1 & H2 & H3).
    split; [exact H1|]. split.
    + rewrite H2, Hb2. cbn [List.length]. lia.
    + intros k Hk. apply H3 in Hk. destruct Hk as [Hk|(t' & Ht' & E)].
      * apply Hb3 in Hk. destruct Hk as [->|Hk]; [|now left].
        right. exists t. split; [now left|reflexivity].
      * right. exists t'. split; [now right|exact E].
Qed.

(** ** The entries *)

Lemma In_insert_entry e l x : In x (insert_entry e l) <-> x = e \/ In x l.
Proof.
  induction l as [|y l IH]; cbn [insert_entry In]; [intuition auto|].
  destruct (N.leb (fst e) (fst y)); cbn [In]; [intuition auto|]. rewrite IH. intuition auto.
Qed.

Lemma In_index_entries (o : counts) (x : N * (jsstring * count)) :
  In x (index_entries o) <-> In (snd x) o /\ array_index (fst (snd x)) = Some (fst x).
Proof.
  induction o as [|[k v] o IH]; cbn [index_entries In]; [tauto|].
  destruct (array_index k) as [n|] eqn:E.
  - rewrite In_insert_entry, IH. destruct x as [m [k' v']]. cbn [fst snd]. split.
    + intros [H|[H1 H2]]; [injection H as -> -> ->; tauto|tauto].
    + intros [[H|H] H2]; [injection H as -> ->; left; f_equal; congruence|tauto].
  - rewrite IH. destruct x as [m [k' v']]. cbn [fst snd]. split; [tauto|].
    intros [[H|H] H2]; [injection H as -> ->; congruence|tauto].
Qed.

(** [Object.entries] lists the properties of the object, and nothing
    else. *)
Lemma In_Object_entries (o : counts) (kv : jsstring * count) :
  In kv (Object_entries o) <-> In kv o.
Proof.
  unfold Object_entries. rewrite in_app_iff, in_map_iff, filter_In. unfold is_name. split.
  - intros [(x & <- & Hx)|[H _]]; [|exact H]. now apply In_index_entries in Hx.
  - intros H. destruct (array_index (fst kv)) as [n|] eqn:E; [|now right].
    left. exists (n, kv). split; [reflexivity|]. apply In_index_entries. now split.
Qed.

Lemma numbers_Some (entries : list (jsstring * count)) :
  Forall (fun kv => exists n, snd kv = Number n /\ (1 <= n)%N) entries ->
  exists cs, numbers entries = Some cs /\
             forall k n, In (k, n) cs <-> In (k, Number n) entries.
Proof.
  induction 1 as [|[k c] entries (n & E & _) _ (cs & Hcs & Hin)]; cbn [numbers].
  - exists []. split; [reflexivity|]. intros k n. cbn [In]. tauto.
  - cbn [snd] in E. subst c. rewrite Hcs. cbn [option_map].
    exists ((k, n) :: cs). split; [reflexivity|]. intros k' n'. cbn [In]. rewrite Hin.
    split; (intros [H|H]; [injection H as -> ->; now left|now right]).
Qed.


Lemma assoc_In {V} (k : jsstring) (v : V) (o : list (jsstring * V)) :
  assoc k o = Some v -> In (k, v) o.
Proof.
  induction o as [|[k' v'] o IH]; cbn [assoc]; [discriminate|].
  destruct (str_eqb k' k) eqn:E.
  - apply str_eqb_eq in E. intros H. injection H as ->. subst. now left.
  - intros H. right. now apply IH.
Qed.

Lemma In_assoc (k : jsstring) (v : count) (o : counts) :
  NoDup (names o) -> In (k, v) o -> assoc k o = Some v.
Proof.
  induction o as [|[k' v'] o IH]; cbn [names map fst In assoc]; [tauto|].
  fold (names o). intros Hnd [H|H].
  - injection H as -> ->. now rewrite str_eqb_refl.
  - apply NoDup_cons_iff in Hnd. destruct Hnd as [Hk Hnd].
    destruct (str_eqb k' k) eqn:E; [|now apply IH].
    apply str_eqb_eq in E. subst k'. exfalso. apply Hk.
    change k with (fst (k, v)). now apply in_map.
Qed.

(** A tree whose paths are checked to be in ASCII. *)
Definition ascii_pathsb (tree : list tree_entry) : bool :=
  forallb (fun t => forallb (fun c => N.ltb c 128) (path t)) tree.

Lemma ascii_pathsb_spec (tree : list tree_entry) :
  ascii_pathsb tree = true -> ascii_paths tree.
Proof.
  unfold ascii_pathsb, ascii_paths, ascii_string. rewrite forallb_forall, Forall_forall.
  intros H t Ht. specialize (H t Ht). rewrite forallb_forall in H.
  apply Forall_forall. intros c Hc. now apply N.ltb_lt, H.
Qed.

Definition own_extensionsb (tree : list tree_entry) : bool :=
  forallb (fun t => match inherited (extension (path t)) with None => true | Some _ => false end)
          (with_an_extension tree).

Lemma own_extensionsb_spec (tree : list tree_entry) :
  own_extensionsb tree = true -> own_extensions tree.
Proof.
  unfold own_extensionsb, own_extensions. rewrite forallb_forall, Forall_forall.
  intros H t Ht. specialize (H t Ht). now destruct (inherited (extension (path t))).
Qed.

(** A tree used as an example. *)
Definition sources : list tree_entry :=
  [a_file "src/index.JS"; a_file "src/app.js"; a_folder "lib.js"; a_file "setup.py";
   a_file "Makefile"; a_file ".gitignore"; a_file "docs/v1.2/notes"; a_file "archive.tar.gz"].

(** The counts of a tree without inherited names. *)
Lemma extension_counts_total_helper (tree : list tree_entry) :
  ascii_paths tree ->
  own_extensions tree ->
  numeric (extCountsFromTree tree) /\
  NoDup (map fst (extCountsFromTree tree)) /\
  (forall ext, In ext (map fst (extCountsFromTree tree)) <->
               exists t, In t tree /\ is_blob t = true /\ extension (path t) = ext /\ ext <> []).
Proof.
  intros Ha Hown. unfold extCountsFromTree.
  destruct (@count_extensions_numeric tree [] Hown (Forall_nil _)) as (H1 & H2 & H3).
  split; [exact H1|].
  assert (Hnd : NoDup (names (count_extensions tree []))).
  { apply count_extensions_NoDup. constructor. }
  split; [exact Hnd|].
  intros ext. split.
  - intros Hin. apply H3 in Hin. destruct Hin as [[]|(t & Ht & E)].
    apply filter_In in Ht. destruct Ht as [Ht Hb]. apply andb_true_iff in Hb.
    exists t. split; [exact Ht|]. split; [tauto|]. split; [exact E|].
    intros ->. rewrite E in Hb. destruct Hb. discriminate.
  - intros (t & Ht & Hb & E & Hne).
    assert (Hi : inherited ext = None).
    { unfold own_extensions in Hown. rewrite Forall_forall in Hown.
      rewrite <- E. apply Hown. apply filter_In. split; [exact Ht|].
      rewrite Hb, E. now destruct ext. }
    pose proof (@count_extensions_assoc ext tree [] Hne Hi) as Hc.
    cbn [assoc counted] in Hc.
    assert (Hin : In t (with_extension ext tree)).
    { apply filter_In. split; [exact Ht|]. rewrite Hb, E, str_eqb_refl. reflexivity. }
    destruct (with_extension ext tree) as [|t0 l] eqn:El; [contradiction|].
    assert (Hs : assoc ext (count_extensions tree [])
                 = Some (Number (N.of_nat (List.length (t0 :: l))))).
    { rewrite Hc by discriminate.
      destruct (N.eqb_spec (N.of_nat (List.length (t0 :: l))) 0) as [E0|_];
        [cbn [List.length] in E0; lia|reflexivity]. }
    apply assoc_In in Hs.
    change ext with (fst (ext, Number (N.of_nat (List.length (t0 :: l))))).
    now apply in_map.
Qed.

(** X14. [extCountsFromTree] counts, under every extension, the blobs of
    the tree whose path ends with it: the extension is what follows the last
    dot of the path, in lower case; an entry that is not a blob, or a path
    without a dot, or one that ends with a dot, counts for nothing, and an
    extension no blob has is not a key of the result.  (For paths in ASCII
    and an extension other than [constructor] and [__proto__], names under
    which the object [counts] inherits a value.) *)
Theorem extension_counts (tree : list tree_entry) (ext : jsstring) :
  ascii_paths tree ->
  ext <> [] ->
  inherited ext = None ->
  assoc ext (extCountsFromTree tree) =
  match List.length (filter (fun t => is_blob t && str_eqb (extension (path t)) ext) tree) with
  | O => None
  | S n => Some (Number (N.of_nat (S n)))
  end.
Proof.
  intros _ Hne Hown. unfold extCountsFromTree.
  rewrite count_extensions_assoc by (try assumption; discriminate).
  cbn [assoc counted]. fold (with_extension ext tree).
  destruct (List.length (with_extension ext tree)) as [|n]; [reflexivity|].
  destruct (N.eqb_spec (N.of_nat (S n)) 0); [lia|reflexivity].
Qed.

Lemma extension_counts_witness :
  assoc (js "js") (extCountsFromTree sources) = Some (Number 2) /\
  assoc (js "2/notes") (extCountsFromTree sources) = Some (Number 1) /\
  assoc (js "tar") (extCountsFromTree sources) = None.
Proof.
  assert (H : ascii_paths sources) by (apply ascii_pathsb_spec; vm_compute; reflexivity).
  split; [|split].
  - refine (eq_trans (@extension_counts sources (js "js") H _ _) _);
      [discriminate|vm_compute; reflexivity|vm_compute; reflexivity].
  - refine (eq_trans (@extension_counts sources (js "2/notes") H _ _) _);
      [discriminate|vm_compute; reflexivity|vm_compute; reflexivity].
  - refine (eq_trans (@extension_counts sources (js "tar") H _ _) _);
      [discriminate|vm_compute; reflexivity|vm_compute; reflexivity].
Defined.

(** X15. For a tree whose paths are in ASCII and none of whose blobs has
    an extension under which the object [counts] inherits a value (such as
    [constructor] or [__proto__]), the values of [extCountsFromTree] are
    positive numbers whose sum is the number of the blobs of the tree that
    have an extension; its keys are distinct and are the extensions of those
    blobs. *)
Theorem extension_counts_total (tree : list tree_entry) :
  ascii_paths tree ->
  own_extensions tree ->
  Forall (fun kv => exists n, snd kv = Number n /\ (1 <= n)%N) (extCountsFromTree tree) /\
  total (extCountsFromTree tree) =
    N.of_nat (List.length (filter (fun t => is_blob t && truthy_str (extension (path t))) tree)) /\
  NoDup (map fst (extCountsFromTree tree)) /\
  (forall ext, In ext (map fst (extCountsFromTree tree)) <->
               exists t, In t tree /\ is_blob t = true /\ extension (path t) = ext /\ ext <> []).
Proof.
  intros Ha Hown.
  destruct (@extension_counts_total_helper tree Ha Hown) as (H1 & H2 & H3).
  split; [exact H1|]. split; [|split; assumption].
  unfold extCountsFromTree.
  now destruct (@count_extensions_numeric tree [] Hown (Forall_nil _)) as (_ & -> & _).
Qed.

Lemma extension_counts_total_witness :
  total (extCountsFromTree sources) = 6%N.
Proof.
  refine (eq_trans (proj1 (proj2 (@extension_counts_total sources _ _))) _).
  - apply ascii_pathsb_spec. vm_compute. reflexivity.
  - apply own_extensionsb_spec. vm_compute. reflexivity.
  - vm_compute. reflexivity.
Defined.


(** ** From the tree to the primary languages *)

(** The blob [t] is a file of the language labelled [name]. *)
Definition file_of (tree : list tree_entry) (name : jsstring) (t : tree_entry) : Prop :=
  In t tree /\ is_blob t = true /\ assoc (extension (path t)) language_map = Some name.

Lemma Forall2_In_r {A B} (R : A -> B -> Prop) (l : list A) (l' : list B) (y : B) :
  Forall2 R l l' -> In y l' -> exists x, In x l /\ R x y.
Proof.
  induction 1 as [|a b l l' Hab _ IH]; [intros []|].
  intros [<-|Hy]; [exists a; split; [now left|exact Hab]|].
  destruct (IH Hy) as (x & Hx & HR). exists x. split; [now right|exact HR].
Qed.

Lemma Forall2_nil_r {A B} (R : A -> B -> Prop) (l : list A) :
  Forall2 R l (@nil B) -> l = [].
Proof. inversion 1. reflexivity. Qed.

(** X16. For a tree whose paths are in ASCII and none of whose blobs has
    an extension under which the object [counts] inherits a value (such as
    [constructor] or [__proto__]), the primary languages are determined: at
    most three labels, each the label of the extension of a blob of the
    tree, and at least one as soon as a blob has an extension of the
    table. *)
Theorem primary_languages_of_a_tree (tree : list tree_entry) :
  ascii_paths tree ->
  own_extensions tree ->
  exists languages,
    primaryLanguages tree = Some languages /\
    List.length languages <= 3 /\
    (forall l, In l languages -> exists name t, l = Label name /\ file_of tree name t) /\
    ((exists name t, file_of tree name t) -> languages <> []).
Proof.
  intros Ha Hown.
  destruct (@extension_counts_total_helper tree Ha Hown) as (Hnum & Hnd & Hkeys).
  assert (Hnum' : Forall (fun kv => exists n, snd kv = Number n /\ (1 <= n)%N)
                    (Object_entries (extCountsFromTree tree))).
  { apply Forall_forall. intros kv Hkv. apply (proj1 (In_Object_entries _ _)) in Hkv.
    unfold numeric in Hnum. rewrite Forall_forall in Hnum. exact (Hnum kv Hkv). }
  destruct (@numbers_Some _ Hnum') as (cs & Hcs & Hin).
  unfold primaryLanguages. rewrite Hcs. cbn [option_map].
  eexists. split; [reflexivity|].
  assert (Hcs_keys : forall k n, In (k, n) cs ->
            exists t, In t tree /\ is_blob t = true /\ extension (path t) = k /\ k <> []).
  { intros k n Hk. apply (proj1 (Hin k n)) in Hk. apply (proj1 (In_Object_entries _ _)) in Hk.
    apply Hkeys.
    change k with (fst (k, Number n)). now apply in_map. }
  assert (Hown' : LanguageFacts.own_names_only (sort_desc cs)).
  { apply Forall_forall. intros [k n] Hk.
    eapply Permutation_in in Hk; [|apply LanguageFacts.sort_desc_perm].
    destruct (Hcs_keys k n Hk) as (t & Ht & Hb & E & Hne). cbn [fst].
    apply inherited_None. unfold own_extensions in Hown. rewrite Forall_forall in Hown.
    rewrite <- E. apply Hown. apply filter_In. split; [exact Ht|].
    rewrite Hb, E. now destruct k. }
  pose proof (@LanguageFacts.push_mapped_labels _ Hown') as Hl.
  unfold detectPrimaryLanguages. split; [rewrite length_firstn; lia|]. split.
  - intros l Hlin.
    assert (Hlin' : In l (push_mapped (sort_desc cs))).
    { rewrite <- (firstn_skipn 3). apply in_or_app. now left. }
    destruct (@Forall2_In_r _ _ _ _ _ _ Hl Hlin') as ([k n] & He & name & Hname & ->).
    apply filter_In in He. destruct He as [He _].
    eapply Permutation_in in He; [|apply LanguageFacts.sort_desc_perm].
    destruct (Hcs_keys k n He) as (t & Ht & Hb & E & _).
    exists name, t. split; [reflexivity|]. cbn [fst] in Hname.
    unfold file_of. rewrite E. tauto.
  - intros (name & t & Ht & Hb & Hname) Hnil.
    assert (Hne : extension (path t) <> []).
    { intros E. rewrite E in Hname. discriminate. }
    assert (Hk : In (extension (path t)) (map fst (extCountsFromTree tree))).
    { apply Hkeys. exists t. tauto. }
    apply in_map_iff in Hk. destruct Hk as ([k c] & Ek & Hk). cbn [fst] in Ek. subst k.
    unfold numeric in Hnum. rewrite Forall_forall in Hnum.
    destruct (Hnum _ Hk) as (n & Ec & _). cbn [snd] in Ec. subst c.
    assert (Hc : In (extension (path t), n) (sort_desc cs)).
    { eapply Permutation_in; [symmetry; apply LanguageFacts.sort_desc_perm|].
      apply (proj2 (Hin _ _)), (proj2 (In_Object_entries _ _)). exact Hk. }
    assert (Hf : In (extension (path t), n) (filter LanguageFacts.mapped (sort_desc cs))).
    { apply filter_In. split; [exact Hc|]. unfold LanguageFacts.mapped. cbn [fst].
      now rewrite Hname. }
    destruct (push_mapped (sort_desc cs)) as [|l ls] eqn:Ep.
    + apply Forall2_nil_r in Hl. rewrite Hl in Hf. exact Hf.
    + cbn [firstn] in Hnil. discriminate.
Qed.

Lemma primary_languages_of_a_tree_witness :
  exists languages,
    primaryLanguages sources = Some languages /\
    List.length languages <= 3 /\
    (forall l, In l languages -> exists name t, l = Label name /\ file_of sources name t) /\
    ((exists name t, file_of sources name t) -> languages <> []).
Proof.
  apply primary_languages_of_a_tree.
  - apply ascii_pathsb_spec. vm_compute. reflexivity.
  - apply own_extensionsb_spec. vm_compute. reflexivity.
Defined.

End ExtensionFacts.

(* ================================================================== *)
(** * Facts about the environment variables *)
(* ================================================================== *)

Module EnvVarFacts.

Import Analyze FetchFacts RegexFacts DetectFacts EnvVars.

(** A name: word characters, one at least. *)
Definition name_like (n : jsstring) : Prop :=
  n <> [] /\ Forall (fun c => is_word c = true) n.

(** [n] occurs in [s]. *)
Definition occurs_in (n s : jsstring) : Prop := exists a b, s = a ++ n ++ b.

Lemma skipn_suffix {A} (k : nat) (s : list A) : exists a, s = a ++ skipn k s.
Proof. exists (firstn k s). symmetry. apply firstn_skipn. Qed.

Lemma take_while_prefix (f : N -> bool) (s : jsstring) : exists b, s = take_while f s ++ b.
Proof. exists (drop_while f s). apply take_drop_while. Qed.

(** The group of a match is a name, and occurs in the string. *)
Lemma match_at_name (pat : pattern) (s : jsstring) (n : jsstring) (len : nat) :
  match_at pat s = Some (n, len) -> name_like n /\ occurs_in n s.
Proof.
  unfold match_at. destruct (startsWith (literal pat) s); [|discriminate]. cbv zeta.
  set (r0 := skipn (List.length (literal pat)) s).
  set (sp := if spaces pat then take_while is_space r0 else []).
  set (r1 := skipn (List.length sp) r0).
  assert (H1 : exists a, s = a ++ r1).
  { destruct (skipn_suffix (List.length (literal pat)) s) as (a & Ea).
    destruct (skipn_suffix (List.length sp) r0) as (a' & Ea').
    exists (a ++ a'). rewrite <- app_assoc. fold r0 in Ea. fold r1 in Ea'. congruence. }
  destruct H1 as (a & Ea).
  destruct (quoted pat).
  - destruct r1 as [|q r2]; [discriminate|].
    destruct (is_quote q); [|discriminate].
    pose proof (take_while_all is_word r2) as Hw.
    destruct (take_while_prefix is_word r2) as (b & Eb).
    destruct (take_while is_word r2) as [|c name] eqn:En; [discriminate|].
    destruct (skipn _ r2) as [|q' r3]; [discriminate|].
    destruct (is_quote q' && startsWith (closing pat) r3); [|discriminate].
    intros E. injection E as <- _. split; [split; [discriminate|exact Hw]|].
    exists (a ++ [q]), b. rewrite Ea, Eb, <- !app_assoc. reflexivity.
  - pose proof (take_while_all is_word r1) as Hw.
    destruct (take_while_prefix is_word r1) as (b & Eb).
    destruct (take_while is_word r1) as [|c name] eqn:En; [discriminate|].
    intros E. injection E as <- _. split; [split; [discriminate|exact Hw]|].
    exists a, b. rewrite Ea, Eb. reflexivity.
Qed.

Lemma occurs_in_cons (n s : jsstring) (c : N) : occurs_in n s -> occurs_in n (c :: s).
Proof. intros (a & b & ->). now exists (c :: a), b. Qed.

Lemma exec_all_names (pat : pattern) (skip : nat) (s : jsstring) :
  Forall (fun n => name_like n /\ occurs_in n s) (exec_all pat skip s).
Proof.
  revert skip. induction s as [|c s IH]; intros skip; cbn [exec_all]; [constructor|].
  assert (Hc : forall k, Forall (fun n => name_like n /\ occurs_in n (c :: s))
                                (exec_all pat k s)).
  { intros k. eapply Forall_impl; [|apply IH]. intros n [H1 H2].
    split; [exact H1|now apply occurs_in_cons]. }
  destruct skip as [|k]; [|apply Hc].
  destruct (match_at pat (c :: s)) as [[n len]|] eqn:E; [|apply Hc].
  constructor; [|apply Hc]. now apply match_at_name in E.
Qed.

Lemma add_In (names : list jsstring) (x y : jsstring) :
  In y (add names x) <-> In y names \/ y = x.
Proof.
  unfold add. destruct (arr_includes x names) eqn:E.
  - apply arr_includes_In in E. split; [tauto|]. intros [H| ->]; assumption.
  - rewrite in_app_iff. cbn [In]. intuition auto.
Qed.

Lemma add_NoDup (names : list jsstring) (x : jsstring) : NoDup names -> NoDup (add names x).
Proof.
  intros H. unfold add. destruct (arr_includes x names) eqn:E; [exact H|].
  apply arr_includes_not_In in E.
  apply NoDup_app; [exact H|repeat constructor; intros []|].
  intros y Hy [<-|[]]. contradiction.
Qed.

Lemma fold_add (a names : list jsstring) :
  NoDup names ->
  NoDup (fold_left add a names) /\
  forall y, In y (fold_left add a names) <-> In y names \/ In y a.
Proof.
  revert names. induction a as [|x a IH]; intros names H; cbn [fold_left].
  - split; [exact H|]. intros y. cbn [In]. tauto.
  - destruct (IH (add names x) (add_NoDup x H)) as [H1 H2]. split; [exact H1|].
    intros y. rewrite H2, add_In. cbn [In]. intuition auto.
Qed.

Lemma distinct_spec (a : list jsstring) :
  NoDup (distinct a) /\ forall y, In y (distinct a) <-> In y a.
Proof.
  destruct (@fold_add a [] (NoDup_nil _)) as [H1 H2]. split; [exact H1|].
  intros y. unfold distinct. rewrite H2. cbn [In]. tauto.
Qed.

(** A list without repetition is what [distinct] makes of it. *)
Lemma fold_add_NoDup (a names : list jsstring) :
  NoDup (names ++ a) -> fold_left add a names = names ++ a.
Proof.
  revert names. induction a as [|x a IH]; intros names H; cbn [fold_left].
  - now rewrite app_nil_r.
  - assert (Hx : ~ In x names).
    { apply NoDup_remove_2 in H. intros Hin. apply H. apply in_or_app. now left. }
    unfold add at 2. apply arr_includes_not_In in Hx. rewrite Hx.
    rewrite IH; rewrite <- app_assoc; [reflexivity|exact H].
Qed.

Lemma distinct_NoDup (a : list jsstring) : NoDup a -> distinct a = a.
Proof. intros H. unfold distinct. now rewrite fold_add_NoDup. Qed.


(** ** Every occurrence of the dollar pattern is found *)

(** The groups of all the places of [s] where a match of the pattern
    starts, from left to right. *)
Fixpoint occurrences (pat : pattern) (s : jsstring) : list jsstring :=
  match match_at pat s with
  | Some (n, _) => [n]
  | None => []
  end ++
  match s with
  | [] => []
  | _ :: s' => occurrences pat s'
  end.

Lemma match_at_re6 (s : jsstring) :
  match_at re6 s =
  match s with
  | c :: r =>
      if N.eqb 36 c then
        match take_while is_word r with
        | [] => None
        | name => Some (name, 1 + List.length name)
        end
      else None
  | [] => None
  end.
Proof.
  unfold match_at. change (literal re6) with [36%N].
  destruct s as [|c r]; [reflexivity|]. cbn [startsWith].
  destruct (N.eqb 36 c); [|reflexivity]. cbn [andb]. reflexivity.
Qed.

Lemma dollar_not_word : is_word 36 = false.
Proof. reflexivity. Qed.

(** No match of the dollar pattern starts inside another. *)
Lemma re6_no_match_inside (s n : jsstring) (len : nat) :
  match_at re6 s = Some (n, len) ->
  forall j, 0 < j < len -> match_at re6 (skipn j s) = None.
Proof.
  rewrite match_at_re6. destruct s as [|c r]; [discriminate|].
  destruct (N.eqb 36 c); [|discriminate].
  pose proof (take_while_all is_word r) as Hw.
  pose proof (take_drop_while is_word r) as Er.
  destruct (take_while is_word r) as [|x name] eqn:En; [discriminate|].
  intros E. injection E as <- <-. intros j Hj.
  destruct j as [|j]; [lia|]. cbn [skipn].
  destruct (@skipn_in_prefix N _ _ (drop_while is_word r) j Hw) as (h & t & Eh & Hh).
  { cbn [List.length] in *. lia. }
  rewrite Er, Eh, match_at_re6.
  destruct (N.eqb_spec 36 h) as [<-|_]; [|reflexivity].
  rewrite dollar_not_word in Hh. discriminate.
Qed.

Lemma occurrences_skip (pat : pattern) (s : jsstring) (k : nat) :
  (forall j, j < k -> match_at pat (skipn j s) = None) ->
  occurrences pat s = occurrences pat (skipn k s).
Proof.
  revert s. induction k as [|k IH]; intros s H; [reflexivity|].
  destruct s as [|c s]; [reflexivity|].
  assert (H0 : match_at pat (c :: s) = None) by (apply (H 0); lia).
  cbn [occurrences skipn]. rewrite H0. cbn [app].
  apply IH. intros j Hj. apply (H (S j)). lia.
Qed.

Lemma exec_all_skip (pat : pattern) (s : jsstring) (k : nat) :
  exec_all pat k s = exec_all pat 0 (skipn k s).
Proof.
  revert s. induction k as [|k IH]; intros s; [reflexivity|].
  destruct s as [|c s]; [reflexivity|]. cbn [exec_all skipn]. apply IH.
Qed.

Lemma match_at_nil (pat : pattern) : literal pat <> [] -> match_at pat [] = None.
Proof.
  intros H. unfold match_at. destruct (literal pat); [congruence|reflexivity].
Qed.

Lemma exec_all_re6 (s : jsstring) : exec_all re6 0 s = occurrences re6 s.
Proof.
  remember (List.length s) as n eqn:En. revert s En.
  induction n as [n IH] using lt_wf_ind. intros s En.
  destruct s as [|c s]; [reflexivity|].
  cbn [exec_all occurrences].
  destruct (match_at re6 (c :: s)) as [[name len]|] eqn:E; cbn [app].
  - f_equal. rewrite exec_all_skip.
    rewrite (@occurrences_skip re6 s (len - 1)).
    + apply (IH (List.length (skipn (len - 1) s))); [|reflexivity].
      rewrite length_skipn. cbn [List.length] in En. lia.
    + intros j Hj. apply (@re6_no_match_inside (c :: s) name len E (S j)). lia.
  - apply (IH (List.length s)); [|reflexivity]. cbn [List.length] in En. lia.
Qed.

Lemma occurrences_In (a : jsstring) (c : N) (b : jsstring) :
  is_word c = true ->
  In (take_while is_word (c :: b)) (occurrences re6 (a ++ 36%N :: c :: b)).
Proof.
  intros Hc. induction a as [|x a IH]; cbn [app occurrences].
  - rewrite match_at_re6. cbn [N.eqb Pos.eqb take_while]. rewrite Hc.
    apply in_or_app. left. now left.
  - apply in_or_app. right. exact IH.
Qed.

(** ** Nothing is found where no pattern can start *)

Lemma exec_all_none (pat : pattern) (skip : nat) (s : jsstring) :
  (forall k, match_at pat (skipn k s) = None) -> exec_all pat skip s = [].
Proof.
  revert skip. induction s as [|c s IH]; intros skip H; [reflexivity|]. cbn [exec_all].
  assert (Hs : forall k, match_at pat (skipn k s) = None) by (intros k; apply (H (S k))).
  destruct skip as [|k]; [|now apply IH].
  pose proof (H 0) as H0. cbn [skipn] in H0. rewrite H0. now apply IH.
Qed.

Lemma startsWith_In (p s : jsstring) (c : N) :
  startsWith p s = true -> In c p -> In c s.
Proof.
  revert s. induction p as [|x p IH]; intros s H Hc; [contradiction|].
  destruct s as [|y s]; [discriminate|]. cbn [startsWith] in H.
  apply andb_true_iff in H. destruct H as [Exy H]. apply N.eqb_eq in Exy. subst y.
  destruct Hc as [->|Hc]; [now left|]. right. now apply IH.
Qed.

Lemma In_skipn {A} (k : nat) (s : list A) (x : A) : In x (skipn k s) -> In x s.
Proof.
  intros H. rewrite <- (firstn_skipn k s). apply in_or_app. now right.
Qed.

(** A pattern whose literal holds [c] matches nowhere in a string that
    does not. *)
Lemma match_at_without (pat : pattern) (s : jsstring) (c : N) :
  In c (literal pat) -> ~ In c s -> match_at pat s = None.
Proof.
  intros Hc Hs. unfold match_at.
  destruct (startsWith (literal pat) s) eqn:E; [|reflexivity].
  exfalso. apply Hs. exact (@startsWith_In _ _ _ E Hc).
Qed.


(** ** Names and snippets *)

Lemma startsWith_app (n t : jsstring) : startsWith n t = true <-> exists b, t = n ++ b.
Proof.
  revert t. induction n as [|c n IH]; intros t; cbn [startsWith app].
  - split; [intros _; now exists t|reflexivity].
  - destruct t as [|y t]; [split; [discriminate|intros (b & E); discriminate]|].
    rewrite andb_true_iff, N.eqb_eq, IH. split.
    + intros [-> (b & ->)]. now exists b.
    + intros (b & E). injection E as -> ->. split; [reflexivity|now exists b].
Qed.

Lemma occurs_in_offset (n s : jsstring) :
  occurs_in n s <-> exists k, startsWith n (skipn k s) = true.
Proof.
  split.
  - intros (a & b & ->). exists (List.length a).
    rewrite skipn_app, Nat.sub_diag, skipn_all. cbn [skipn app].
    apply startsWith_app. now exists b.
  - intros (k & H). apply startsWith_app in H. destruct H as (b & E).
    exists (firstn k s), b. rewrite <- E. symmetry. apply firstn_skipn.
Qed.

Definition no_line_feed (n : jsstring) : Prop := Forall (fun c => c <> 10%N) n.

Lemma word_no_line_feed (n : jsstring) :
  Forall (fun c => is_word c = true) n -> no_line_feed n.
Proof.
  apply Forall_impl. intros c Hc ->. discriminate.
Qed.

Lemma startsWith_before_line_feed (n u v : jsstring) :
  no_line_feed n -> startsWith n (u ++ 10%N :: v) = true -> startsWith n u = true.
Proof.
  intros Hn. revert u. induction Hn as [|c n Hc _ IH]; intros u; [reflexivity|].
  destruct u as [|y u]; cbn [app startsWith].
  - intros H. apply andb_true_iff in H. destruct H as [H _]. apply N.eqb_eq in H. congruence.
  - intros H. apply andb_true_iff in H. destruct H as [-> H]. cbn [andb]. now apply IH.
Qed.

(** A name that occurs in the snippets joined occurs in one of them. *)
Lemma occurs_in_join (n : jsstring) (texts : list jsstring) :
  n <> [] -> no_line_feed n ->
  occurs_in n (join [10%N; 10%N] texts) -> exists text, In text texts /\ occurs_in n text.
Proof.
  intros Hne Hn. induction texts as [|x texts IH]; cbn [join].
  - intros (a & b & E). destruct a; destruct n; try congruence; discriminate.
  - destruct texts as [|y texts].
    + intros H. exists x. split; [now left|exact H].
    + intros H. apply occurs_in_offset in H. destruct H as (k & H).
      set (rest := join [10%N; 10%N] (y :: texts)) in *.
      destruct (Nat.lt_ge_cases k (List.length x)) as [Hk|Hk].
      * exists x. split; [now left|]. apply occurs_in_offset. exists k.
        rewrite skipn_app in H. replace (k - List.length x) with 0 in H by lia.
        cbn [skipn app] in H. exact (@startsWith_before_line_feed _ _ _ Hn H).
      * rewrite skipn_app, skipn_all2 in H by lia. cbn [app] in H.
        destruct (k - List.length x) as [|[|j]] eqn:Ej; cbn [skipn] in H.
        -- destruct n as [|c n]; [congruence|]. cbn [startsWith] in H.
           apply andb_true_iff in H. destruct H as [H _]. apply N.eqb_eq in H.
           apply Forall_inv in Hn. congruence.
        -- destruct n as [|c n]; [congruence|]. cbn [startsWith] in H.
           apply andb_true_iff in H. destruct H as [H _]. apply N.eqb_eq in H.
           apply Forall_inv in Hn. congruence.
        -- destruct IH as (text & Hin & Ho).
           { apply occurs_in_offset. now exists j. }
           exists text. split; [now right|exact Ho].
Qed.

Lemma extract_spec (text : jsstring) :
  NoDup (extractEnvVarsFromText text) /\
  Forall (fun n => name_like n /\ occurs_in n text) (extractEnvVarsFromText text).
Proof.
  unfold extractEnvVarsFromText.
  destruct (truthy_str text); cbn [negb]; [|split; constructor].
  destruct (distinct_spec
              (flat_map (fun pat => exec_all pat 0 text) [re1; re2; re3; re4; re5; re6]))
    as [Hnd Hin].
  split; [exact Hnd|]. apply Forall_forall. intros n Hn. apply Hin in Hn.
  apply in_flat_map in Hn. destruct Hn as (pat & _ & Hn).
  pose proof (exec_all_names pat 0 text) as H. rewrite Forall_forall in H. now apply H.
Qed.

(** A text with some names in it. *)
Definition sample_text : jsstring :=
  js "app.listen(process.env.PORT); echo $HOME ${SHELL} $1".

(** X17. The names [extractEnvVarsFromText] returns, and so the names of
    [envVars], are distinct; each is a run of characters of [[A-Za-z0-9_]]
    that is not empty and occurs in the text, which for [envVars] is one
    of the snippets (the text of a file cut to 2000 characters); the second
    removal of duplicates that [analyzeRepo] applies changes nothing. *)
Theorem env_vars_are_names_of_the_snippets (fc : file_contents) :
  envVars fc = extractEnvVarsFromText (join [10%N; 10%N] (values fc)) /\
  NoDup (envVars fc) /\
  forall n, In n (envVars fc) ->
    n <> [] /\ Forall (fun c => is_word c = true) n /\
    exists k text a b, In (k, text) fc /\ text = a ++ n ++ b.
Proof.
  destruct (extract_spec (join [10%N; 10%N] (values fc))) as [Hnd Hall].
  assert (E : envVars fc = extractEnvVarsFromText (join [10%N; 10%N] (values fc))).
  { unfold envVars. cbv zeta. cbn [app]. now apply distinct_NoDup. }
  rewrite E. split; [reflexivity|]. split; [exact Hnd|].
  intros n Hn. rewrite Forall_forall in Hall. destruct (Hall n Hn) as [[Hne Hw] Ho].
  split; [exact Hne|]. split; [exact Hw|].
  destruct (@occurs_in_join n (values fc) Hne (@word_no_line_feed n Hw) Ho)
    as (text & Hin & a & b & Et).
  unfold values in Hin. apply in_map_iff in Hin. destruct Hin as ([k t] & Ek & Hin).
  cbn [snd] in Ek. subst t. now exists k, text, a, b.
Qed.

(** X18. Every dollar sign of the text that a character of
    [[A-Za-z0-9_]] follows gives a name: the run of such characters after
    it, whatever stands before the dollar sign and wherever in the text
    it is. *)
Theorem dollar_names_are_reported (text a b : jsstring) (c : N) :
  text = a ++ 36%N :: c :: b ->
  is_word c = true ->
  In (take_while is_word (c :: b)) (extractEnvVarsFromText text).
Proof.
  intros -> Hc. unfold extractEnvVarsFromText.
  assert (Ht : truthy_str (a ++ 36%N :: c :: b) = true) by now destruct a.
  rewrite Ht. cbn [negb]. apply distinct_spec. apply in_flat_map.
  exists re6. split; [cbn [In]; tauto|]. rewrite exec_all_re6. now apply occurrences_In.
Qed.

Lemma dollar_names_are_reported_witness :
  In (js "HOME") (extractEnvVarsFromText sample_text) /\
  In (js "1") (extractEnvVarsFromText sample_text).
Proof.
  split.
  - exact (@dollar_names_are_reported sample_text
             (js "app.listen(process.env.PORT); echo ") (js "OME ${SHELL} $1") 72%N
             eq_refl eq_refl).
  - exact (@dollar_names_are_reported sample_text
             (js "app.listen(process.env.PORT); echo $HOME ${SHELL} ") [] 49%N
             eq_refl eq_refl).
Defined.

(** X19. A text gives no name at all when it holds no dot and no opening
    bracket, and none of its dollar signs is followed by a character of
    [[A-Za-z0-9_]]: a name is found only behind one of the six markers, so
    that neither a line [NAME=value] nor the form with braces after the
    dollar sign is one. *)
Theorem names_need_a_marker (text : jsstring) :
  ~ In 46%N text -> ~ In 91%N text ->
  (forall a c b, text = a ++ 36%N :: c :: b -> is_word c = false) ->
  extractEnvVarsFromText text = [].
Proof.
  intros Hdot Hbracket Hdollar. unfold extractEnvVarsFromText.
  destruct (truthy_str text); cbn [negb]; [|reflexivity].
  assert (H : forall pat c, In c (literal pat) -> ~ In c text -> exec_all pat 0 text = []).
  { intros pat c Hc Hn. apply exec_all_none. intros k.
    apply (@match_at_without pat _ c Hc). intros Hin. apply Hn. exact (@In_skipn _ _ _ _ Hin). }
  cbn [flat_map].
  rewrite (H re1 46%N), (H re2 46%N), (H re3 46%N), (H re4 46%N), (H re5 91%N);
    try assumption; try (cbn; tauto).
  cbn [app]. rewrite app_nil_r.
  rewrite exec_all_none; [reflexivity|].
  intros k. rewrite match_at_re6.
  destruct (skipn k text) as [|x r] eqn:Es; [reflexivity|].
  destruct (N.eqb_spec 36 x) as [<-|_]; [|reflexivity].
  destruct r as [|c b]; [reflexivity|]. cbn [take_while].
  rewrite (Hdollar (firstn k text) c b); [reflexivity|].
  rewrite <- Es. symmetry. apply firstn_skipn.
Qed.

Lemma names_need_a_marker_witness :
  extractEnvVarsFromText (lines ["PORT=3000"; "TOKEN=${SECRET}"; "COST=5$"]%string) = [].
Proof.
  apply names_need_a_marker; try (vm_compute; intuition discriminate).
  intros a c b E.
  assert (H : forall k, match skipn k (lines ["PORT=3000"; "TOKEN=${SECRET}"; "COST=5$"]%string)
                        with
                        | 36%N :: c' :: _ => is_word c' = false
                        | _ => True
                        end).
  { intros k. do 36 (destruct k as [|k]; [vm_compute; auto|]).
    rewrite skipn_all2 by (vm_compute; lia). exact I. }
  specialize (H (List.length a)). rewrite E, skipn_app, Nat.sub_diag, skipn_all in H.
  exact H.
Defined.

End EnvVarFacts.

(* ================================================================== *)
(** * What [JSON.parse] reads, and the snippets that are cut *)
(* ================================================================== *)

Module ParseFacts.

Import Analyze FetchFacts RegexFacts DetectFacts AnalysisInvariants.

(** No dot of [c] comes right after a line feed, nor first when
    [after_lf] holds: the marker of a snippet that was cut starts with a line
    feed and a dot, which no JSON text has one after the other. *)
Fixpoint dots_ok (after_lf : bool) (c : jsstring) : bool :=
  match c with
  | [] => true
  | x :: c' => negb (after_lf && N.eqb x 46) && dots_ok (N.eqb x 10) c'
  end.

Lemma dots_ok_weaken (p : bool) (c : jsstring) : dots_ok true c = true -> dots_ok p c = true.
Proof.
  destruct c as [|x c]; [reflexivity|]. cbn [dots_ok]. destruct p; [tauto|].
  rewrite !andb_true_iff. cbn [andb negb]. tauto.
Qed.

Lemma dots_ok_app (p : bool) (c1 c2 : jsstring) :
  dots_ok p c1 = true -> dots_ok true c2 = true -> dots_ok p (c1 ++ c2) = true.
Proof.
  revert p. induction c1 as [|x c1 IH]; intros p H1 H2; cbn [app].
  - now apply dots_ok_weaken.
  - cbn [dots_ok] in *. apply andb_true_iff in H1. destruct H1 as [-> H1]. cbn [andb].
    now apply IH.
Qed.

Lemma dots_ok_lf_dot (p : bool) (a b : jsstring) : dots_ok p (a ++ 10%N :: 46%N :: b) = false.
Proof.
  revert p. induction a as [|x a IH]; intros p; cbn [app dots_ok].
  - cbn. now rewrite andb_false_r.
  - rewrite IH. apply andb_false_r.
Qed.

Lemma dots_ok_no_dot (p : bool) (c : jsstring) :
  Forall (fun x => x <> 46%N) c -> dots_ok p c = true.
Proof.
  intros H. revert p. induction H as [|x c Hx _ IH]; intros p; [reflexivity|].
  cbn [dots_ok]. apply N.eqb_neq in Hx. rewrite Hx, andb_false_r, IH. reflexivity.
Qed.

Lemma dots_ok_no_lf (c : jsstring) :
  Forall (fun x => x <> 10%N) c -> dots_ok false c = true.
Proof.
  induction 1 as [|x c Hx _ IH]; [reflexivity|].
  cbn [dots_ok andb negb]. apply N.eqb_neq in Hx. now rewrite Hx.
Qed.

(** What a parser has read of [s] when it leaves [r]: a prefix that is
    fine. *)
Definition reads (p : bool) (s r : jsstring) : Prop :=
  exists c, s = c ++ r /\ dots_ok p c = true.

Lemma reads_refl (p : bool) (s : jsstring) : reads p s s.
Proof. now exists []. Qed.

Lemma reads_trans (p : bool) (s t r : jsstring) :
  reads p s t -> reads true t r -> reads p s r.
Proof.
  intros (c1 & -> & H1) (c2 & -> & H2). exists (c1 ++ c2).
  split; [now rewrite app_assoc|now apply dots_ok_app].
Qed.

Lemma reads_char (x : N) (r : jsstring) : x <> 46%N -> reads true (x :: r) r.
Proof.
  intros H. exists [x]. split; [reflexivity|]. apply dots_ok_no_dot. now repeat constructor.
Qed.

Lemma is_ws_not_dot (x : N) : Json.is_ws x = true -> x <> 46%N.
Proof. intros H ->. discriminate. Qed.

Lemma reads_skip_ws (s : jsstring) : reads true s (Json.skip_ws s).
Proof.
  unfold Json.skip_ws. exists (take_while Json.is_ws s). split; [apply take_drop_while|].
  apply dots_ok_no_dot. eapply Forall_impl; [|apply take_while_all].
  intros x. apply is_ws_not_dot.
Qed.

(** ** Strings *)

Lemma string_body_reads (acc s str r : jsstring) :
  Json.string_body acc s = Some (str, r) ->
  exists c, s = c ++ r /\ Forall (fun x => x <> 10%N) c.
Proof.
  remember (List.length s) as n eqn:En. revert acc s En.
  induction n as [n IH] using lt_wf_ind. intros acc s En.
  destruct s as [|x s]; cbn [Json.string_body]; [discriminate|].
  assert (Step : forall acc' x' s',
            List.length s' < n -> x' <> 10%N ->
            Json.string_body acc' s' = Some (str, r) ->
            exists c, s' = c ++ r /\ Forall (fun y => y <> 10%N) (x' :: c)).
  { intros acc' x' s' Hl Hx' H. destruct (IH _ Hl acc' s' eq_refl H) as (c & -> & Hc).
    exists c. split; [reflexivity|]. now constructor. }
  cbn [List.length] in En.
  destruct (N.eqb_spec x 34) as [->|_].
  { intros E. injection E as _ <-. exists [34%N]. split; [reflexivity|].
    repeat constructor. discriminate. }
  destruct (N.eqb_spec x 92) as [->|_].
  { destruct s as [|e s]; [discriminate|]. cbn [List.length] in En.
    assert (Esc : forall acc',
              Json.string_body acc' s = Some (str, r) -> e <> 10%N ->
              exists c, 92%N :: e :: s = c ++ r /\ Forall (fun y => y <> 10%N) c).
    { intros acc' H He. destruct (IH (List.length s) ltac:(lia) acc' s eq_refl H)
        as (c & -> & Hc).
      exists (92%N :: e :: c). split; [reflexivity|].
      constructor; [discriminate|]. now constructor. }
    repeat match goal with
           | |- context [N.eqb e ?k] =>
               destruct (N.eqb_spec e k) as [->|_]; [intros H; apply (Esc _ H); discriminate|]
           end.
    destruct (N.eqb_spec e 117) as [->|_]; [|discriminate].
    destruct s as [|h1 [|h2 [|h3 [|h4 s]]]]; try discriminate.
    destruct (Json.hex4 h1 h2 h3 h4) as [u|] eqn:Eh; [|discriminate].
    intros H. cbn [List.length] in En.
    destruct (IH (List.length s) ltac:(lia) _ s eq_refl H) as (c & -> & Hc).
    exists (92%N :: 117%N :: h1 :: h2 :: h3 :: h4 :: c). split; [reflexivity|].
    unfold Json.hex4 in Eh.
    assert (Hh : forall h, Json.hex_val h <> None -> h <> 10%N).
    { intros h Hv ->. now apply Hv. }
    destruct (Json.hex_val h1) eqn:E1; [|discriminate].
    destruct (Json.hex_val h2) eqn:E2; [|discriminate].
    destruct (Json.hex_val h3) eqn:E3; [|discriminate].
    destruct (Json.hex_val h4) eqn:E4; [|discriminate].
    repeat (constructor; [first [discriminate | apply Hh; congruence]|]). exact Hc. }
  destruct (N.ltb_spec x 32) as [_|Hx]; [discriminate|].
  intros H. destruct (IH (List.length s) ltac:(lia) _ s eq_refl H) as (c & -> & Hc).
  exists (x :: c). split; [reflexivity|]. constructor; [lia|exact Hc].
Qed.

(** A string, from its opening quote on. *)
Lemma string_reads (s str r : jsstring) :
  Json.string_body [] s = Some (str, r) -> reads true (34%N :: s) r.
Proof.
  intros H. destruct (string_body_reads _ _ H) as (c & -> & Hc).
  exists (34%N :: c). split; [reflexivity|]. cbn [dots_ok]. now apply dots_ok_no_lf.
Qed.


(** ** Numbers *)

Lemma digits1_reads (s ds r : jsstring) :
  Json.digits1 s = Some (ds, r) -> s = ds ++ r /\ Forall (fun x => is_digit x = true) ds.
Proof.
  unfold Json.digits1. pose proof (take_while_all is_digit s) as H.
  pose proof (take_drop_while is_digit s) as E.
  destruct (take_while is_digit s) as [|d l]; [discriminate|].
  intros Eq. injection Eq as <- <-. split; [exact E|exact H].
Qed.

(** Cases on every test of a hypothesis. *)
Ltac cases_in H :=
  repeat match type of H with
         | context [match ?x with _ => _ end] =>
             first [is_var x; destruct x | destruct x eqn:?]
         end.

(** No line feed in [c]. *)
Definition plain (c : jsstring) : Prop := Forall (fun x => x <> 10%N) c.

Lemma digits_plain (ds : jsstring) : Forall (fun x => is_digit x = true) ds -> plain ds.
Proof. apply Forall_impl. intros x Hx ->. discriminate. Qed.

Lemma dots_ok_plain (h : N) (t : jsstring) :
  h <> 46%N -> plain (h :: t) -> dots_ok true (h :: t) = true.
Proof.
  intros Hh Hp. cbn [dots_ok]. apply N.eqb_neq in Hh. rewrite Hh. cbn [andb negb].
  apply Forall_inv_tail in Hp as Ht. apply Forall_inv in Hp. apply N.eqb_neq in Hp.
  rewrite Hp. now apply dots_ok_no_lf.
Qed.

Lemma number_reads (s lexeme r : jsstring) :
  Json.number s = Some (lexeme, r) -> reads true s r.
Proof.
  unfold Json.number. intros H. cases_in H; try discriminate.
  injection H as <- <-.
  (* the sign *)
  assert (Hsign : s = l ++ n :: j /\ (l = [] \/ l = [45%N])).
  { clear - Heqp. cases_in Heqp; inversion Heqp; subst; auto. }
  (* the integer part *)
  assert (Hint : n :: j = l0 ++ l1 /\ plain l0 /\ is_digit n = true /\
                 exists t, l0 = n :: t).
  { clear - Heqo. destruct (N.eqb_spec n 48) as [->|_].
    - injection Heqo as <- <-. repeat split; [repeat constructor; discriminate|now exists []].
    - destruct (is_digit n) eqn:Hn; [|discriminate]. injection Heqo as <- <-.
      split; [cbn [app]; f_equal; apply take_drop_while|].
      split; [|split; [reflexivity|now eexists]].
      apply digits_plain. constructor; [exact Hn|apply take_while_all]. }
  (* the fraction *)
  assert (Hfrac : l1 = l2 ++ l3 /\ plain l2).
  { clear - Heqo0. cases_in Heqo0; try discriminate; injection Heqo0 as <- <-;
      try (split; [reflexivity|constructor]).
    match goal with
    | E : Json.digits1 _ = Some _ |- _ => apply digits1_reads in E; destruct E as [-> Hd]
    end.
    split; [reflexivity|]. constructor; [discriminate|now apply digits_plain]. }
  (* the exponent *)
  assert (Hexp : l3 = l4 ++ l5 /\ plain l4).
  { clear - Heqo1. destruct l3 as [|e r3]; [injection Heqo1 as <- <-; now split; [|constructor]|].
    destruct (N.eqb e 101 || N.eqb e 69) eqn:He;
      [|injection Heqo1 as <- <-; now split; [|constructor]].
    assert (He' : e <> 10%N) by (intros ->; discriminate).
    destruct r3 as [|x r'].
    - cbn in Heqo1. discriminate.
    - destruct (N.eqb x 43 || N.eqb x 45) eqn:Hx.
      + destruct (Json.digits1 r') as [[ds s4]|] eqn:Ed; [|discriminate].
        injection Heqo1 as <- <-. apply digits1_reads in Ed. destruct Ed as [-> Hd].
        split; [reflexivity|]. constructor; [exact He'|].
        constructor; [intros ->; discriminate|now apply digits_plain].
      + destruct (Json.digits1 (x :: r')) as [[ds s4]|] eqn:Ed; [|discriminate].
        injection Heqo1 as <- <-. apply digits1_reads in Ed. destruct Ed as [-> Hd].
        split; [reflexivity|]. constructor; [exact He'|]. now apply digits_plain. }
  destruct Hsign as [-> Hl], Hint as (Ei & Hp0 & Hn & t & ->), Hfrac as [-> Hp2],
    Hexp as [-> Hp4].
  rewrite Ei. exists (l ++ (n :: t) ++ l2 ++ l4). split; [now rewrite <- !app_assoc|].
  assert (Hn46 : n <> 46%N) by (intros ->; discriminate).
  assert (Hrest : plain ((n :: t) ++ l2 ++ l4)).
  { apply Forall_app. split; [exact Hp0|]. apply Forall_app. now split. }
  destruct Hl as [->| ->]; cbn [app].
  - now apply dots_ok_plain.
  - apply dots_ok_plain; [discriminate|]. constructor; [discriminate|exact Hrest].
Qed.


(** ** Values *)

(** The two local loops of [Json.value], over the parser of the values
    inside. *)
Definition elements_of (value' : jsstring -> option (Json.json * jsstring)) :
  nat -> list Json.json -> jsstring -> option (Json.json * jsstring) :=
  fix elements (n : nat) (acc : list Json.json) (s : jsstring) {struct n} :=
    match n with
    | O => None
    | S n' =>
        match value' s with
        | None => None
        | Some (v, r) =>
            match Json.skip_ws r with
            | 44%N :: r' => elements n' (v :: acc) r'
            | 93%N :: r' => Some (Json.JArr (rev (v :: acc)), r')
            | _ => None
            end
        end
    end.

Definition members_of (value' : jsstring -> option (Json.json * jsstring)) :
  nat -> list (jsstring * Json.json) -> jsstring -> option (Json.json * jsstring) :=
  fix members (n : nat) (acc : list (jsstring * Json.json)) (s : jsstring) {struct n} :=
    match n with
    | O => None
    | S n' =>
        match Json.skip_ws s with
        | 34%N :: r =>
            match Json.string_body [] r with
            | None => None
            | Some (k, r1) =>
                match Json.skip_ws r1 with
                | 58%N :: r2 =>
                    match value' r2 with
                    | None => None
                    | Some (v, r3) =>
                        match Json.skip_ws r3 with
                        | 44%N :: r4 => members n' (Json.define k v acc) r4
                        | 125%N :: r4 => Some (Json.JObj (Json.define k v acc), r4)
                        | _ => None
                        end
                    end
                | _ => None
                end
            end
        | _ => None
        end
    end.

Lemma value_S (fuel : nat) (s : jsstring) :
  Json.value (S fuel) s =
  match Json.skip_ws s with
  | [] => None
  | c :: r =>
      if N.eqb c 123 then
        match Json.skip_ws r with
        | 125%N :: r' => Some (Json.JObj [], r')
        | _ => members_of (Json.value fuel) (List.length r) [] r
        end
      else if N.eqb c 91 then
        match Json.skip_ws r with
        | 93%N :: r' => Some (Json.JArr [], r')
        | _ => elements_of (Json.value fuel) (List.length r) [] r
        end
      else if N.eqb c 34 then
        match Json.string_body [] r with
        | Some (str, r') => Some (Json.JStr str, r')
        | None => None
        end
      else if N.eqb c 116 then Json.literal (js "true") (Json.JBool true) (c :: r)
      else if N.eqb c 102 then Json.literal (js "false") (Json.JBool false) (c :: r)
      else if N.eqb c 110 then Json.literal (js "null") Json.JNull (c :: r)
      else
        match Json.number (c :: r) with
        | Some (lexeme, r') => Some (Json.JNum lexeme, r')
        | None => None
        end
  end.
Proof. reflexivity. Qed.

(** After white space, one character that is no dot. *)
Lemma reads_ws_char (s r : jsstring) (x : N) :
  Json.skip_ws s = x :: r -> x <> 46%N -> reads true s r.
Proof.
  intros E Hx. apply reads_trans with (x :: r); [|now apply reads_char].
  rewrite <- E. apply reads_skip_ws.
Qed.

Section Loops.

Variable value' : jsstring -> option (Json.json * jsstring).
Hypothesis value'_reads : forall s v r, value' s = Some (v, r) -> reads true s r.

Lemma elements_reads (n : nat) (acc : list Json.json) (s : jsstring) (v : Json.json)
    (r : jsstring) :
  elements_of value' n acc s = Some (v, r) -> reads true s r.
Proof.
  revert acc s. induction n as [|n IH]; intros acc s; cbn [elements_of]; [discriminate|].
  destruct (value' s) as [[v1 r1]|] eqn:Ev; [|discriminate]. apply value'_reads in Ev.
  destruct (Json.skip_ws r1) as [|x r'] eqn:Ew; [discriminate|].
  intros H. apply reads_trans with r1; [exact Ev|].
  destruct (N.eqb_spec x 44) as [->|H44].
  - apply reads_trans with r'; [apply (reads_ws_char _ Ew); discriminate|].
    exact (IH _ _ H).
  - destruct (N.eqb_spec x 93) as [->|H93].
    + injection H as _ <-. apply (reads_ws_char _ Ew). discriminate.
    + exfalso. clear - H H44 H93. cases_in H; try discriminate; congruence.
Qed.

Lemma members_reads (n : nat) (acc : list (jsstring * Json.json)) (s : jsstring)
    (v : Json.json) (r : jsstring) :
  members_of value' n acc s = Some (v, r) -> reads true s r.
Proof.
  revert acc s. induction n as [|n IH]; intros acc s; cbn [members_of]; [discriminate|].
  destruct (Json.skip_ws s) as [|q r0] eqn:Ew0; [discriminate|].
  destruct (N.eqb_spec q 34) as [->|H34];
    [|intros H; exfalso; clear - H H34; cases_in H; try discriminate; congruence].
  destruct (Json.string_body [] r0) as [[k r1]|] eqn:Ek; [|discriminate].
  apply string_reads in Ek.
  destruct (Json.skip_ws r1) as [|c r2] eqn:Ew1; [discriminate|].
  destruct (N.eqb_spec c 58) as [->|H58];
    [|intros H; exfalso; clear - H H58; cases_in H; try discriminate; congruence].
  destruct (value' r2) as [[v3 r3]|] eqn:Ev; [|discriminate]. apply value'_reads in Ev.
  destruct (Json.skip_ws r3) as [|x r4] eqn:Ew3; [discriminate|].
  intros H.
  apply reads_trans with (34%N :: r0); [rewrite <- Ew0; apply reads_skip_ws|].
  apply reads_trans with r1; [exact Ek|].
  apply reads_trans with r2; [apply (reads_ws_char _ Ew1); discriminate|].
  apply reads_trans with r3; [exact Ev|].
  destruct (N.eqb_spec x 44) as [->|H44].
  - apply reads_trans with r4; [apply (reads_ws_char _ Ew3); discriminate|].
    exact (IH _ _ H).
  - destruct (N.eqb_spec x 125) as [->|H125].
    + injection H as _ <-. apply (reads_ws_char _ Ew3). discriminate.
    + exfalso. clear - H H44 H125. cases_in H; try discriminate; congruence.
Qed.

End Loops.

Lemma literal_reads (word : jsstring) (v w : Json.json) (s r : jsstring) :
  Forall (fun x => x <> 46%N) word ->
  Json.literal word v s = Some (w, r) -> reads true s r.
Proof.
  unfold Json.literal. intros Hw. destruct (startsWith word s) eqn:E; [|discriminate].
  intros H. injection H as _ <-. exists (firstn (List.length word) s).
  split; [symmetry; apply firstn_skipn|]. apply dots_ok_no_dot.
  revert s E. induction Hw as [|x word Hx _ IH]; intros s E; [constructor|].
  destruct s as [|y s]; [discriminate|]. cbn [startsWith] in E.
  apply andb_true_iff in E. destruct E as [Exy E]. apply N.eqb_eq in Exy. subst y.
  cbn [List.length firstn]. constructor; [exact Hx|now apply IH].
Qed.

(** What [Json.value] has read has no dot right after a line feed. *)
Lemma value_reads (fuel : nat) (s : jsstring) (v : Json.json) (r : jsstring) :
  Json.value fuel s = Some (v, r) -> reads true s r.
Proof.
  revert s v r. induction fuel as [|fuel IH]; intros s v r; [discriminate|].
  rewrite value_S. destruct (Json.skip_ws s) as [|c r0] eqn:Ew; [discriminate|].
  assert (Hs : reads true s (c :: r0)) by (rewrite <- Ew; apply reads_skip_ws).
  destruct (N.eqb_spec c 123) as [->|_].
  { intros H. apply reads_trans with r0; [apply (reads_ws_char _ Ew); discriminate|].
    destruct (Json.skip_ws r0) as [|x r'] eqn:Ew'; [now apply members_reads in H|].
    destruct (N.eqb_spec x 125) as [->|Hx].
    - injection H as _ <-. apply (reads_ws_char _ Ew'). discriminate.
    - assert (Hm : members_of (Json.value fuel) (List.length r0) [] r0 = Some (v, r)).
      { clear - H Hx. cases_in H; first [exact H | congruence]. }
      now apply members_reads in Hm. }
  destruct (N.eqb_spec c 91) as [->|_].
  { intros H. apply reads_trans with r0; [apply (reads_ws_char _ Ew); discriminate|].
    destruct (Json.skip_ws r0) as [|x r'] eqn:Ew'; [now apply elements_reads in H|].
    destruct (N.eqb_spec x 93) as [->|Hx].
    - injection H as _ <-. apply (reads_ws_char _ Ew'). discriminate.
    - assert (Hm : elements_of (Json.value fuel) (List.length r0) [] r0 = Some (v, r)).
      { clear - H Hx. cases_in H; first [exact H | congruence]. }
      now apply elements_reads in Hm. }
  destruct (N.eqb_spec c 34) as [->|_].
  { destruct (Json.string_body [] r0) as [[str r']|] eqn:Es; [|discriminate].
    intros H. injection H as _ <-. apply reads_trans with (34%N :: r0); [exact Hs|].
    now apply string_reads in Es. }
  assert (Hl : forall word w, Forall (fun x => x <> 46%N) word ->
            Json.literal word w (c :: r0) = Some (v, r) -> reads true s r).
  { intros word w Hw H. apply reads_trans with (c :: r0); [exact Hs|].
    exact (@literal_reads _ _ _ _ _ Hw H). }
  destruct (N.eqb_spec c 116) as [->|_];
    [apply Hl; repeat constructor; discriminate|].
  destruct (N.eqb_spec c 102) as [->|_];
    [apply Hl; repeat constructor; discriminate|].
  destruct (N.eqb_spec c 110) as [->|_];
    [apply Hl; repeat constructor; discriminate|].
  destruct (Json.number (c :: r0)) as [[lexeme r']|] eqn:En; [|discriminate].
  intros H. injection H as _ <-. apply reads_trans with (c :: r0); [exact Hs|].
  now apply number_reads in En.
Qed.

(** A text that [JSON.parse] accepts has no dot right after a line feed. *)
Lemma parse_dots_ok (text : jsstring) (v : Json.json) :
  Json.parse text = Some v -> dots_ok true text = true.
Proof.
  unfold Json.parse.
  destruct (Json.value (S (List.length text)) text) as [[w r]|] eqn:E; [|discriminate].
  destruct (Json.skip_ws r) eqn:Ew; [|discriminate]. intros _.
  apply value_reads in E. pose proof (reads_skip_ws r) as Hr. rewrite Ew in Hr.
  destruct (reads_trans E Hr) as (c & -> & Hc). now rewrite app_nil_r.
Qed.


(** ** Snippets that were cut *)

(** A text that is longer than [max] is cut. *)
Lemma shortSnippet_cut (text : jsstring) (max : nat) :
  max < List.length text -> shortSnippet text max = firstn max text ++ truncated_marker.
Proof.
  intros Hlen. unfold shortSnippet, slice0. destruct text as [|x text]; [cbn in Hlen; lia|].
  cbn [truthy_str negb]. apply Nat.ltb_lt in Hlen. now rewrite Hlen.
Qed.

(** No text that ends with the marker parses. *)
Lemma marked_text_never_parses (a : jsstring) : Json.parse (a ++ truncated_marker) = None.
Proof.
  destruct (Json.parse _) as [v|] eqn:Ep; [|reflexivity].
  apply parse_dots_ok in Ep.
  change truncated_marker with (10%N :: 46%N :: js "..[truncated]") in Ep.
  rewrite dots_ok_lf_dot in Ep. discriminate.
Qed.

(** X20. A text that [shortSnippet] cuts is no JSON text any more, whatever
    it was: [JSON.parse] throws on every snippet that carries the marker,
    since the marker starts with a line feed and a dot. *)
Theorem cut_snippet_never_parses (text : jsstring) (max : nat) :
  max < List.length text ->
  shortSnippet text max = firstn max text ++ truncated_marker /\
  Json.parse (shortSnippet text max) = None.
Proof.
  intros Hlen. rewrite (shortSnippet_cut text Hlen).
  split; [reflexivity|apply marked_text_never_parses].
Qed.

Lemma cut_snippet_never_parses_witness :
  Json.parse (shortSnippet (jq "{'a':1}") 6) = None.
Proof.
  refine (proj2 (@cut_snippet_never_parses (jq "{'a':1}") 6 _)).
  vm_compute. lia.
Defined.

(** The project type is not the one of the manifest. *)
Definition not_node (d : DetectedFacts) : Prop :=
  projectType d <> Some (js "node-project").

Lemma or_default_not_node (x : option jsstring) (v : string) :
  x <> Some (js "node-project") -> Some (js v) <> Some (js "node-project") ->
  or_default x v <> Some (js "node-project").
Proof. unfold or_default. now destruct (truthy_header x). Qed.

Lemma later_stages_not_node items fc d :
  not_node d ->
  not_node (fallback_run (generic_tests items (readme_license fc (ci fc (docker fc (python fc d)))))).
Proof.
  intros H.
  assert (H1 : not_node (python fc d)).
  { unfold python. cases; try exact H; apply or_default_not_node; first [exact H|discriminate]. }
  assert (H2 : not_node (docker fc (python fc d))).
  { revert H1. generalize (python fc d). clear. intros d H. unfold docker.
    cases; try exact H; apply or_default_not_node; first [exact H|discriminate]. }
  revert H2. generalize (docker fc (python fc d)). clear. intros d H.
  assert (H3 : not_node (ci fc d)) by (unfold ci; cases; exact H).
  revert H3. generalize (ci fc d). clear. intros d H.
  assert (H4 : not_node (readme_license fc d)) by (unfold readme_license; cases; exact H).
  revert H4. generalize (readme_license fc d). clear. intros d H.
  assert (H5 : not_node (generic_tests items d)) by (unfold generic_tests; cases; exact H).
  revert H5. generalize (generic_tests items d). clear. intros d H.
  unfold fallback_run. cases; exact H.
Qed.

(** A manifest of more than 2000 characters, and the analysis of the
    repository that holds it. *)
Definition long_manifest_analysis : analysis :=
  Eval vm_compute in
    match fst (analyze [a_file "package.json"] [(js "package.json", long_manifest)]) with
    | Some a => a
    | None => {| repo := []; ref := []; filesFound := []; detected := initial; snippets := [] |}
    end.

(** X21. A [package.json] of more than 2000 characters is never read as a
    manifest, whatever it holds: its snippet is the first 2000 characters
    and the marker, [JSON.parse] throws on it, the manifest heuristic
    changes nothing, and neither [packageManager] is ["npm|yarn"] nor
    [projectType] is ["node-project"]. *)
Theorem long_manifest_is_ignored (oct : octokit) (owner repo ref : jsstring) (a : analysis)
    (text : jsstring) :
  fst (analyzeRepo oct owner repo ref []) = Some a ->
  getContent oct owner repo (js "package.json") ref = File text ->
  2000 < List.length text ->
  snippet "package.json" (snippets a) = Some (firstn 2000 text ++ truncated_marker) /\
  (forall d, package_json (snippets a) d = d) /\
  packageManager (detected a) <> Some (js "npm|yarn") /\
  projectType (detected a) <> Some (js "node-project").
Proof.
  intros Ha Hc Hlen.
  destruct (analysis_shape _ _ _ _ Ha) as (items & Hs & Hd & _).
  pose proof (shortSnippet_cut text Hlen) as Ecut.
  pose proof (marked_text_never_parses (firstn 2000 text)) as Hparse.
  assert (Ht : truthy_str text = true) by (destruct text; [cbn in Hlen; lia|reflexivity]).
  assert (Hf : fetched oct owner repo ref (js "package.json") = Some (shortSnippet text 2000)).
  { unfold fetched. now rewrite Hc, Ht. }
  assert (Hsn : snippet "package.json" (snippets a) =
                Some (firstn 2000 text ++ truncated_marker)).
  { unfold snippet. rewrite Hs, assoc_collect.
    - rewrite Hf, Ecut. now destruct (firstn 2000 text).
    - rewrite keys_collect_available. apply filter_In. split.
      + destruct (fetch_list_priority items) as (others & ->). apply in_or_app. left.
        now left.
      + unfold is_available. rewrite fetched_available in Hf.
        now destruct (available oct owner repo ref (js "package.json")). }
  assert (Hid : forall d, package_json (snippets a) d = d).
  { intros d. cbv beta delta [package_json]. now rewrite Hsn, Hparse. }
  split; [exact Hsn|]. split; [exact Hid|]. split.
  - rewrite Hd, detect_packageManager, Hsn, Hparse.
    destruct (python_files (snippets a)); discriminate.
  - rewrite Hd. unfold detect. rewrite Hid. apply later_stages_not_node. discriminate.
Qed.

Lemma long_manifest_is_ignored_witness :
  packageManager (detected long_manifest_analysis) <> Some (js "npm|yarn").
Proof.
  refine (proj1 (proj2 (proj2 (@long_manifest_is_ignored
            (client [a_file "package.json"] [(js "package.json", long_manifest)])
            (js "octo") (js "demo") (js "main") long_manifest_analysis long_manifest _ _ _)))).
  - vm_compute. reflexivity.
  - vm_compute. reflexivity.
  - apply Nat.ltb_lt. vm_compute. reflexivity.
Defined.

End ParseFacts.

(* ================================================================== *)
(** * Facts about the private key *)
(* ================================================================== *)

Module CredentialFacts.

Import Credentials.

(** The two characters of an escaped line break. *)
Definition escaped_break : jsstring := [92%N; 110%N].

Lemma unescape_cons (x : N) (r : jsstring) :
  startsWith escaped_break (x :: r) = false -> unescape (x :: r) = x :: unescape r.
Proof.
  destruct r as [|y r]; [reflexivity|]. cbn [unescape startsWith escaped_break].
  rewrite andb_true_r, (N.eqb_sym 92 x), (N.eqb_sym 110 y). now intros ->.
Qed.

Lemma unescape_break (b : jsstring) : unescape (escaped_break ++ b) = 10%N :: unescape b.
Proof. reflexivity. Qed.

(** Induction two characters at a time, as [unescape] goes. *)
Lemma unescape_ind (P : jsstring -> Prop) :
  P [] ->
  (forall r, P r -> P (escaped_break ++ r)) ->
  (forall x r, startsWith escaped_break (x :: r) = false -> P r -> P (x :: r)) ->
  forall s, P s.
Proof.
  intros H0 Hb Hc s. remember (List.length s) as n eqn:En. revert s En.
  induction n as [n IH] using lt_wf_ind. intros [|x r] En; [exact H0|].
  cbn [List.length] in En.
  destruct (startsWith escaped_break (x :: r)) eqn:E.
  - destruct r as [|y r]; [cbn in E; now rewrite andb_false_r in E|].
    cbn [startsWith escaped_break] in E. rewrite andb_true_r in E.
    apply andb_true_iff in E. destruct E as [Ex Ey].
    apply N.eqb_eq in Ex, Ey. subst x y. apply Hb.
    apply (IH (List.length r)); [cbn [List.length] in En; lia|reflexivity].
  - apply Hc; [exact E|]. apply (IH (List.length r)); [lia|reflexivity].
Qed.

Lemma unescape_app_break (a b : jsstring) :
  unescape (a ++ escaped_break ++ b) = unescape a ++ 10%N :: unescape b.
Proof.
  induction a as [|r IH|x r E IH] using unescape_ind.
  - reflexivity.
  - rewrite <- app_assoc, !unescape_break, IH. reflexivity.
  - rewrite (@unescape_cons _ _ E). cbn [app]. rewrite unescape_cons, IH; [reflexivity|].
    destruct r as [|y r]; cbn [app startsWith escaped_break] in *.
    + destruct (N.eqb 92 x); reflexivity.
    + exact E.
Qed.

Lemma unescape_head (x : N) (r : jsstring) :
  startsWith escaped_break (x :: r) = false ->
  startsWith escaped_break (x :: unescape r) = false.
Proof.
  destruct r as [|y [|z r]]; cbn [unescape]; [easy|easy|].
  destruct (N.eqb y 92 && N.eqb z 110); [|easy].
  intros _. cbn. apply andb_false_r.
Qed.

Lemma unescape_no_break (s : jsstring) : includes escaped_break (unescape s) = false.
Proof.
  induction s as [|r IH|x r E IH] using unescape_ind.
  - reflexivity.
  - rewrite unescape_break. cbn [includes startsWith escaped_break]. exact IH.
  - rewrite (@unescape_cons _ _ E). cbn [includes]. rewrite IH, orb_false_r.
    now apply unescape_head.
Qed.

Lemma unescape_length (s : jsstring) : List.length (unescape s) <= List.length s.
Proof.
  induction s as [|r IH|x r E IH] using unescape_ind.
  - reflexivity.
  - rewrite unescape_break. cbn [List.length app escaped_break]. lia.
  - rewrite (@unescape_cons _ _ E). cbn [List.length]. lia.
Qed.

Lemma unescape_plain (s : jsstring) : ~ In 92%N s -> unescape s = s.
Proof.
  induction s as [|x r IH]; intros H; [reflexivity|].
  rewrite unescape_cons.
  - f_equal. apply IH. intros Hr. apply H. now right.
  - cbn [startsWith escaped_break]. destruct (N.eqb_spec 92 x) as [<-|]; [|reflexivity].
    exfalso. apply H. now left.
Qed.

(** A key of two lines, as a [.env] file holds it on one line. *)
Definition one_line_key : jsstring := js "-----BEGIN-----\nMIIE\n-----END-----".

(** X22. With no [PRIVATE_KEY_PATH], the key is read from [PRIVATE_KEY]
    without a look at the file system, every escaped line break of the
    variable (a backslash and an [n]) replaced by a line feed: the key has
    no escaped line break left, is not longer than the variable, and is the
    variable itself when that has no backslash. *)
Theorem key_of_the_environment (readFile : jsstring -> option jsstring) (e : key_settings)
    (value : jsstring) :
  truthy_header (env_PRIVATE_KEY_PATH e) = false ->
  env_PRIVATE_KEY e = Some value -> value <> [] ->
  exists key,
    loadPrivateKey readFile e = Returns key /\
    (forall readFile', loadPrivateKey readFile' e = Returns key) /\
    (forall a b, value = a ++ escaped_break ++ b ->
                 key = unescape a ++ 10%N :: unescape b) /\
    includes escaped_break key = false /\
    List.length key <= List.length value /\
    (~ In 92%N value -> key = value).
Proof.
  intros Hp Hk Hv. exists (unescape value).
  assert (E : forall rf, loadPrivateKey rf e = Returns (unescape value)).
  { intros rf. unfold loadPrivateKey. rewrite Hp, Hk. cbn [truthy_header string_of].
    now destruct value. }
  split; [apply E|]. split; [exact E|]. split; [intros a b ->; apply unescape_app_break|].
  split; [apply unescape_no_break|]. split; [apply unescape_length|apply unescape_plain].
Qed.

Lemma key_of_the_environment_witness :
  exists key,
    loadPrivateKey (fun _ => None)
      {| env_PRIVATE_KEY_PATH := Some []; env_PRIVATE_KEY := Some one_line_key |}
    = Returns key /\
    includes escaped_break key = false.
Proof.
  destruct (@key_of_the_environment (fun _ => None)
              {| env_PRIVATE_KEY_PATH := Some []; env_PRIVATE_KEY := Some one_line_key |}
              one_line_key eq_refl eq_refl ltac:(discriminate))
    as (key & H1 & _ & _ & H2 & _).
  exists key. split; [exact H1|exact H2].
Defined.

End CredentialFacts.
